(** * KernelBlockDevices: the kbd plugin of libblockdev (src/plugins/kbd.c)

    The plugin drives two kernel facilities, zRAM and bcache, through libkmod,
    sysfs control files, one external tool (make-bcache) and a handful of
    libc/GLib calls.  All of its state lives outside the process, so the
    embedding below is built in layers:

    - [CStr], [GLib], [Regex]: the pure string, error-object and pattern
      helpers the C code leans on;
    - [Sys]: the calls that leave the process, as the events of a small
      program monad, run against an arbitrary environment that answers them
      and recorded in a trace;
    - [Kbd]: the functions of kbd.c, statement by statement;
    - [Spec]: the words the statements are written in, and [Fixtures]:
      concrete machines to run the plugin on.

    The theorems that follow are stated over every environment. *)

From Stdlib Require Import ZArith NArith List String Ascii Lia Bool.
From Stdlib Require Import DecimalString DecimalN.
Import ListNotations.
Local Open Scope string_scope.

(* ================================================================== *)
(** ** C strings *)

(** A [gchar *] that points into a NUL-terminated buffer is modelled by the
    text from the pointed-to character up to the terminator; [NULL] is [None].
    Advancing a pointer drops characters from the front, and the difference of
    two pointers into one buffer is the difference of the lengths that remain. *)
Module CStr.

(** [strchr (s, c)] for [c <> NUL]: the first occurrence. *)
Fixpoint strchr (s : string) (c : ascii) : option string :=
  match s with
  | EmptyString => None
  | String a s' => if Ascii.eqb a c then Some s else strchr s' c
  end.

(** [strrchr (s, c)] for [c <> NUL]: the last occurrence. *)
Fixpoint strrchr (s : string) (c : ascii) : option string :=
  match s with
  | EmptyString => None
  | String a s' =>
      match strrchr s' c with
      | Some r => Some r
      | None => if Ascii.eqb a c then Some s else None
      end
  end.

(** [p + n] within the buffer. *)
Fixpoint ptr_add (s : string) (n : nat) {struct n} : string :=
  match n, s with
  | O, _ => s
  | S n', String _ s' => ptr_add s' n'
  | S _, EmptyString => EmptyString
  end.

(** [q - p] for [q] and [p] in the same buffer. *)
Definition ptr_diff (q p : string) : Z :=
  Z.of_nat (String.length p) - Z.of_nat (String.length q).

(** [g_strndup (s, n)]: at most [n] leading bytes of [s]. *)
Fixpoint g_strndup (s : string) (n : nat) : string :=
  match n, s with
  | S n', String a s' => String a (g_strndup s' n')
  | _, _ => EmptyString
  end.

Definition g_str_has_prefix (s pre : string) : bool := String.prefix pre s.

(** The ["%" G_GUINT64_FORMAT] conversion. *)
Definition fmt_u64 (n : N) : string := NilZero.string_of_uint (N.to_uint n).

(** One [remainder .. s] step of [g_strsplit (text, "\n", 0)]: the token in
    front of the first newline and what follows it. *)
Fixpoint split_nl (s : string) : string * option string :=
  match s with
  | EmptyString => (EmptyString, None)
  | String a s' =>
      if Ascii.eqb a "010"%char then (EmptyString, Some s')
      else let '(tok, rest) := split_nl s' in (String a tok, rest)
  end.

Fixpoint strsplit_nl (fuel : nat) (s : string) : list string :=
  match fuel with
  | O => []
  | S fuel' =>
      match split_nl s with
      | (tok, None) => [tok]
      | (tok, Some rest) => tok :: strsplit_nl fuel' rest
      end
  end.

(** [g_strsplit (text, "\n", 0)]: the empty text gives the empty vector;
    any other text gives one token more than it has newlines. *)
Definition g_strsplit_nl (text : string) : list string :=
  match text with
  | EmptyString => []
  | _ => strsplit_nl (S (String.length text)) text
  end.

End CStr.

(* ================================================================== *)
(** ** GLib error objects *)

Module GLib.

(** A quark is an interned string: two quarks are equal exactly when the
    strings they were made from are. *)
Definition GQuark := string.
Definition g_quark_from_static_string (s : string) : GQuark := s.

Record GError := mkGError { domain : GQuark; code : Z; message : string }.

(** The content of the caller's [GError *] slot that a [GError **] points
    to: [None] is a [NULL] slot, no error so far. *)
Definition errslot := option GError.

(** Storing an error the way GLib does it, also inside its own functions:
    a slot that already holds an error keeps it (GLib logs a warning and
    drops the new one). *)
Definition g_propagate (error : errslot) (e : GError) : errslot :=
  match error with
  | None => Some e
  | Some _ => error
  end.

Definition g_set_error (error : errslot) (d : GQuark) (c : Z) (msg : string)
  : errslot :=
  g_propagate error (mkGError d c msg).

Definition g_prefix_error (error : errslot) (pre : string) : errslot :=
  match error with
  | Some e => Some (mkGError (domain e) (code e) (pre ++ message e))
  | None => None
  end.

Definition g_clear_error (error : errslot) : errslot := None.

Definition g_error_matches (error : errslot) (d : GQuark) (c : Z) : bool :=
  match error with
  | Some e => String.eqb (domain e) d && Z.eqb (code e) c
  | None => false
  end.

(** What a GLib call that reports through a [GError **] came back with:
    fine, or failed with the error it stored. *)
Inductive gresult : Type :=
| GOk
| GFail (e : GError).

End GLib.
Import GLib.

(* ================================================================== *)
(** ** The regular-expression fragment of the Set UUID pattern *)

(** [g_regex_new] / [g_regex_match] / [g_match_info_fetch] are GLib's front
    end to PCRE.  The plugin compiles one constant pattern,
    [Set UUID:\s+([-a-z0-9]+)]; the fragment below has what that pattern is
    made of (literal characters, a greedy [+] over a character class, and the
    same inside capture group 1), matched the way PCRE matches: leftmost start
    first, each [+] taking as much as it can and giving characters back one at
    a time when the rest of the pattern fails.  Lines are matched as byte
    strings; the tool's output is ASCII. *)
Module Regex.

Inductive item : Type :=
| Lit (c : ascii)
| Plus (cls : ascii -> bool)
| Group1 (cls : ascii -> bool).

Definition regex := list item.

(** [cls+] at the front of [s], then [k] on what was taken and what is left;
    longer runs are tried first. *)
Fixpoint plus_run (cls : ascii -> bool) (s : string)
  (k : string -> string -> option string) : option string :=
  match s with
  | EmptyString => None
  | String a s' =>
      if cls a then
        match plus_run cls s' (fun m rest => k (String a m) rest) with
        | Some r => Some r
        | None => k (String a EmptyString) s'
        end
      else None
  end.

(** The pattern anchored at the front of [s]; [g1] is the text of group 1 so
    far, and the result on a match. *)
Fixpoint match_here (r : regex) (s : string) (g1 : string) : option string :=
  match r with
  | [] => Some g1
  | Lit c :: r' =>
      match s with
      | String a s' => if Ascii.eqb a c then match_here r' s' g1 else None
      | EmptyString => None
      end
  | Plus cls :: r' => plus_run cls s (fun _ rest => match_here r' rest g1)
  | Group1 cls :: r' => plus_run cls s (fun m rest => match_here r' rest m)
  end.

(** [g_regex_match] followed by [g_match_info_fetch (match_info, 1)]: the
    first start offset at which the pattern matches, and group 1 there. *)
Fixpoint g_regex_match (r : regex) (s : string) : option string :=
  match match_here r s EmptyString with
  | Some g => Some g
  | None =>
      match s with
      | String _ s' => g_regex_match r s'
      | EmptyString => None
      end
  end.

(** [\s]: HT, LF, VT, FF, CR and space (PCRE counts VT in since 8.34). *)
Definition is_space (c : ascii) : bool :=
  let n := nat_of_ascii c in
  (Nat.leb 9 n && Nat.leb n 13) || Nat.eqb n 32.

(** [[-a-z0-9]]. *)
Definition is_uuid_char (c : ascii) : bool :=
  let n := nat_of_ascii c in
  Nat.eqb n 45 || (Nat.leb 97 n && Nat.leb n 122) || (Nat.leb 48 n && Nat.leb n 57).

Definition literal (s : string) : regex := map Lit (list_ascii_of_string s).

(** ["Set UUID:\\s+([-a-z0-9]+)"] *)
Definition SET_UUID_RE : regex :=
  (literal "Set UUID:" ++ [Plus is_space; Group1 is_uuid_char])%list.

End Regex.

(* ================================================================== *)
(** ** Calls that leave the process *)

Module Sys.

(** Modelled from the spec: [bd_utils_exec_and_capture_output] lives in the
    library's utils, which are not part of the sources at hand.  The spec
    treats it as the one service that runs an external command, captures its
    standard output and reports success or failure; a failure comes with the
    error the service stored. *)
Inductive exec_result : Type :=
| ExecOk (output : string)
| ExecFail (e : GError).

(** [glob (3)] returns 0 with at least one path in [gl_pathv], or one of its
    three error codes. *)
Inductive glob_result : Type :=
| GlobMatches (first : string) (others : list string)
| GLOB_NOSPACE
| GLOB_ABORTED
| GLOB_NOMATCH.

Inductive readlink_result : Type :=
| LinkTarget (target : string)
| LinkFail (e : GError).

(** One constructor per external function kbd.c calls, indexed by the type of
    what the call hands back.  A kmod module handle is named by the module it
    stands for and a [GIOChannel] by the path it was opened on; the calls that
    only release memory or handles ([g_free], [kmod_unref], [globfree], ...)
    hand nothing back and are left out.  The channels are blocking files:
    a channel call comes back with [G_IO_STATUS_NORMAL], or with
    [G_IO_STATUS_ERROR] and the error stored, which is what [gresult] says. *)
Inductive sysE : Type -> Type :=
| kmod_new : sysE bool
| kmod_set_log_priority (priority : Z) : sysE unit
| kmod_module_new_from_name (name : string) : sysE Z
| kmod_module_get_path (name : string) : sysE (option string)
| kmod_module_insert_module (name : string) (flags : Z) (options : string)
  : sysE Z
| kmod_module_new_from_loaded : sysE (Z * list string)
| kmod_module_remove_module (name : string) (flags : Z) : sysE Z
| g_io_channel_new_file (path mode : string) : sysE gresult
| g_io_channel_write_chars (path str : string) : sysE gresult
| g_io_channel_shutdown (path : string) (flush : bool) : sysE gresult
| bd_utils_exec_and_capture_output (argv : list string) : sysE exec_result
| glob (pattern : string) (flags : Z) : sysE glob_result
| access (path : string) (mode : Z) : sysE Z
| g_file_read_link (path : string) : sysE readlink_result.

(** Programs: a result, a call followed by the rest of the program, or
    behaviour C leaves undefined. *)
Inductive Prog (A : Type) : Type :=
| Ret (a : A)
| Call {X : Type} (e : sysE X) (k : X -> Prog A)
| Undef.

Arguments Ret {A} a.
Arguments Call {A X} e k.
Arguments Undef {A}.

Fixpoint bind {A B : Type} (p : Prog A) (f : A -> Prog B) : Prog B :=
  match p with
  | Ret a => f a
  | Call e k => Call e (fun x => bind (k x) f)
  | Undef => Undef
  end.

Definition call {X : Type} (e : sysE X) : Prog X := Call e Ret.

(** A call that was made, with its answer. *)
Record entry : Type := Called { ety : Type; ecall : sysE ety; eanswer : ety }.
Arguments Called {ety} ecall eanswer.

Definition trace := list entry.

(** The world outside: it answers every call, and may take everything that
    happened before into account. *)
Definition env := forall X : Type, trace -> sysE X -> X.

(** [run w p past]: the result of [p] in the world [w] after the calls [past]
    ([None] when [p] runs into undefined behaviour), and the calls [p] made. *)
Fixpoint run {A : Type} (w : env) (p : Prog A) (past : trace)
  : option A * trace :=
  match p with
  | Ret a => (Some a, [])
  | Call e k =>
      let x := w _ past e in
      let '(r, t) := run w (k x) (past ++ [Called e x])%list in
      (r, Called e x :: t)
  | Undef => (None, [])
  end.

(** The sysfs file a channel call works on. *)
Definition channel_path (c : entry) : option string :=
  match ecall c with
  | g_io_channel_new_file path _ => Some path
  | g_io_channel_write_chars path _ => Some path
  | g_io_channel_shutdown path _ => Some path
  | _ => None
  end.


Definition is_channel_call (c : entry) : bool :=
  match channel_path c with
  | Some _ => true
  | None => false
  end.

(** The error a channel call failed with, if it failed. *)
Definition channel_failure (c : entry) : option GError :=
  let failure (r : gresult) :=
    match r with
    | GFail e => Some e
    | GOk => None
    end in
  match c with
  | Called e a =>
      match e in sysE X return X -> option GError with
      | g_io_channel_new_file _ _ => failure
      | g_io_channel_write_chars _ _ => failure
      | g_io_channel_shutdown _ _ => failure
      | _ => fun _ => None
      end a
  end.

(** What a call of [glob] came back with. *)
Definition glob_answer (c : entry) : option glob_result :=
  match c with
  | Called e a =>
      match e in sysE X return X -> option glob_result with
      | glob _ _ => fun g => Some g
      | _ => fun _ => None
      end a
  end.

(** The three calls of a write to a sysfs file that went through. *)
Definition written (str path : string) : trace :=
  [ Called (g_io_channel_new_file path "w") GOk;
    Called (g_io_channel_write_chars path str) GOk;
    Called (g_io_channel_shutdown path true) GOk ].

End Sys.
Import Sys.

Declare Scope prog_scope.
Delimit Scope prog_scope with prog.
Notation "x <- p ;; q" := (bind p (fun x => q))
  (at level 61, p at next level, right associativity) : prog_scope.
Notation "' pat <- p ;; q" := (bind p (fun x => match x with pat => q end))
  (at level 61, pat pattern, p at next level, right associativity) : prog_scope.

(* ================================================================== *)
(** ** kbd.c *)

Module Kbd.
Import CStr Regex.
Local Open Scope prog_scope.

(** Numbers of type [guint64] are taken in [N]: the code does no arithmetic
    on them but [i++] on a counter that stays below [num_devices], so nothing
    wraps around.  Arrays are lists, and reading behind the end of one is
    undefined. *)

(** The enumerators of [BDKbdError] that kbd.c uses.  They are declared in
    kbd.h, which is not among the sources at hand. *)
Inductive BDKbdError : Type :=
| BD_KBD_ERROR_KMOD_INIT_FAIL
| BD_KBD_ERROR_MODULE_FAIL
| BD_KBD_ERROR_MODULE_NOEXIST
| BD_KBD_ERROR_BCACHE_PARSE
| BD_KBD_ERROR_BCACHE_SETUP_FAIL
| BD_KBD_ERROR_BCACHE_UUID
| BD_KBD_ERROR_BCACHE_NOT_ATTACHED
| BD_KBD_ERROR_BCACHE_DETACH_FAIL.

(** What the build takes from outside this file: the integer value kbd.h
    gives each enumerator (distinct enumerators of one C enum have distinct
    values unless the header says otherwise) and libc's [strerror]. *)
Class Externals : Type := {
  kbd_code : BDKbdError -> Z;
  kbd_code_inj : forall a b, kbd_code a = kbd_code b -> a = b;
  strerror : Z -> string
}.

(** Values of <syslog.h>, <glob.h> and <unistd.h> on Linux/glibc. *)
Definition LOG_CRIT : Z := 2.
Definition GLOB_NOSORT : Z := 4.
Definition R_OK : Z := 4.

(** [bd_kbd_error_quark] *)
Definition bd_kbd_error_quark : GQuark :=
  g_quark_from_static_string "g-bd-kbd-error-quark".

Definition BD_KBD_ERROR : GQuark := bd_kbd_error_quark.

(** The loop of [unload_kernel_module] over the list of loaded modules: the
    handle of the first module whose name is [module_name]. *)
Fixpoint find_loaded (cur : list string) (module_name : string)
  : option string :=
  match cur with
  | [] => None
  | name :: next =>
      if String.eqb name module_name then Some name
      else find_loaded next module_name
  end.

(** The loop of [bd_kbd_bcache_create] over the lines of the tool's output:
    it stops at the first line the pattern matches and keeps group 1. *)
Fixpoint scan_lines (regex : Regex.regex) (lines : list string)
  : option string :=
  match lines with
  | [] => None
  | line :: lines' =>
      match g_regex_match regex line with
      | Some set_uuid => Some set_uuid
      | None => scan_lines regex lines'
      end
  end.

(** Lines 293-312 of [bd_kbd_bcache_create]: split, compile, scan.  The
    pattern is a constant that compiles, so the exit behind [g_regex_new] is
    never taken. *)
Definition parse_set_uuid (output : string) : option string :=
  scan_lines SET_UUID_RE (g_strsplit_nl output).

(** The loop [for (i=0; i < 2 && dev_name; i++)] of [bd_kbd_bcache_create]:
    each round moves to just behind the next '/', or to [NULL] when there is
    none. *)
Fixpoint skip_slashes (rounds : nat) (dev_name : option string)
  : option string :=
  match rounds, dev_name with
  | S rounds', Some s =>
      skip_slashes rounds'
        (match strchr s "/"%char with
         | Some p => Some (ptr_add p 1)
         | None => None
         end)
  | _, _ => dev_name
  end.

(** Lines 350-362: the name handed to [bd_kbd_bcache_attach].
    [NameNull] is the [!dev_name] exit; [NameNoEnd] is [g_strndup] called with
    the difference of [NULL] and [dev_name] for a length (also taken when
    [path] is empty and [path + 1] is past its terminator). *)
Inductive name_result : Type :=
| NameIs (dev_name : string)
| NameNull
| NameNoEnd.

Definition glob_dev_name (path : string) : name_result :=
  match path with
  | EmptyString => NameNoEnd
  | String _ after_first =>
      match skip_slashes 2 (Some after_first) with
      | None => NameNull
      | Some dev_name =>
          match strchr dev_name "/"%char with
          | None => NameNoEnd
          | Some dev_name_end =>
              NameIs (g_strndup dev_name
                        (Z.to_nat (ptr_diff dev_name_end dev_name)))
          end
      end
  end.

(** [if (g_str_has_prefix (bcache_device, "/dev/")) bcache_device += 5;] *)
Definition skip_dev_prefix (bcache_device : string) : string :=
  if g_str_has_prefix bcache_device "/dev/" then ptr_add bcache_device 5
  else bcache_device.

(** An out-parameter [gchar **]: [None] when the caller passed [NULL],
    otherwise the content of the caller's variable. *)
Definition outparam := option (option string).

Definition store (slot : outparam) (v : string) : outparam :=
  match slot with
  | Some _ => Some (Some v)
  | None => None
  end.

Section WithExternals.
Context {ext : Externals}.

Definition load_kernel_module (module_name options : string) (error : errslot)
  : Prog (bool * errslot) :=
  ctx <- call kmod_new ;;
  if negb ctx then
    Ret (false, g_set_error error BD_KBD_ERROR
                  (kbd_code BD_KBD_ERROR_KMOD_INIT_FAIL)
                  "Failed to initialize kmod context")
  else
  _ <- call (kmod_set_log_priority LOG_CRIT) ;;
  ret <- call (kmod_module_new_from_name module_name) ;;
  if (ret <? 0)%Z then
    Ret (false, g_set_error error BD_KBD_ERROR
                  (kbd_code BD_KBD_ERROR_MODULE_FAIL)
                  ("Failed to get the module: " ++ strerror (- ret)))
  else
  path <- call (kmod_module_get_path module_name) ;;
  match path with
  | None =>
      Ret (false, g_set_error error BD_KBD_ERROR
                    (kbd_code BD_KBD_ERROR_MODULE_NOEXIST)
                    ("Module '" ++ module_name ++ "' doesn't exist"))
  | Some _ =>
      ret <- call (kmod_module_insert_module module_name 0 options) ;;
      if (ret <? 0)%Z then
        Ret (false, g_set_error error BD_KBD_ERROR
                      (kbd_code BD_KBD_ERROR_MODULE_FAIL)
                      ("Failed to load the module '" ++ module_name
                       ++ "' with options '" ++ options ++ "': "
                       ++ strerror (- ret)))
      else Ret (true, error)
  end.

Definition unload_kernel_module (module_name : string) (error : errslot)
  : Prog (bool * errslot) :=
  ctx <- call kmod_new ;;
  if negb ctx then
    Ret (false, g_set_error error BD_KBD_ERROR
                  (kbd_code BD_KBD_ERROR_KMOD_INIT_FAIL)
                  "Failed to initialize kmod context")
  else
  _ <- call (kmod_set_log_priority LOG_CRIT) ;;
  '(ret, list) <- call kmod_module_new_from_loaded ;;
  if (ret <? 0)%Z then
    Ret (false, g_set_error error BD_KBD_ERROR
                  (kbd_code BD_KBD_ERROR_MODULE_FAIL)
                  ("Failed to get the module: " ++ strerror (- ret)))
  else
  match find_loaded list module_name with
  | None =>
      Ret (false, g_set_error error BD_KBD_ERROR
                    (kbd_code BD_KBD_ERROR_MODULE_NOEXIST)
                    ("Module '" ++ module_name ++ "' is not loaded"))
  | Some kmod =>
      ret <- call (kmod_module_remove_module kmod 0) ;;
      if (ret <? 0)%Z then
        Ret (false, g_set_error error BD_KBD_ERROR
                      (kbd_code BD_KBD_ERROR_MODULE_FAIL)
                      ("Failed to unload the module '" ++ module_name
                       ++ "': " ++ strerror (- ret)))
      else Ret (true, error)
  end.

(** [!out_file || g_io_channel_write_chars (...) != G_IO_STATUS_NORMAL]: the
    write is only tried on a file that was opened, and both failures take the
    same branch. *)
Definition echo_str_to_file (str file_path : string) (error : errslot)
  : Prog (bool * errslot) :=
  let write_failed e :=
    Ret (false, g_prefix_error (g_propagate error e)
                  ("Failed to write '" ++ str ++ "' to file '" ++ file_path
                   ++ "': ")) in
  out_file <- call (g_io_channel_new_file file_path "w") ;;
  match out_file with
  | GFail e => write_failed e
  | GOk =>
      status <- call (g_io_channel_write_chars file_path str) ;;
      match status with
      | GFail e => write_failed e
      | GOk =>
          status <- call (g_io_channel_shutdown file_path true) ;;
          match status with
          | GFail e =>
              Ret (false, g_prefix_error (g_propagate error e)
                            ("Failed to flush and close the file '"
                             ++ file_path ++ "': "))
          | GOk => Ret (true, error)
          end
      end
  end.

(** [for (i=0; i < num_devices; i++)] over [nstreams], lines 216-227; [todo]
    counts the rounds that are left.  Reading an array behind its end is
    undefined. *)
Fixpoint set_comp_streams (todo : nat) (i : N) (nstreams : list N)
  (error : errslot) : Prog (bool * errslot) :=
  match todo with
  | O => Ret (true, error)
  | S todo' =>
      let file_name :=
        "/sys/block/zram" ++ fmt_u64 i ++ "/max_comp_streams" in
      match nth_error nstreams (N.to_nat i) with
      | None => Undef
      | Some n =>
          let num_str := fmt_u64 n in
          '(success, error) <- echo_str_to_file num_str file_name error ;;
          if negb success then
            Ret (false, g_prefix_error error
                          ("Failed to set number of compression streams for '/dev/zram"
                           ++ fmt_u64 i ++ "': "))
          else set_comp_streams todo' (i + 1)%N nstreams error
      end
  end.

(** [for (i=0; i < num_devices; i++)] over [sizes], lines 230-241. *)
Fixpoint set_disksizes (todo : nat) (i : N) (sizes : list N)
  (error : errslot) : Prog (bool * errslot) :=
  match todo with
  | O => Ret (true, error)
  | S todo' =>
      let file_name := "/sys/block/zram" ++ fmt_u64 i ++ "/disksize" in
      match nth_error sizes (N.to_nat i) with
      | None => Undef
      | Some n =>
          let num_str := fmt_u64 n in
          '(success, error) <- echo_str_to_file num_str file_name error ;;
          if negb success then
            Ret (false, g_prefix_error error
                          ("Failed to set size for '/dev/zram"
                           ++ fmt_u64 i ++ "': "))
          else set_disksizes todo' (i + 1)%N sizes error
      end
  end.

(** Lines 213-243 of [bd_kbd_zram_create_devices], reached once the module is
    loaded. *)
Definition zram_activate (num_devices : N) (sizes : list N)
  (nstreams : option (list N)) (error : errslot) : Prog (bool * errslot) :=
  '(success, error) <-
    match nstreams with
    | Some nstreams =>
        set_comp_streams (N.to_nat num_devices) 0 nstreams error
    | None => Ret (true, error)
    end ;;
  if negb success then Ret (false, error)
  else set_disksizes (N.to_nat num_devices) 0 sizes error.

Definition bd_kbd_zram_create_devices (num_devices : N) (sizes : list N)
  (nstreams : option (list N)) (error : errslot) : Prog (bool * errslot) :=
  let opts := "num_devices=" ++ fmt_u64 num_devices in
  '(success, error) <- load_kernel_module "zram" opts error ;;
  if negb success
     && g_error_matches error BD_KBD_ERROR (kbd_code BD_KBD_ERROR_MODULE_FAIL)
  then
    let error := g_clear_error error in
    '(success, error) <- unload_kernel_module "zram" error ;;
    if negb success then
      Ret (false, g_prefix_error error "zram module already loaded: ")
    else
    '(success, error) <- load_kernel_module "zram" opts error ;;
    if negb success then Ret (false, error)
    else zram_activate num_devices sizes nstreams error
  else
  if negb success then Ret (false, error)
  else zram_activate num_devices sizes nstreams error.

Definition bd_kbd_zram_destroy_devices (error : errslot)
  : Prog (bool * errslot) :=
  unload_kernel_module "zram" error.

Definition bd_kbd_bcache_attach (c_set_uuid bcache_device : string)
  (error : errslot) : Prog (bool * errslot) :=
  let bcache_device := skip_dev_prefix bcache_device in
  let path := "/sys/block/" ++ bcache_device ++ "/bcache/attach" in
  echo_str_to_file c_set_uuid path error.

Definition bd_kbd_bcache_create (backing_device cache_device : string)
  (bcache_device : outparam) (error : errslot)
  : Prog (bool * outparam * errslot) :=
  let argv := ["make-bcache"; "-B"; backing_device; "-C"; cache_device] in
  r <- call (bd_utils_exec_and_capture_output argv) ;;
  match r with
  | ExecFail e => Ret (false, bcache_device, g_propagate error e)
  | ExecOk output =>
  match parse_set_uuid output with
  | None =>
      Ret (false, bcache_device,
           g_set_error error BD_KBD_ERROR (kbd_code BD_KBD_ERROR_BCACHE_PARSE)
             ("Failed to determine Set UUID from: " ++ output))
  | Some set_uuid =>
  match strrchr backing_device "/"%char with
  | None => Ret (false, bcache_device, error)
  | Some dev_name =>
  let dev_name := ptr_add dev_name 1 in
  '(success, error) <-
    echo_str_to_file backing_device "/sys/fs/bcache/register" error ;;
  if negb success then Ret (false, bcache_device, error)
  else
  let pattern := "/sys/block/*/slaves/" ++ dev_name in
  g <- call (glob pattern GLOB_NOSORT) ;;
  match g with
  | GLOB_NOSPACE | GLOB_ABORTED | GLOB_NOMATCH =>
      Ret (false, bcache_device,
           g_set_error error BD_KBD_ERROR
             (kbd_code BD_KBD_ERROR_BCACHE_SETUP_FAIL)
             ("Failed to determine bcache device name for '" ++ dev_name
              ++ "'"))
  | GlobMatches path _ =>
  match glob_dev_name path with
  | NameNull => Ret (false, bcache_device, error)
  | NameNoEnd => Undef
  | NameIs dev_name =>
  '(success, error) <- bd_kbd_bcache_attach set_uuid dev_name error ;;
  if negb success then
    Ret (false, bcache_device,
         g_prefix_error error
           "Failed to attach the cache to the backing device: ")
  else Ret (true, store bcache_device dev_name, error)
  end end end end end.

Definition bd_kbd_bcache_detach (bcache_device : string)
  (c_set_uuid : outparam) (error : errslot)
  : Prog (bool * outparam * errslot) :=
  let bcache_device := skip_dev_prefix bcache_device in
  let path := "/sys/block/" ++ bcache_device ++ "/bcache/cache" in
  rc <- call (access path R_OK) ;;
  if negb (rc =? 0)%Z then
    Ret (false, c_set_uuid,
         g_set_error error BD_KBD_ERROR
           (kbd_code BD_KBD_ERROR_BCACHE_NOT_ATTACHED)
           ("No cache attached to '" ++ bcache_device ++ "' or '"
            ++ bcache_device ++ "' not set up"))
  else
  link <- call (g_file_read_link path) ;;
  match link with
  | LinkFail e =>
      Ret (false, c_set_uuid,
           g_prefix_error (g_propagate error e)
             ("Failed to determine cache set UUID for '" ++ bcache_device
              ++ "'"))
  | LinkTarget link =>
  match strrchr link "/"%char with
  | None =>
      Ret (false, c_set_uuid,
           g_set_error error BD_KBD_ERROR (kbd_code BD_KBD_ERROR_BCACHE_UUID)
             ("Failed to determine cache set UUID for '" ++ bcache_device
              ++ "'"))
  | Some uuid =>
  let uuid := ptr_add uuid 1 in
  let path := "/sys/block/" ++ bcache_device ++ "/bcache/detach" in
  '(success, error) <- echo_str_to_file uuid path error ;;
  if negb success then
    Ret (false, c_set_uuid,
         g_set_error error BD_KBD_ERROR
           (kbd_code BD_KBD_ERROR_BCACHE_DETACH_FAIL)
           ("Failed to detach '" ++ uuid ++ "' from '" ++ bcache_device
            ++ "'"))
  else Ret (true, store c_set_uuid uuid, error)
  end end.

Definition bd_kbd_bcache_destroy (bcache_device : string) (error : errslot)
  : Prog (bool * errslot) :=
  let bcache_device := skip_dev_prefix bcache_device in
  '(success, c_set_uuid, error) <-
    bd_kbd_bcache_detach bcache_device (Some None) error ;;
  if negb success then Ret (false, error)
  else
  match c_set_uuid with
  | Some (Some c_set_uuid) =>
      let path := "/sys/fs/bcache/" ++ c_set_uuid ++ "/stop" in
      '(success, error) <- echo_str_to_file "1" path error ;;
      if negb success then
        Ret (false, g_prefix_error error "Failed to stop the cache set: ")
      else
      let path := "/sys/block/" ++ bcache_device ++ "/bcache/stop" in
      '(success, error) <- echo_str_to_file "1" path error ;;
      if negb success then
        Ret (false, g_prefix_error error "Failed to stop the bcache: ")
      else Ret (true, error)
  | _ => Undef
  end.

End WithExternals.

End Kbd.
Import Kbd.

(* ================================================================== *)
(** ** Vocabulary of the statements *)

Module Spec.
Import CStr Regex.


Definition no_slash (s : string) : Prop :=
  ~ In "/"%char (list_ascii_of_string s).






(** The '/'-delimited components of a path; an absolute path has the empty
    component in front of its leading '/'. *)
Fixpoint components (path : string) : list string :=
  match path with
  | EmptyString => [EmptyString]
  | String a path' =>
      if Ascii.eqb a "/" then EmptyString :: components path'
      else
        match components path' with
        | c :: cs => String a c :: cs
        | [] => [String a EmptyString]
        end
  end.


Definition max_comp_streams_file (i : N) : string :=
  "/sys/block/zram" ++ fmt_u64 i ++ "/max_comp_streams".

Definition disksize_file (i : N) : string :=
  "/sys/block/zram" ++ fmt_u64 i ++ "/disksize".

Definition streams_call (c : entry) : Prop :=
  exists i, channel_path c = Some (max_comp_streams_file i).

Definition disksize_call (c : entry) : Prop :=
  exists i, channel_path c = Some (disksize_file i).

(** The calls of the first [done] rounds of a loop that writes [values] to
    the files [file i], [file (i + 1)], ..., when every round went through. *)
Fixpoint rounds_written (file : N -> string) (done : nat) (i : N)
  (values : list N) : trace :=
  match done with
  | O => []
  | S done' =>
      match nth_error values (N.to_nat i) with
      | Some v =>
          (written (fmt_u64 v) (file i)
           ++ rounds_written file done' (i + 1)%N values)%list
      | None => []
      end
  end.

(** A stretch of calls none of which touches a file. *)
Definition quiet (t : trace) : Prop :=
  forall c, In c t -> is_channel_call c = false.

Fixpoint last_char (s : string) : option ascii :=
  match s with
  | EmptyString => None
  | String c EmptyString => Some c
  | String _ s' => last_char s'
  end.

(** How a write to a sysfs file can go: through, or stopped by the first of
    its three calls that fails, with the error of that call under a prefix
    that says what was being done. *)
Inductive echo_outcome (str path : string) (error : errslot)
  : bool -> errslot -> trace -> Prop :=
| echo_done :
    echo_outcome str path error true error (written str path)
| echo_open_failed (e : GError) :
    echo_outcome str path error false
      (g_prefix_error (g_propagate error e)
         ("Failed to write '" ++ str ++ "' to file '" ++ path ++ "': "))
      [ Called (g_io_channel_new_file path "w") (GFail e) ]
| echo_write_failed (e : GError) :
    echo_outcome str path error false
      (g_prefix_error (g_propagate error e)
         ("Failed to write '" ++ str ++ "' to file '" ++ path ++ "': "))
      [ Called (g_io_channel_new_file path "w") GOk;
        Called (g_io_channel_write_chars path str) (GFail e) ]
| echo_close_failed (e : GError) :
    echo_outcome str path error false
      (g_prefix_error (g_propagate error e)
         ("Failed to flush and close the file '" ++ path ++ "': "))
      [ Called (g_io_channel_new_file path "w") GOk;
        Called (g_io_channel_write_chars path str) GOk;
        Called (g_io_channel_shutdown path true) (GFail e) ].

(** *** Words for what runs do and leave undone *)

(** A stretch of calls in which no channel call failed. *)
Definition clean (t : trace) : Prop :=
  forall c, In c t -> channel_failure c = None.

(** A failed channel call, if there is one, is the last call. *)
Definition stops_at_failure (t : trace) : Prop :=
  forall t1 c t2,
    t = (t1 ++ c :: t2)%list -> channel_failure c <> None -> t2 = [].

(** The calls that write [values] to the files [file 0], ..., [file (n - 1)],
    one after the other, all of them going through. *)
Definition all_written (file : N -> string) (n : nat) (values : list N)
  : trace :=
  flat_map
    (fun k => written (fmt_u64 (nth k values 0%N)) (file (N.of_nat k)))
    (seq 0 n).

(** An insertion of a module: name, flags, options, and what came back. *)
Definition insert_call (c : entry) : option (string * Z * string * Z) :=
  match c with
  | Called e a =>
      match e in sysE X return X -> option (string * Z * string * Z) with
      | kmod_module_insert_module name flags options =>
          fun ret => Some (name, flags, options, ret)
      | _ => fun _ => None
      end a
  end.

(** A removal of a module: name and flags. *)
Definition remove_call (c : entry) : option (string * Z) :=
  match ecall c with
  | kmod_module_remove_module name flags => Some (name, flags)
  | _ => None
  end.

(** What the list of loaded modules was asked for came back with. *)
Definition loaded_answer (c : entry) : option (Z * list string) :=
  match c with
  | Called e a =>
      match e in sysE X return X -> option (Z * list string) with
      | kmod_module_new_from_loaded => fun r => Some r
      | _ => fun _ => None
      end a
  end.

(** How many module insertions, and removals, a stretch of calls holds. *)
Definition inserts_in (t : trace) : nat :=
  List.length
    (filter (fun c => match insert_call c with
                      | Some _ => true
                      | None => false
                      end) t).

Definition removes_in (t : trace) : nat :=
  List.length
    (filter (fun c => match remove_call c with
                      | Some _ => true
                      | None => false
                      end) t).


(** *** Where an error comes from *)

(** The error a call to the outside failed with: a channel call, the tool,
    or the reading of a link. *)
Definition outside_failure (c : entry) : option GError :=
  match c with
  | Called e a =>
      match e in sysE X return X -> option GError with
      | g_io_channel_new_file _ _
      | g_io_channel_write_chars _ _
      | g_io_channel_shutdown _ _ =>
          fun r => match r with
                   | GFail e0 => Some e0
                   | GOk => None
                   end
      | bd_utils_exec_and_capture_output _ =>
          fun r => match r with
                   | ExecFail e0 => Some e0
                   | ExecOk _ => None
                   end
      | g_file_read_link _ =>
          fun r => match r with
                   | LinkFail e0 => Some e0
                   | LinkTarget _ => None
                   end
      | _ => fun _ => None
      end a
  end.

(** [e] is the error of a failed call of the run, domain and code as they
    came, with words put in front of its message at most. *)
Definition passed_on (e : GError) (t : trace) : Prop :=
  exists c e0 pre,
    In c t /\ outside_failure c = Some e0
    /\ e = mkGError (domain e0) (code e0) (pre ++ message e0).

(** [e] is an error of this plugin with one of the given codes. *)
Definition own_error {ext : Externals} (codes : list BDKbdError) (e : GError)
  : Prop :=
  domain e = BD_KBD_ERROR /\ exists k, In k codes /\ code e = kbd_code k.


(** A result and its calls, the content of the out-parameter left aside. *)
Definition without_slot {A : Type} (r : option (bool * A * errslot) * trace)
  : option (bool * errslot) * trace :=
  (match fst r with
   | Some (ok, _, error) => Some (ok, error)
   | None => None
   end,
   snd r).

End Spec.
Import Spec.

(* ================================================================== *)
(** ** Worlds to run the plugin in *)

Module Fixtures.

(** The enumerators numbered in the order listed above, and a two-line
    [strerror]. *)
Definition kbd_h : Externals := {|
  kbd_code := fun k =>
    match k with
    | BD_KBD_ERROR_KMOD_INIT_FAIL => 0
    | BD_KBD_ERROR_MODULE_FAIL => 1
    | BD_KBD_ERROR_MODULE_NOEXIST => 2
    | BD_KBD_ERROR_BCACHE_PARSE => 3
    | BD_KBD_ERROR_BCACHE_SETUP_FAIL => 4
    | BD_KBD_ERROR_BCACHE_UUID => 5
    | BD_KBD_ERROR_BCACHE_NOT_ATTACHED => 6
    | BD_KBD_ERROR_BCACHE_DETACH_FAIL => 7
    end%Z;
  kbd_code_inj := ltac:(intros [] []; simpl; intro H;
                        first [reflexivity | discriminate H]);
  strerror := fun errnum =>
    if (errnum =? 17)%Z then "File exists" else "Operation not permitted"
|}.

(** The error GLib stores when a write to a channel comes back with [EIO]. *)
Definition io_error : GError :=
  mkGError "g-io-channel-error-quark" 2 "Input/output error".

Definition is_insert (c : entry) : bool :=
  match ecall c with
  | kmod_module_insert_module _ _ _ => true
  | _ => false
  end.

(** What the outside answers in a test: the results of successive module
    insertions, the loaded modules, the result of a removal, the one sysfs
    file (if any) that refuses writes, the tool's result, the glob's, and the
    state of the [bcache/cache] link. *)
Record scenario : Type := {
  inserts : list Z;
  loaded : list string;
  removal : Z;
  broken_file : option string;
  tool : exec_result;
  globbed : glob_result;
  readable : Z;
  link : readlink_result
}.

Definition world (sc : scenario) : env :=
  fun X past e =>
    match e in sysE X return X with
    | kmod_new => true
    | kmod_set_log_priority _ => tt
    | kmod_module_new_from_name _ => 0%Z
    | kmod_module_get_path name => Some ("/lib/modules/" ++ name ++ ".ko")
    | kmod_module_insert_module _ _ _ =>
        nth (List.length (filter is_insert past)) (inserts sc) 0%Z
    | kmod_module_new_from_loaded => (0%Z, loaded sc)
    | kmod_module_remove_module _ _ => removal sc
    | g_io_channel_new_file _ _ => GOk
    | g_io_channel_write_chars path _ =>
        match broken_file sc with
        | Some bad => if String.eqb path bad then GFail io_error else GOk
        | None => GOk
        end
    | g_io_channel_shutdown _ _ => GOk
    | bd_utils_exec_and_capture_output _ => tool sc
    | glob _ _ => globbed sc
    | access _ _ => readable sc
    | g_file_read_link _ => link sc
    end.

(** A machine on which everything works: zram is not loaded yet, make-bcache
    prints a cache set, the backing device shows up under [bcache0], and
    [bcache0] has the cache set [abcd] attached. *)
Definition healthy : scenario := {|
  inserts := [];
  loaded := ["loop"; "zram"];
  removal := 0;
  broken_file := None;
  tool := ExecOk
    ("UUID:" ++ String "009" "7f3b1c" ++ String "010"
     ("Set UUID:" ++ String "009" (String "009" "1234-deadbeef")
      ++ String "010" "version: 0" ++ String "010" ""));
  globbed := GlobMatches "/sys/block/bcache0/slaves/sdb1"
               ["/sys/block/bcache1/slaves/sdb1"];
  readable := 0;
  link := LinkTarget "../../../../fs/bcache/abcd"
|}.

Definition with_inserts (l : list Z) (sc : scenario) : scenario :=
  {| inserts := l; loaded := loaded sc; removal := removal sc;
     broken_file := broken_file sc; tool := tool sc; globbed := globbed sc;
     readable := readable sc; link := link sc |}.

Definition with_removal (r : Z) (sc : scenario) : scenario :=
  {| inserts := inserts sc; loaded := loaded sc; removal := r;
     broken_file := broken_file sc; tool := tool sc; globbed := globbed sc;
     readable := readable sc; link := link sc |}.

Definition with_broken_file (path : string) (sc : scenario) : scenario :=
  {| inserts := inserts sc; loaded := loaded sc; removal := removal sc;
     broken_file := Some path; tool := tool sc; globbed := globbed sc;
     readable := readable sc; link := link sc |}.



(** zram is loaded already, with other options: the first insertion comes
    back with [-EEXIST], the next one works. *)
Definition stale_zram : scenario := with_inserts [-17; 0]%Z healthy.

(** The same, and the module cannot be removed ([-EPERM]). *)
Definition stuck_zram : scenario := with_removal (-1) stale_zram.

(** The stream count of the second device cannot be written. *)
Definition no_streams_file : scenario :=
  with_broken_file "/sys/block/zram1/max_comp_streams" healthy.



(** The kernel rejects the write to the detach file. *)
Definition stubborn_detach : scenario :=
  with_broken_file "/sys/block/bcache0/bcache/detach" healthy.


(** The size of the second device cannot be written. *)
Definition no_size_file : scenario :=
  with_broken_file "/sys/block/zram1/disksize" healthy.


End Fixtures.

(* ================================================================== *)
(** * Proofs *)

(** ** Strings *)

Lemma append_assoc (a b c : string) : (a ++ b) ++ c = a ++ b ++ c.
Proof.
  induction a as [|x a IH]; simpl; [reflexivity | now rewrite IH].
Qed.


Lemma append_length (a b : string) :
  String.length (a ++ b) = String.length a + String.length b.
Proof.
  induction a as [|x a IH]; simpl; [reflexivity | now rewrite IH].
Qed.

Lemma append_cancel_l (a b c : string) : a ++ b = a ++ c -> b = c.
Proof.
  induction a as [|x a IH]; simpl; intro H; [exact H|].
  injection H as H. now apply IH.
Qed.

Lemma append_cancel_r (a b c : string) : a ++ c = b ++ c -> a = b.
Proof.
  revert b. induction a as [|x a IH]; intros [|y b] H; simpl in H.
  - reflexivity.
  - apply (f_equal String.length) in H. simpl in H.
    rewrite append_length in H. lia.
  - apply (f_equal String.length) in H. simpl in H.
    rewrite append_length in H. lia.
  - injection H as -> H. f_equal. now apply IH.
Qed.

(** ** Running programs *)

Lemma run_bind {A B : Type} (w : env) (p : Prog A) (f : A -> Prog B) :
  forall past,
    run w (bind p f) past =
    match run w p past with
    | (Some a, t) =>
        let '(r, t') := run w (f a) (past ++ t)%list in (r, (t ++ t')%list)
    | (None, t) => (None, t)
    end.
Proof.
  induction p as [a | X e k IH | ]; intro past; simpl.
  - rewrite app_nil_r. now destruct (run w (f a) past).
  - rewrite IH.
    destruct (run w (k (w X past e)) (past ++ [Called e (w X past e)])%list)
      as [[a|] t]; simpl.
    + rewrite <- app_assoc. simpl.
      now destruct (run w (f a) (past ++ Called e (w X past e) :: t)%list).
    + reflexivity.
  - reflexivity.
Qed.

Lemma run_call_bind {A X : Type} (w : env) (e : sysE X) (f : X -> Prog A) past :
  run w (bind (call e) f) past =
  let x := w X past e in
  let '(r, t) := run w (f x) (past ++ [Called e x])%list in
  (r, Called e x :: t).
Proof. reflexivity. Qed.

Section Facts.
Context {ext : Externals}.

(** ** The sysfs writer *)

Lemma run_echo (w : env) (past : trace) (str path : string) (error : errslot) :
  exists ok err t,
    run w (echo_str_to_file str path error) past = (Some (ok, err), t)
    /\ echo_outcome str path error ok err t.
Proof.
  unfold echo_str_to_file. rewrite run_call_bind. cbv zeta.
  destruct (w gresult past (g_io_channel_new_file path "w")) as [|e1] eqn:E1.
  2:{ simpl. do 3 eexists. split; [reflexivity | constructor]. }
  rewrite run_call_bind. cbv zeta.
  destruct (w gresult _ (g_io_channel_write_chars path str)) as [|e2] eqn:E2.
  2:{ simpl. do 3 eexists. split; [reflexivity | constructor]. }
  rewrite run_call_bind. cbv zeta.
  destruct (w gresult _ (g_io_channel_shutdown path true)) as [|e3] eqn:E3.
  2:{ simpl. do 3 eexists. split; [reflexivity | constructor]. }
  simpl. do 3 eexists. split; [reflexivity | constructor].
Qed.

Lemma propagate_some error e : g_propagate error e <> None.
Proof. now destruct error. Qed.

Lemma prefix_some error pre : error <> None -> g_prefix_error error pre <> None.
Proof. now destruct error. Qed.

Lemma set_error_some error d c msg : g_set_error error d c msg <> None.
Proof. apply propagate_some. Qed.

Lemma echo_failure_error (w : env) str path error past err t :
  run w (echo_str_to_file str path error) past = (Some (false, err), t) ->
  err <> None.
Proof.
  intro R. destruct (run_echo w past str path error) as (ok & e' & t' & R' & O).
  rewrite R in R'. injection R' as <- <- <-.
  inversion O; apply prefix_some, propagate_some.
Qed.

(** ** The Set UUID pattern *)













Lemma prefix_append lit s : String.prefix lit (lit ++ s) = true.
Proof.
  induction lit as [|c lit IH]; simpl; [now destruct s|].
  destruct (Ascii.ascii_dec c c); [exact IH | congruence].
Qed.


Lemma ptr_add_append lit s : CStr.ptr_add (lit ++ s) (String.length lit) = s.
Proof.
  induction lit as [|c lit IH]; simpl; [now destruct s | exact IH].
Qed.









(** ** Splitting the tool's output into lines *)




(** ** The scan over the lines *)



(** ** File names *)

Lemma fmt_u64_inj a b : CStr.fmt_u64 a = CStr.fmt_u64 b -> a = b.
Proof.
  unfold CStr.fmt_u64. intro H.
  assert (NN : forall n, N.to_uint n <> Decimal.Nil).
  { intros [|p]; [discriminate | apply DecimalPos.Unsigned.to_uint_nonnil]. }
  apply (f_equal NilZero.uint_of_string) in H.
  rewrite !NilZero.usu in H by apply NN.
  injection H as H. now apply DecimalN.Unsigned.to_uint_inj.
Qed.

Lemma last_char_append a c s :
  last_char (a ++ String c s) = last_char (String c s).
Proof.
  induction a as [|x a IH]; [reflexivity|].
  change (String x a ++ String c s) with (String x (a ++ String c s)).
  change (last_char (String x (a ++ String c s)))
    with (match a ++ String c s with
          | EmptyString => Some x
          | _ => last_char (a ++ String c s)
          end).
  destruct (a ++ String c s) eqn:E; [|exact IH].
  destruct a; discriminate E.
Qed.

Lemma streams_file_inj i j :
  max_comp_streams_file i = max_comp_streams_file j -> i = j.
Proof.
  unfold max_comp_streams_file. intro H.
  apply append_cancel_l, append_cancel_r in H. now apply fmt_u64_inj.
Qed.

Lemma disksize_file_inj i j : disksize_file i = disksize_file j -> i = j.
Proof.
  unfold disksize_file. intro H.
  apply append_cancel_l, append_cancel_r in H. now apply fmt_u64_inj.
Qed.

Lemma streams_file_not_disksize i j :
  max_comp_streams_file i <> disksize_file j.
Proof.
  unfold max_comp_streams_file, disksize_file. intro H.
  apply append_cancel_l in H. apply (f_equal last_char) in H.
  rewrite !last_char_append in H. discriminate H.
Qed.

(** ** Loops that write one value per device *)

Section Loop.
Variables (file context : N -> string).
Variable loop : nat -> N -> list N -> errslot -> Prog (bool * errslot).
Hypothesis loop_0 : forall i vs e, loop 0 i vs e = Ret (true, e).
Hypothesis loop_S : forall todo i vs e,
  loop (S todo) i vs e =
  match nth_error vs (N.to_nat i) with
  | None => Undef
  | Some n =>
      bind (echo_str_to_file (CStr.fmt_u64 n) (file i) e)
        (fun x =>
           match x with
           | (success, error) =>
               if negb success
               then Ret (false, g_prefix_error error (context i))
               else loop todo (i + 1)%N vs error
           end)
  end.

(** Every run of the loop: some rounds go through; then the loop is done, or
    reads behind the end of the array, or a write fails and ends it. *)
Lemma run_loop (w : env) todo :
  forall i vs e past,
  exists done,
    done <= todo
    /\ (forall k, k < done -> nth_error vs (N.to_nat i + k) <> None)
    /\ ((done = todo
         /\ run w (loop todo i vs e) past
            = (Some (true, e), rounds_written file done i vs))
        \/ (done < todo
            /\ nth_error vs (N.to_nat i + done) = None
            /\ run w (loop todo i vs e) past
               = (None, rounds_written file done i vs))
        \/ (done < todo
            /\ exists v err tf,
                 nth_error vs (N.to_nat i + done) = Some v
                 /\ echo_outcome (CStr.fmt_u64 v)
                      (file (i + N.of_nat done)%N) e false err tf
                 /\ run w (loop todo i vs e) past
                    = (Some (false,
                             g_prefix_error err
                               (context (i + N.of_nat done)%N)),
                       (rounds_written file done i vs ++ tf)%list))).
Proof.
  induction todo as [|todo IH]; intros i vs e past.
  - exists 0. split; [lia|]. split; [intros; lia|]. left.
    rewrite loop_0. now split.
  - rewrite loop_S. destruct (nth_error vs (N.to_nat i)) as [v|] eqn:V.
    2:{ exists 0. split; [lia|]. split; [intros; lia|]. right. left.
        rewrite Nat.add_0_r. repeat split; [lia | exact V]. }
    rewrite run_bind.
    destruct (run_echo w past (CStr.fmt_u64 v) (file i) e)
      as (ok & err & t & R & O).
    rewrite R. destruct O as [|e0|e0|e0].
    + cbn [negb]. 
      destruct (IH (i + 1)%N vs e (past ++ written (CStr.fmt_u64 v) (file i))%list)
        as (done & Hd & Hk & Hc).
      exists (S done). split; [lia|]. split.
      { intros [|k] Hlt; [rewrite Nat.add_0_r; congruence|].
        replace (N.to_nat i + S k) with (N.to_nat (i + 1) + k) by lia.
        apply Hk. lia. }
      replace (N.to_nat i + S done) with (N.to_nat (i + 1) + done) by lia.
      replace (i + N.of_nat (S done))%N with (i + 1 + N.of_nat done)%N by lia.
      cbn [rounds_written]. rewrite V.
      destruct Hc as [(-> & Hr)|[(Hlt & Hn & Hr)|(Hlt & v' & err' & tf & Hn & Ho & Hr)]].
      * left. split; [reflexivity|]. now rewrite Hr.
      * right. left. split; [lia|]. split; [exact Hn|]. now rewrite Hr.
      * right. right. split; [lia|]. exists v', err', tf.
        split; [exact Hn|]. split; [exact Ho|]. rewrite Hr.
        now rewrite <- app_assoc.
    + exists 0. split; [lia|]. split; [intros; lia|]. right. right.
      split; [lia|]. rewrite Nat.add_0_r, N.add_0_r.
      eexists v, _, _. split; [exact V|]. split; [apply echo_open_failed|].
      reflexivity.
    + exists 0. split; [lia|]. split; [intros; lia|]. right. right.
      split; [lia|]. rewrite Nat.add_0_r, N.add_0_r.
      eexists v, _, _. split; [exact V|]. split; [apply echo_write_failed|].
      reflexivity.
    + exists 0. split; [lia|]. split; [intros; lia|]. right. right.
      split; [lia|]. rewrite Nat.add_0_r, N.add_0_r.
      eexists v, _, _. split; [exact V|]. split; [apply echo_close_failed|].
      reflexivity.
Qed.

(** What the calls of a write have in common. *)
Lemma written_calls str path c :
  In c (written str path) ->
  channel_path c = Some path /\ channel_failure c = None.
Proof.
  intros [<-|[<-|[<-|[]]]]; now split.
Qed.

Lemma echo_outcome_calls str path e ok err t c :
  echo_outcome str path e ok err t -> In c t -> channel_path c = Some path.
Proof.
  intros O H. destruct O; simpl in H;
    repeat (destruct H as [<-|H]; [reflexivity|]); destruct H.
Qed.


Lemma echo_outcome_failure str path e ok err t c e0 :
  echo_outcome str path e ok err t -> In c t -> channel_failure c = Some e0 ->
  ok = false
  /\ exists pre, err = g_prefix_error (g_propagate e e0) pre.
Proof.
  intros O H F. destruct O; simpl in H;
    repeat (destruct H as [<-|H];
            [simpl in F; first [discriminate F | injection F as <-]|]);
    try destruct H; (split; [reflexivity | eexists; reflexivity]).
Qed.

Lemma rounds_written_calls done :
  forall i vs c,
    In c (rounds_written file done i vs) ->
    (exists k, channel_path c = Some (file k)) /\ channel_failure c = None.
Proof.
  induction done as [|done IH]; intros i vs c H; [destruct H|].
  cbn [rounds_written] in H.
  destruct (nth_error vs (N.to_nat i)); [|destruct H].
  apply in_app_or in H as [H|H].
  - apply written_calls in H as [H1 H2]. split; [now exists i | exact H2].
  - now apply IH in H.
Qed.

Lemma loop_calls (w : env) todo i vs e past r t c :
  run w (loop todo i vs e) past = (r, t) -> In c t ->
  exists k, channel_path c = Some (file k).
Proof.
  intros R H.
  destruct (run_loop w todo i vs e past) as (done & _ & _ & Hc).
  destruct Hc as [(_ & Hr)|[(_ & _ & Hr)|(_ & v & err & tf & _ & Ho & Hr)]];
    rewrite Hr in R; injection R as <- <-.
  - now apply rounds_written_calls in H.
  - now apply rounds_written_calls in H.
  - apply in_app_or in H as [H|H].
    + now apply rounds_written_calls in H.
    + eexists. eapply echo_outcome_calls; eassumption.
Qed.

(** A failed call ends the loop, and the error names the device. *)
Lemma loop_failure (w : env) todo i vs e past r t c e0 :
  run w (loop todo i vs e) past = (r, t) -> In c t ->
  channel_failure c = Some e0 ->
  exists k pre,
    channel_path c = Some (file k)
    /\ r = Some (false,
                 g_prefix_error (g_prefix_error (g_propagate e e0) pre)
                   (context k)).
Proof.
  intros R H F.
  destruct (run_loop w todo i vs e past) as (done & _ & _ & Hc).
  destruct Hc as [(_ & Hr)|[(_ & _ & Hr)|(_ & v & err & tf & _ & Ho & Hr)]];
    rewrite Hr in R; injection R as <- <-.
  - apply rounds_written_calls in H as [_ H]. congruence.
  - apply rounds_written_calls in H as [_ H]. congruence.
  - apply in_app_or in H as [H|H].
    + apply rounds_written_calls in H as [_ H]. congruence.
    + destruct (echo_outcome_failure _ _ _ _ _ _ _ _ Ho H F) as (_ & pre & ->).
      exists (i + N.of_nat done)%N, pre. split; [|reflexivity].
      eapply echo_outcome_calls; eassumption.
Qed.

(** A loop that is done has written every value and left the error slot
    alone. *)
Lemma loop_success (w : env) todo i vs e past e' t :
  run w (loop todo i vs e) past = (Some (true, e'), t) ->
  e' = e
  /\ t = rounds_written file todo i vs
  /\ forall k, k < todo -> nth_error vs (N.to_nat i + k) <> None.
Proof.
  intros R.
  destruct (run_loop w todo i vs e past) as (done & _ & Hk & Hc).
  destruct Hc as [(-> & Hr)|[(_ & _ & Hr)|(_ & v & err & tf & _ & Ho & Hr)]];
    rewrite Hr in R; try discriminate R.
  injection R as <- <-. now repeat split.
Qed.

(** A loop that fails leaves an error behind. *)
Lemma loop_failure_error (w : env) todo i vs e past err t :
  run w (loop todo i vs e) past = (Some (false, err), t) -> err <> None.
Proof.
  intro R.
  destruct (run_loop w todo i vs e past)
    as (done & _ & _ & Hc).
  destruct Hc as [(_ & Hr)|[(_ & _ & Hr)|(_ & v & err' & tf & _ & Ho & Hr)]];
    rewrite Hr in R; try discriminate R.
  injection R as <- _. apply prefix_some.
  inversion Ho; apply prefix_some, propagate_some.
Qed.

End Loop.

(** ** Loading and unloading the module *)

(** One call of the program under [run]: name its answer and go on. *)
Ltac answer a :=
  rewrite run_call_bind; cbv zeta;
  match goal with
  | |- context [run ?w _ (?past ++ [Called ?e (?w ?X ?past ?e)])%list] =>
      destruct (w X past e) as a; cbn [negb]
  end.

Ltac name_answer x :=
  rewrite run_call_bind; cbv zeta;
  match goal with
  | |- context [run ?w _ (?past ++ [Called ?e (?w ?X ?past ?e)])%list] =>
      generalize (w X past e); intro x
  end.

Ltac finish := cbn [run]; do 3 eexists; split; [reflexivity|].

Lemma quiet_nil : quiet [].
Proof. intros c []. Qed.

Lemma quiet_cons c t : is_channel_call c = false -> quiet t -> quiet (c :: t).
Proof. intros H Q d [<-|D]; [exact H | now apply Q]. Qed.

Lemma quiet_app t u : quiet t -> quiet u -> quiet (t ++ u)%list.
Proof. intros Qt Qu c H. apply in_app_or in H as [H|H]; auto. Qed.

Create HintDb kbd.
#[local] Hint Resolve quiet_nil quiet_cons quiet_app : kbd.

Lemma run_load (w : env) name opts past :
  exists ok err t,
    run w (load_kernel_module name opts None) past = (Some (ok, err), t)
    /\ quiet t
    /\ (ok = true -> err = None)
    /\ (ok = false -> exists e, err = Some e /\ domain e = BD_KBD_ERROR).
Proof.
  unfold load_kernel_module.
  answer ipattern:([|]).
  2:{ finish. split; [auto with kbd|]. split; [discriminate|]. intros _. eexists. split; reflexivity. }
  answer ipattern:([]). name_answer ret.
  destruct (ret <? 0)%Z.
  { finish. split; [auto 6 with kbd|]. split; [discriminate|]. intros _. eexists. split; reflexivity. }
  answer ipattern:([path|]).
  2:{ finish. split; [auto 6 with kbd|]. split; [discriminate|]. intros _. eexists. split; reflexivity. }
  name_answer ret'.
  destruct (ret' <? 0)%Z.
  { finish. split; [auto 8 with kbd|]. split; [discriminate|]. intros _. eexists. split; reflexivity. }
  finish. split; [auto 8 with kbd|]. split; [reflexivity|]. discriminate.
Qed.

Lemma run_unload (w : env) name past :
  exists ok err t,
    run w (unload_kernel_module name None) past = (Some (ok, err), t)
    /\ quiet t
    /\ (ok = true -> err = None)
    /\ (ok = false -> exists e, err = Some e /\ domain e = BD_KBD_ERROR).
Proof.
  unfold unload_kernel_module.
  answer ipattern:([|]).
  2:{ finish. split; [auto with kbd|]. split; [discriminate|]. intros _. eexists. split; reflexivity. }
  answer ipattern:([]). answer ipattern:([ret list]).
  destruct (ret <? 0)%Z.
  { finish. split; [auto 6 with kbd|]. split; [discriminate|]. intros _. eexists. split; reflexivity. }
  destruct (find_loaded list name) as [kmod|].
  2:{ finish. split; [auto 6 with kbd|]. split; [discriminate|]. intros _. eexists. split; reflexivity. }
  name_answer ret'.
  destruct (ret' <? 0)%Z.
  { finish. split; [auto 8 with kbd|]. split; [discriminate|]. intros _. eexists. split; reflexivity. }
  finish. split; [auto 8 with kbd|]. split; [reflexivity|]. discriminate.
Qed.

(** ** Activating the devices *)

Lemma run_zram_activate (w : env) n sizes ns past r t :
  run w (zram_activate n sizes (Some ns) None) past = (r, t) ->
  exists t_streams t_sizes r_streams,
    t = (t_streams ++ t_sizes)%list
    /\ run w (set_comp_streams (N.to_nat n) 0 ns None) past
       = (r_streams, t_streams)
    /\ ((r_streams = Some (true, None)
         /\ run w (set_disksizes (N.to_nat n) 0 sizes None)
              (past ++ t_streams)%list = (r, t_sizes))
        \/ (r_streams <> Some (true, None)
            /\ r = r_streams /\ t_sizes = [])).
Proof.
  unfold zram_activate. rewrite run_bind.
  destruct (run w (set_comp_streams (N.to_nat n) 0 ns None) past)
    as [[[[|] e]|] t1] eqn:R1.
  - destruct (loop_success max_comp_streams_file
                (fun i => "Failed to set number of compression streams for '/dev/zram"
                          ++ CStr.fmt_u64 i ++ "': ")
                set_comp_streams ltac:(reflexivity) ltac:(reflexivity)
                w _ _ _ _ _ _ _ R1) as (-> & _ & _).
    cbn [negb].
    destruct (run w (set_disksizes (N.to_nat n) 0 sizes None)
                (past ++ t1)%list) as [r2 t2] eqn:R2.
    intro H. injection H as <- <-.
    exists t1, t2, (Some (true, None)). split; [reflexivity|].
    split; [reflexivity|]. left. now split.
  - cbn [negb run]. intro H. injection H as <- <-.
    exists t1, [], (Some (false, e)). split; [reflexivity|].
    split; [reflexivity|]. right. repeat split. discriminate.
  - intro H. injection H as <- <-.
    exists t1, [], None. split; [now rewrite app_nil_r|].
    split; [reflexivity|]. right. repeat split. discriminate.
Qed.

Lemma run_zram_activate_calls (w : env) n sizes nstreams past r t c :
  run w (zram_activate n sizes nstreams None) past = (r, t) -> In c t ->
  is_channel_call c = true.
Proof.
  intros R H.
  assert (L1 : forall p r1 t1 ns,
             run w (set_comp_streams (N.to_nat n) 0 ns None) p = (r1, t1) ->
             In c t1 -> is_channel_call c = true).
  { intros p r1 t1 ns R1 H1.
    destruct (loop_calls max_comp_streams_file
                (fun i => "Failed to set number of compression streams for '/dev/zram"
                          ++ CStr.fmt_u64 i ++ "': ")
                set_comp_streams ltac:(reflexivity) ltac:(reflexivity)
                w _ _ _ _ _ _ _ c R1 H1) as (k & K).
    unfold is_channel_call. now rewrite K. }
  assert (L2 : forall p r1 t1,
             run w (set_disksizes (N.to_nat n) 0 sizes None) p = (r1, t1) ->
             In c t1 -> is_channel_call c = true).
  { intros p r1 t1 R1 H1.
    destruct (loop_calls disksize_file
                (fun i => "Failed to set size for '/dev/zram"
                          ++ CStr.fmt_u64 i ++ "': ")
                set_disksizes ltac:(reflexivity) ltac:(reflexivity)
                w _ _ _ _ _ _ _ c R1 H1) as (k & K).
    unfold is_channel_call. now rewrite K. }
  destruct nstreams as [ns|].
  - apply run_zram_activate in R
      as (t1 & t2 & r1 & -> & R1 & [(_ & R2)|(_ & _ & ->)]).
    + apply in_app_or in H as [H|H]; [eapply L1 | eapply L2]; eassumption.
    + rewrite app_nil_r in H. eapply L1; eassumption.
  - unfold zram_activate in R. rewrite run_bind in R. cbn [run negb] in R.
    rewrite app_nil_r in R.
    destruct (run w (set_disksizes (N.to_nat n) 0 sizes None) past)
      as [r2 t2] eqn:R2.
    injection R as <- <-. eapply L2; eassumption.
Qed.

(* ================================================================== *)
(** * The zRAM manager *)

Lemma load_failure_domain (w : env) name opts past e t :
  run w (load_kernel_module name opts None) past = (Some (false, Some e), t) ->
  domain e = BD_KBD_ERROR.
Proof.
  intro R. destruct (run_load w name opts past) as (ok & err & t' & R' & _ & _ & F).
  rewrite R in R'. injection R' as <- <- <-.
  destruct (F eq_refl) as (e' & E & D). now injection E as ->.
Qed.

Lemma matches_module_fail (e : GError) :
  domain e = BD_KBD_ERROR ->
  g_error_matches (Some e) BD_KBD_ERROR (kbd_code BD_KBD_ERROR_MODULE_FAIL)
  = (code e =? kbd_code BD_KBD_ERROR_MODULE_FAIL)%Z.
Proof.
  intro D. unfold g_error_matches. now rewrite D, String.eqb_refl.
Qed.

(** C2. When the first load of zram fails with the module-operation code (and
    only then), [bd_kbd_zram_create_devices] forgets that error and runs the
    unload.  A failed unload ends the call with the unload's error under the
    prefix "zram module already loaded: " and nothing is called after it.  A
    successful unload is followed by exactly one more load; if that fails its
    error is the result as it is, and otherwise only sysfs files are touched
    from there on.  A first load that fails with any other code ends the call
    with that error, and the calls of that load are all the calls made. *)
Theorem zram_create_load_fallback (w : env) (num_devices : N)
  (sizes : list N) (nstreams : option (list N)) (e1 : GError) (t1 : trace) :
  let opts := "num_devices=" ++ CStr.fmt_u64 num_devices in
  let create := bd_kbd_zram_create_devices num_devices sizes nstreams None in
  run w (load_kernel_module "zram" opts None) [] = (Some (false, Some e1), t1) ->
  (code e1 = kbd_code BD_KBD_ERROR_MODULE_FAIL ->
   exists ok2 err2 t2,
     run w (unload_kernel_module "zram" None) t1 = (Some (ok2, err2), t2)
     /\ (ok2 = false ->
         exists e2,
           err2 = Some e2
           /\ run w create []
              = (Some (false,
                       Some (mkGError (domain e2) (code e2)
                               ("zram module already loaded: " ++ message e2))),
                 (t1 ++ t2)%list))
     /\ (ok2 = true ->
         exists ok3 err3 t3,
           run w (load_kernel_module "zram" opts None) (t1 ++ t2)%list
           = (Some (ok3, err3), t3)
           /\ (ok3 = false ->
               run w create [] = (Some (false, err3), (t1 ++ t2 ++ t3)%list))
           /\ (ok3 = true ->
               exists r t4,
                 run w (zram_activate num_devices sizes nstreams None)
                   (t1 ++ t2 ++ t3)%list = (r, t4)
                 /\ run w create [] = (r, (t1 ++ t2 ++ t3 ++ t4)%list)
                 /\ forall c, In c t4 -> is_channel_call c = true)))
  /\ (code e1 <> kbd_code BD_KBD_ERROR_MODULE_FAIL ->
      run w create [] = (Some (false, Some e1), t1)).
Proof.
  intros opts create R1.
  pose proof (load_failure_domain _ _ _ _ _ _ R1) as D1.
  assert (Start : forall B (f : bool * errslot -> Prog B),
             run w (bind (load_kernel_module "zram" opts None) f) []
             = let '(r, t) := run w (f (false, Some e1)) t1 in
               (r, (t1 ++ t)%list)).
  { intros B f. rewrite run_bind, R1. reflexivity. }
  split.
  - intro C1.
    destruct (run_unload w "zram" t1) as (ok2 & err2 & t2 & R2 & _ & S2 & F2).
    exists ok2, err2, t2. split; [exact R2|]. split.
    + intros ->. destruct (F2 eq_refl) as (e2 & -> & _).
      exists e2. split; [reflexivity|].
      unfold create, bd_kbd_zram_create_devices. fold opts. rewrite Start.
      cbn [negb andb]. rewrite (matches_module_fail _ D1), C1, Z.eqb_refl.
      unfold g_clear_error. rewrite run_bind, R2. cbn [negb run].
      now rewrite app_nil_r.
    + intros ->. rewrite (S2 eq_refl) in R2.
      destruct (run_load w "zram" opts (t1 ++ t2)%list)
        as (ok3 & err3 & t3 & R3 & _ & S3 & F3).
      exists ok3, err3, t3. split; [exact R3|].
      assert (Go : run w create []
                   = let '(r, t) :=
                       run w (if negb ok3 then Ret (false, err3)
                              else zram_activate num_devices sizes nstreams
                                     err3)
                         (t1 ++ t2 ++ t3)%list in
                     (r, (t1 ++ t2 ++ t3 ++ t)%list)).
      { unfold create, bd_kbd_zram_create_devices. fold opts. rewrite Start.
        cbn [negb andb]. rewrite (matches_module_fail _ D1), C1, Z.eqb_refl.
        unfold g_clear_error. rewrite run_bind, R2. cbn [negb].
        rewrite run_bind, R3. rewrite <- app_assoc.
        destruct (run w _ (t1 ++ t2 ++ t3)%list). reflexivity. }
      split.
      * intros ->. rewrite Go. cbn [negb run]. now rewrite !app_nil_r.
      * intros ->. rewrite (S3 eq_refl) in *. cbn [negb] in Go.
        destruct (run w (zram_activate num_devices sizes nstreams None)
                    (t1 ++ t2 ++ t3)%list) as [r t4] eqn:R4.
        exists r, t4. split; [reflexivity|]. split; [exact Go|].
        intros c. eapply run_zram_activate_calls; eassumption.
  - intro C1. unfold create, bd_kbd_zram_create_devices. fold opts.
    rewrite Start. cbn [negb andb]. rewrite (matches_module_fail _ D1).
    apply Z.eqb_neq in C1. rewrite C1. cbn [run negb].
    now rewrite app_nil_r.
Qed.

(** Every run of [bd_kbd_zram_create_devices] starts with module calls only;
    then it is over, or the devices are activated. *)
Lemma run_zram_create_shape (w : env) n sizes nstreams r t :
  run w (bd_kbd_zram_create_devices n sizes nstreams None) [] = (r, t) ->
  exists t_mod t_act,
    t = (t_mod ++ t_act)%list
    /\ quiet t_mod
    /\ ((t_act = [] /\ exists e, r = Some (false, Some e))
        \/ run w (zram_activate n sizes nstreams None) t_mod = (r, t_act)).
Proof.
  unfold bd_kbd_zram_create_devices.
  set (opts := "num_devices=" ++ CStr.fmt_u64 n).
  rewrite run_bind.
  destruct (run_load w "zram" opts []) as (ok1 & err1 & t1 & R1 & Q1 & S1 & F1).
  rewrite R1. cbn [app]. destruct ok1.
  - rewrite (S1 eq_refl). cbn [negb andb].
    destruct (run w (zram_activate n sizes nstreams None) t1)
      as [r' t'] eqn:R'.
    intro H. injection H as <- <-. exists t1, t'. auto.
  - destruct (F1 eq_refl) as (e1 & -> & D1). cbn [negb andb].
    rewrite (matches_module_fail _ D1).
    destruct (code e1 =? kbd_code BD_KBD_ERROR_MODULE_FAIL)%Z.
    + unfold g_clear_error. rewrite run_bind.
      destruct (run_unload w "zram" t1)
        as (ok2 & err2 & t2 & R2 & Q2 & S2 & F2).
      rewrite R2. destruct ok2.
      * rewrite (S2 eq_refl). cbn [negb]. rewrite run_bind.
        destruct (run_load w "zram" opts (t1 ++ t2)%list)
          as (ok3 & err3 & t3 & R3 & Q3 & S3 & F3).
        rewrite R3. destruct ok3.
        -- rewrite (S3 eq_refl). cbn [negb]. rewrite <- app_assoc.
           destruct (run w (zram_activate n sizes nstreams None)
                       (t1 ++ t2 ++ t3)%list) as [r' t'] eqn:R'.
           intro H. injection H as <- <-.
           exists (t1 ++ t2 ++ t3)%list, t'.
           split; [now rewrite <- !app_assoc|].
           split; [auto with kbd | now right].
        -- destruct (F3 eq_refl) as (e3 & -> & _). cbn [negb run].
           intro H. injection H as <- <-.
           exists (t1 ++ t2 ++ t3)%list, [].
           split; [now rewrite !app_nil_r|].
           split; [auto with kbd|]. left. eauto.
      * destruct (F2 eq_refl) as (e2 & -> & _). cbn [negb run].
        intro H. injection H as <- <-.
        exists (t1 ++ t2)%list, [].
        split; [now rewrite !app_nil_r|].
        split; [auto with kbd|]. left. split; [reflexivity|].
        eexists. reflexivity.
    + cbn [run]. intro H. injection H as <- <-.
      exists t1, []. split; [reflexivity|]. split; [exact Q1|]. left. eauto.
Qed.

Lemma earlier_in_app {A : Type} (P Q : A -> Prop) (l1 l2 : list A) p q c d :
  (forall x, In x l2 -> ~ P x) -> (forall x, In x l1 -> ~ Q x) ->
  nth_error (l1 ++ l2) p = Some c -> P c ->
  nth_error (l1 ++ l2) q = Some d -> Q d ->
  p < q.
Proof.
  intros H2 H1 Hp Pc Hq Qd.
  destruct (Nat.lt_ge_cases p (List.length l1)) as [Lp|Lp].
  - destruct (Nat.lt_ge_cases q (List.length l1)) as [Lq|Lq]; [|lia].
    rewrite nth_error_app1 in Hq by exact Lq.
    apply nth_error_In in Hq. now apply H1 in Hq.
  - rewrite nth_error_app2 in Hp by exact Lp.
    apply nth_error_In in Hp. now apply H2 in Hp.
Qed.

Lemma streams_call_is_channel c : streams_call c -> is_channel_call c = true.
Proof. intros (i & H). unfold is_channel_call. now rewrite H. Qed.

Lemma disksize_call_is_channel c : disksize_call c -> is_channel_call c = true.
Proof. intros (i & H). unfold is_channel_call. now rewrite H. Qed.

Lemma streams_call_not_disksize c : streams_call c -> ~ disksize_call c.
Proof.
  intros (i & Hi) (j & Hj).
  apply (streams_file_not_disksize i j). congruence.
Qed.

Lemma comp_streams_calls (w : env) todo i ns e past r t c :
  run w (set_comp_streams todo i ns e) past = (r, t) -> In c t ->
  streams_call c.
Proof.
  intros R H.
  exact (loop_calls max_comp_streams_file
           (fun i => "Failed to set number of compression streams for '/dev/zram"
                     ++ CStr.fmt_u64 i ++ "': ")
           set_comp_streams ltac:(reflexivity) ltac:(reflexivity)
           w _ _ _ _ _ _ _ c R H).
Qed.

Lemma disksizes_calls (w : env) todo i ns e past r t c :
  run w (set_disksizes todo i ns e) past = (r, t) -> In c t ->
  disksize_call c.
Proof.
  intros R H.
  exact (loop_calls disksize_file
           (fun i => "Failed to set size for '/dev/zram"
                     ++ CStr.fmt_u64 i ++ "': ")
           set_disksizes ltac:(reflexivity) ltac:(reflexivity)
           w _ _ _ _ _ _ _ c R H).
Qed.

(** The three parts of a run: module calls, stream counts, sizes.  Sizes are
    only written after every stream count went through, and a failed call
    among the stream counts is the end of the run. *)
Lemma run_zram_create_parts (w : env) n sizes ns r t :
  run w (bd_kbd_zram_create_devices n sizes (Some ns) None) [] = (r, t) ->
  exists t_mod t_streams t_sizes,
    t = (t_mod ++ t_streams ++ t_sizes)%list
    /\ quiet t_mod
    /\ (forall c, In c t_streams -> streams_call c)
    /\ (forall c, In c t_sizes -> disksize_call c)
    /\ (t_sizes <> [] ->
        t_streams = rounds_written max_comp_streams_file (N.to_nat n) 0 ns
        /\ forall k, k < N.to_nat n -> nth_error ns k <> None)
    /\ (forall c e0, In c t_streams -> channel_failure c = Some e0 ->
        t_sizes = []
        /\ exists k pre,
             channel_path c = Some (max_comp_streams_file k)
             /\ r = Some (false,
                          g_prefix_error (g_prefix_error (Some e0) pre)
                            ("Failed to set number of compression streams for '/dev/zram"
                             ++ CStr.fmt_u64 k ++ "': "))).
Proof.
  intro R. apply run_zram_create_shape in R
    as (t_mod & t_act & -> & Q & [(-> & _)|R]).
  - exists t_mod, [], []. split; [reflexivity|]. split; [exact Q|].
    split; [intros c []|]. split; [intros c []|]. split; [congruence|].
    intros c e0 [].
  - apply run_zram_activate in R
      as (t1 & t2 & r1 & -> & R1 & [(-> & R2)|(N1 & -> & ->)]).
    + exists t_mod, t1, t2.
      split; [reflexivity|]. split; [exact Q|].
      split; [intros c; eapply comp_streams_calls; eassumption|].
      split; [intros c; eapply disksizes_calls; eassumption|].
      destruct (loop_success max_comp_streams_file
                  (fun i => "Failed to set number of compression streams for '/dev/zram"
                            ++ CStr.fmt_u64 i ++ "': ")
                  set_comp_streams ltac:(reflexivity) ltac:(reflexivity)
                  w _ _ _ _ _ _ _ R1) as (_ & -> & NN).
      split; [intros _; split; [reflexivity | exact NN]|].
      intros c e0 H F. apply rounds_written_calls in H as [_ H]. congruence.
    + exists t_mod, t1, [].
      split; [reflexivity|]. split; [exact Q|].
      split; [intros c; eapply comp_streams_calls; eassumption|].
      split; [intros c []|]. split; [congruence|].
      intros c e0 H F. split; [reflexivity|].
      exact (loop_failure max_comp_streams_file
               (fun i => "Failed to set number of compression streams for '/dev/zram"
                         ++ CStr.fmt_u64 i ++ "': ")
               set_comp_streams ltac:(reflexivity) ltac:(reflexivity)
               w _ _ _ _ _ _ _ c e0 R1 H F).
Qed.

(** C3. In a run of [bd_kbd_zram_create_devices] with stream counts given,
    every call on a [max_comp_streams] file comes before every call on a
    [disksize] file; once a [disksize] file is touched, the stream counts of
    all [num_devices] devices have been written in order and in full; and if
    a call on the [max_comp_streams] file of device [i] fails, the run ends
    in failure with that error under a message that starts by naming
    [/dev/zram<i>], and no [disksize] file is touched at all. *)
Theorem zram_streams_before_sizes (w : env) (num_devices : N)
  (sizes nstreams : list N) (r : option (bool * errslot)) (t : trace) :
  run w (bd_kbd_zram_create_devices num_devices sizes (Some nstreams) None) []
  = (r, t) ->
  (forall p q c d,
      nth_error t p = Some c -> nth_error t q = Some d ->
      streams_call c -> disksize_call d -> p < q)
  /\ ((exists d, In d t /\ disksize_call d) ->
      (forall k, k < N.to_nat num_devices -> nth_error nstreams k <> None)
      /\ exists before sizes_part,
           t = (before
                ++ rounds_written max_comp_streams_file
                     (N.to_nat num_devices) 0 nstreams
                ++ sizes_part)%list
           /\ (forall c, In c before -> is_channel_call c = false)
           /\ (forall c, In c sizes_part -> disksize_call c))
  /\ (forall i c e,
      In c t -> channel_path c = Some (max_comp_streams_file i) ->
      channel_failure c = Some e ->
      (forall d, In d t -> ~ disksize_call d)
      /\ exists rest,
           r = Some (false,
                     Some (mkGError (domain e) (code e)
                             ("Failed to set number of compression streams for '/dev/zram"
                              ++ CStr.fmt_u64 i ++ "': " ++ rest)))).
Proof.
  intro R. apply run_zram_create_parts in R
    as (t_mod & t1 & t2 & -> & Q & C1 & C2 & Full & Fail).
  assert (NotMod : forall c, In c t_mod -> is_channel_call c = true -> False).
  { intros c H T. rewrite (Q c H) in T. discriminate T. }
  split; [|split].
  - intros p q c d Hp Hq Sc Dd. rewrite app_assoc in Hp, Hq.
    apply (earlier_in_app streams_call disksize_call _ _ _ _ _ _
             ltac:(intros x Hx Sx; exact (streams_call_not_disksize x Sx (C2 x Hx)))
             ltac:(intros x Hx Dx; apply in_app_or in Hx as [Hx|Hx];
                   [exact (NotMod x Hx (disksize_call_is_channel x Dx))
                   |exact (streams_call_not_disksize x (C1 x Hx) Dx)])
             Hp Sc Hq Dd).
  - intros (d & Hd & Dd).
    assert (N2 : t2 <> []).
    { apply in_app_or in Hd as [Hd|Hd];
        [exfalso; exact (NotMod d Hd (disksize_call_is_channel d Dd))|].
      apply in_app_or in Hd as [Hd|Hd];
        [exfalso; exact (streams_call_not_disksize d (C1 d Hd) Dd)|].
      intro E. rewrite E in Hd. destruct Hd. }
    destruct (Full N2) as (-> & NN). split; [exact NN|].
    exists t_mod, t2. split; [reflexivity|]. split; [exact Q | exact C2].
  - intros i c e Hc Pc Fc.
    assert (Sc : streams_call c) by now exists i.
    assert (H1 : In c t1).
    { apply in_app_or in Hc as [Hc|Hc];
        [exfalso; exact (NotMod c Hc (streams_call_is_channel c Sc))|].
      apply in_app_or in Hc as [Hc|Hc]; [exact Hc|].
      exfalso. exact (streams_call_not_disksize c Sc (C2 c Hc)). }
    destruct (Fail c e H1 Fc) as (-> & k & pre & Pk & ->).
    assert (i = k) as <- by (apply streams_file_inj; congruence).
    split.
    + intros d Hd Dd. rewrite app_nil_r in Hd.
      apply in_app_or in Hd as [Hd|Hd];
        [exact (NotMod d Hd (disksize_call_is_channel d Dd))
        |exact (streams_call_not_disksize d (C1 d Hd) Dd)].
    + exists (pre ++ message e). cbn [g_prefix_error domain code message].
      now rewrite !append_assoc.
Qed.

(* ================================================================== *)
(** * The sysfs writer *)

(** C9. [echo_str_to_file] opens the file for writing, writes the text it was
    given and nothing else, and shuts the channel down with a flush.  It
    always returns; it returns success exactly when the three calls went
    through, and then leaves the error slot empty; otherwise it stops at the
    first call that failed and returns failure with the error of that call,
    domain and code untouched, under a message prefix. *)
Theorem echo_str_to_file_contract (w : env) (past : trace)
  (str file_path : string) :
  exists ok err t,
    run w (echo_str_to_file str file_path None) past = (Some (ok, err), t)
    /\ echo_outcome str file_path None ok err t
    /\ (ok = true <-> t = written str file_path)
    /\ (ok = true -> err = None)
    /\ (ok = false ->
        exists c e pre,
          In c t /\ channel_failure c = Some e
          /\ err = Some (mkGError (domain e) (code e) (pre ++ message e))).
Proof.
  destruct (run_echo w past str file_path None) as (ok & err & t & R & O).
  exists ok, err, t. split; [exact R|]. split; [exact O|].
  destruct O as [|e|e|e].
  - repeat split; auto; discriminate.
  - split; [split; [discriminate|]|split; [discriminate|]].
    + intro H. apply (f_equal (map channel_failure)) in H. discriminate H.
    + intros _. eexists _, e, _. split; [now left|]. now split.
  - split; [split; [discriminate|]|split; [discriminate|]].
    + intro H. apply (f_equal (map channel_failure)) in H. discriminate H.
    + intros _. eexists _, e, _. split; [right; now left|]. now split.
  - split; [split; [discriminate|]|split; [discriminate|]].
    + intro H. apply (f_equal (map channel_failure)) in H. discriminate H.
    + intros _. eexists _, e, _. split; [right; right; now left|]. now split.
Qed.

(* ================================================================== *)
(** * Paths *)

Lemma no_slash_cons a s :
  no_slash (String a s) <-> a <> "/"%char /\ no_slash s.
Proof.
  unfold no_slash. simpl. split.
  - intro H. split; [intro E; apply H; left; now rewrite E | tauto].
  - intros [H1 H2] [E|H]; [now apply H1 | now apply H2].
Qed.

Lemma strchr_slash c rest :
  no_slash c ->
  CStr.strchr (c ++ String "/" rest) "/" = Some (String "/" rest).
Proof.
  induction c as [|a c IH]; intro H; [reflexivity|].
  apply no_slash_cons in H as [Ha Hc]. simpl.
  apply Ascii.eqb_neq in Ha. rewrite Ha. now apply IH.
Qed.

Lemma strchr_no_slash c : no_slash c -> CStr.strchr c "/" = None.
Proof.
  induction c as [|a c IH]; intro H; [reflexivity|].
  apply no_slash_cons in H as [Ha Hc]. simpl.
  apply Ascii.eqb_neq in Ha. rewrite Ha. now apply IH.
Qed.

Lemma strrchr_no_slash c : no_slash c -> CStr.strrchr c "/" = None.
Proof.
  induction c as [|a c IH]; intro H; [reflexivity|].
  apply no_slash_cons in H as [Ha Hc]. simpl. rewrite (IH Hc).
  apply Ascii.eqb_neq in Ha. now rewrite Ha.
Qed.

Lemma strrchr_slash dir name :
  no_slash name ->
  CStr.strrchr (dir ++ String "/" name) "/" = Some (String "/" name).
Proof.
  intro H. induction dir as [|a dir IH]; simpl.
  - now rewrite (strrchr_no_slash _ H).
  - now rewrite IH.
Qed.

Lemma strrchr_none_no_slash s : CStr.strrchr s "/" = None -> no_slash s.
Proof.
  induction s as [|a s IH]; simpl; intro H; [intros []|].
  destruct (CStr.strrchr s "/"); [discriminate H|].
  destruct (Ascii.eqb a "/") eqn:E; [discriminate H|].
  apply no_slash_cons. split; [now apply Ascii.eqb_neq | now apply IH].
Qed.

Lemma g_strndup_append c rest :
  CStr.g_strndup (c ++ rest) (String.length c) = c.
Proof.
  induction c as [|a c IH]; simpl; [now destruct rest | now rewrite IH].
Qed.

Lemma components_nonempty s : components s <> [].
Proof.
  destruct s as [|a s]; simpl; [discriminate|].
  destruct (Ascii.eqb a "/"); [discriminate|].
  destruct (components s); discriminate.
Qed.

(** The first component is what stands in front of the first '/'. *)
Lemma components_head s c cs :
  components s = c :: cs ->
  no_slash c
  /\ match cs with
     | [] => s = c
     | _ => exists s', s = c ++ String "/" s' /\ components s' = cs
     end.
Proof.
  revert c cs. induction s as [|a s IH]; intros c cs H; simpl in H.
  - injection H as <- <-. split; [intros []| reflexivity].
  - destruct (Ascii.eqb a "/") eqn:E.
    + apply Ascii.eqb_eq in E. subst a. injection H as <- <-.
      split; [intros []|].
      destruct (components s) eqn:C; [now apply components_nonempty in C|].
      exists s. now split.
    + destruct (components s) as [|c' cs'] eqn:C;
        [now apply components_nonempty in C|].
      injection H as <- <-. destruct (IH c' cs' eq_refl) as [N T].
      split.
      * apply no_slash_cons. split; [now apply Ascii.eqb_neq | exact N].
      * destruct cs' as [|d ds]; [now rewrite T|].
        destruct T as (s' & -> & T). exists s'. now split.
Qed.

Lemma components_shape path c1 c2 c3 c4 more :
  components path = "" :: c1 :: c2 :: c3 :: c4 :: more ->
  exists rest,
    path = "/" ++ c1 ++ "/" ++ c2 ++ "/" ++ c3 ++ "/" ++ rest
    /\ no_slash c1 /\ no_slash c2 /\ no_slash c3.
Proof.
  intro H.
  apply components_head in H as (_ & s1 & -> & H).
  apply components_head in H as (N1 & s2 & -> & H).
  apply components_head in H as (N2 & s3 & -> & H).
  apply components_head in H as (N3 & s4 & -> & H).
  exists s4. now repeat split.
Qed.

Lemma glob_dev_name_shape c1 c2 c3 rest :
  no_slash c1 -> no_slash c2 -> no_slash c3 ->
  glob_dev_name ("/" ++ c1 ++ "/" ++ c2 ++ "/" ++ c3 ++ "/" ++ rest)
  = NameIs c3.
Proof.
  intros N1 N2 N3. unfold glob_dev_name.
  change ("/" ++ c1 ++ "/" ++ c2 ++ "/" ++ c3 ++ "/" ++ rest)
    with (String "/" (c1 ++ String "/" (c2 ++ String "/"
                        (c3 ++ String "/" rest)))).
  cbn [skip_slashes]. rewrite (strchr_slash _ _ N1). cbn [CStr.ptr_add].
  rewrite (strchr_slash _ _ N2). cbn [CStr.ptr_add].
  rewrite (strchr_slash _ _ N3). unfold CStr.ptr_diff.
  rewrite append_length.
  replace (Z.to_nat _) with (String.length c3) by (cbn [String.length]; lia).
  now rewrite g_strndup_append.
Qed.

(** C10. On a path of the shape [/c1/c2/c3/...] with at least one more '/'
    behind the third component, the walk of [bd_kbd_bcache_create] over the
    glob match never leaves the string: moving behind three '/' ends on a
    position inside the path (the start of the third component), the search
    for the next '/' from there finds one, the length handed to [g_strndup]
    is the length of the third component and so not negative, and the name
    that comes out is the third component.  Neither the [NULL] exit nor the
    copy with a [NULL] end is reached. *)
Theorem glob_dev_name_total (c1 c2 c3 rest : string) :
  no_slash c1 -> no_slash c2 -> no_slash c3 ->
  let path := "/" ++ c1 ++ "/" ++ c2 ++ "/" ++ c3 ++ "/" ++ rest in
  exists dev_name dev_name_end,
    skip_slashes 2 (Some (CStr.ptr_add path 1)) = Some dev_name
    /\ dev_name = c3 ++ "/" ++ rest
    /\ CStr.strchr dev_name "/" = Some dev_name_end
    /\ (0 <= CStr.ptr_diff dev_name_end dev_name)%Z
    /\ CStr.ptr_diff dev_name_end dev_name = Z.of_nat (String.length c3)
    /\ glob_dev_name path = NameIs c3.
Proof.
  intros N1 N2 N3 path.
  exists (c3 ++ "/" ++ rest), ("/" ++ rest).
  assert (D : CStr.ptr_diff ("/" ++ rest) (c3 ++ "/" ++ rest)
              = Z.of_nat (String.length c3)).
  { unfold CStr.ptr_diff. rewrite append_length. lia. }
  split; [|split; [reflexivity|split; [|split; [|split]]]].
  - unfold path.
    change ("/" ++ c1 ++ "/" ++ c2 ++ "/" ++ c3 ++ "/" ++ rest)
      with (String "/" (c1 ++ String "/" (c2 ++ String "/"
                          (c3 ++ String "/" rest)))).
    cbn [CStr.ptr_add skip_slashes].
    rewrite (strchr_slash _ _ N1). cbn [CStr.ptr_add].
    now rewrite (strchr_slash _ _ N2).
  - exact (strchr_slash c3 rest N3).
  - rewrite D. lia.
  - exact D.
  - now apply glob_dev_name_shape.
Qed.

(* ================================================================== *)
(** * The bcache manager *)



Lemma skip_dev_prefix_no_slash c : no_slash c -> skip_dev_prefix c = c.
Proof.
  intro N. unfold skip_dev_prefix, CStr.g_str_has_prefix.
  destruct c as [|a c]; [reflexivity|].
  apply no_slash_cons in N as [Na _].
  change (String.prefix "/dev/" (String a c))
    with (if Ascii.ascii_dec "/" a then String.prefix "dev/" c else false).
  destruct (Ascii.ascii_dec "/" a) as [E|_]; [now symmetry in E | reflexivity].
Qed.

(** C7. With the tool's output parsed and the backing device registered,
    [bd_kbd_bcache_create] globs [/sys/block/*/slaves/<name>], [name] being
    what follows the last '/' of the backing device.  If the glob reports an
    error (no match among them), the call fails with
    [BD_KBD_ERROR_BCACHE_SETUP_FAIL] then and there.  If it reports matches,
    only the first one counts: for a first match with at least four
    components behind its leading '/', the cache set is attached to the
    device named by the third of them, so every further call is on that
    device's [bcache/attach] file, and that name is what a successful call
    hands back. *)
Theorem bcache_create_glob_resolution (w : env)
  (dir name cache_device : string) (bcache_device : outparam)
  (output set_uuid : string) (t_reg : trace) :
  let backing_device := dir ++ "/" ++ name in
  let argv := ["make-bcache"; "-B"; backing_device; "-C"; cache_device] in
  let pattern := "/sys/block/*/slaves/" ++ name in
  let create :=
    bd_kbd_bcache_create backing_device cache_device bcache_device None in
  let start :=
    [Called (bd_utils_exec_and_capture_output argv) (ExecOk output)] in
  no_slash name ->
  w exec_result [] (bd_utils_exec_and_capture_output argv) = ExecOk output ->
  parse_set_uuid output = Some set_uuid ->
  run w (echo_str_to_file backing_device "/sys/fs/bcache/register" None) start
  = (Some (true, None), t_reg) ->
  let g := w glob_result (start ++ t_reg)%list (glob pattern GLOB_NOSORT) in
  let upto := (start ++ t_reg ++ [Called (glob pattern GLOB_NOSORT) g])%list in
  match g with
  | GlobMatches first others =>
      forall c1 c2 c3 c4 more,
        components first = "" :: c1 :: c2 :: c3 :: c4 :: more ->
        exists ok err t_att,
          run w (bd_kbd_bcache_attach set_uuid c3 None) upto
          = (Some (ok, err), t_att)
          /\ echo_outcome set_uuid ("/sys/block/" ++ c3 ++ "/bcache/attach")
               None ok err t_att
          /\ run w create []
             = (Some (if ok then (true, store bcache_device c3, None)
                      else (false, bcache_device,
                            g_prefix_error err
                              "Failed to attach the cache to the backing device: ")),
                (upto ++ t_att)%list)
  | _ =>
      run w create []
      = (Some (false, bcache_device,
               Some (mkGError BD_KBD_ERROR
                       (kbd_code BD_KBD_ERROR_BCACHE_SETUP_FAIL)
                       ("Failed to determine bcache device name for '"
                        ++ name ++ "'"))),
         upto)
  end.
Proof.
  intros backing argv pattern create start N X P Reg g upto.
  assert (Upto : run w create []
                 = let '(r, t) :=
                     run w
                       (match g with
                        | GlobMatches path _ =>
                            match glob_dev_name path with
                            | NameIs dev_name =>
                                bind (bd_kbd_bcache_attach set_uuid dev_name None)
                                  (fun x =>
                                     match x with
                                     | (success, error) =>
                                         if negb success
                                         then Ret (false, bcache_device,
                                                   g_prefix_error error
                                                     "Failed to attach the cache to the backing device: ")
                                         else Ret (true,
                                                   store bcache_device dev_name,
                                                   error)
                                     end)
                            | NameNull => Ret (false, bcache_device, None)
                            | NameNoEnd => Undef
                            end
                        | _ =>
                            Ret (false, bcache_device,
                                 g_set_error None BD_KBD_ERROR
                                   (kbd_code BD_KBD_ERROR_BCACHE_SETUP_FAIL)
                                   ("Failed to determine bcache device name for '"
                                    ++ name ++ "'"))
                        end) upto in
                   (r, (upto ++ t)%list)).
  { unfold create, bd_kbd_bcache_create. fold argv.
    rewrite run_call_bind. cbv zeta. rewrite X, P.
    assert (S : CStr.strrchr backing "/" = Some (String "/" name))
      by exact (strrchr_slash dir name N).
    rewrite S. cbn [CStr.ptr_add]. fold pattern. rewrite run_bind.
    change ([] ++ [Called (bd_utils_exec_and_capture_output argv)
                     (ExecOk output)])%list with start.
    rewrite Reg. cbn [negb]. rewrite run_call_bind. cbv zeta. fold g.
    replace ((start ++ t_reg) ++ [Called (glob pattern GLOB_NOSORT) g])%list
      with upto by (unfold upto; now rewrite <- app_assoc).
    destruct (run w _ upto) as [r t]. unfold upto, start.
    cbn [app]. now rewrite <- app_assoc. }
  rewrite Upto. destruct g as [first others| | |]; cbn [run];
    try now rewrite app_nil_r.
  intros c1 c2 c3 c4 more C.
  apply components_shape in C as (rest & -> & N1 & N2 & N3).
  rewrite (glob_dev_name_shape _ _ _ _ N1 N2 N3). rewrite run_bind.
  unfold bd_kbd_bcache_attach. rewrite (skip_dev_prefix_no_slash _ N3).
  destruct (run_echo w upto set_uuid ("/sys/block/" ++ c3 ++ "/bcache/attach")
              None) as (ok & err & t & R & O).
  exists ok, err, t. split; [exact R|]. split; [exact O|].
  rewrite R. destruct ok; cbn [negb run]; rewrite app_nil_r.
  - inversion O. reflexivity.
  - reflexivity.
Qed.

(** The only file [bd_kbd_bcache_detach] touches is the [bcache/detach] file
    of the device. *)
Lemma detach_calls (w : env) dev slot past r t c :
  run w (bd_kbd_bcache_detach dev slot None) past = (r, t) -> In c t ->
  is_channel_call c = true ->
  channel_path c
  = Some ("/sys/block/" ++ skip_dev_prefix dev ++ "/bcache/detach").
Proof.
  unfold bd_kbd_bcache_detach. name_answer rc.
  destruct (negb (rc =? 0)%Z).
  { cbn [run]. intro H. injection H as <- <-.
    intros [<-|[]] T. discriminate T. }
  answer ipattern:([link|e]).
  2:{ cbn [run]. intro H. injection H as <- <-.
      intros [<-|[<-|[]]] T; discriminate T. }
  destruct (CStr.strrchr link "/") as [uuid|].
  2:{ cbn [run]. intro H. injection H as <- <-.
      intros [<-|[<-|[]]] T; discriminate T. }
  rewrite run_bind.
  match goal with
  | |- context [run w (echo_str_to_file ?s ?p None) ?h] =>
      destruct (run_echo w h s p None) as (ok & err & te & Re & Oe)
  end.
  rewrite Re.
  destruct ok; cbn [negb run]; rewrite app_nil_r;
    intro H; injection H as <- <-;
    (intros [<-|[<-|H]] T; try discriminate T);
    eapply echo_outcome_calls; eassumption.
Qed.



(** The exit of [bd_kbd_bcache_create] behind [strrchr]: for a backing
    device without '/' the call fails once the tool has run and its output
    has been parsed, and nothing is stored in the error slot. *)
Lemma bcache_create_without_slash (w : env)
  (backing_device cache_device : string) (bcache_device : outparam)
  (output set_uuid : string) :
  let argv := ["make-bcache"; "-B"; backing_device; "-C"; cache_device] in
  no_slash backing_device ->
  w exec_result [] (bd_utils_exec_and_capture_output argv) = ExecOk output ->
  parse_set_uuid output = Some set_uuid ->
  run w (bd_kbd_bcache_create backing_device cache_device bcache_device None)
    []
  = (Some (false, bcache_device, None),
     [Called (bd_utils_exec_and_capture_output argv) (ExecOk output)]).
Proof.
  intros argv N X P. unfold bd_kbd_bcache_create. fold argv.
  rewrite run_call_bind. cbv zeta. rewrite X, P.
  now rewrite (strrchr_no_slash _ N).
Qed.

(** ** The detach, outcome by outcome *)

(** What [bd_kbd_bcache_detach] does apart from the kind of error it hands
    back for a failed write: an unreadable [bcache/cache] gives
    [BD_KBD_ERROR_BCACHE_NOT_ATTACHED] and the check is the only call made; a
    link target without '/' gives [BD_KBD_ERROR_BCACHE_UUID] and no write; a
    link target [.../<uuid>] has [uuid] written to the device's
    [bcache/detach] file, and when that goes through [uuid] is what the
    caller gets. *)
Theorem bcache_detach_outcomes (w : env) (bcache_device : string)
  (c_set_uuid : outparam) :
  let dev := skip_dev_prefix bcache_device in
  let cache := "/sys/block/" ++ dev ++ "/bcache/cache" in
  let detach := "/sys/block/" ++ dev ++ "/bcache/detach" in
  let run_detach :=
    run w (bd_kbd_bcache_detach bcache_device c_set_uuid None) [] in
  let rc := w Z [] (access cache R_OK) in
  let checked := [Called (access cache R_OK) rc] in
  let link := w readlink_result checked (g_file_read_link cache) in
  let looked := (checked ++ [Called (g_file_read_link cache) link])%list in
  (rc <> 0%Z ->
   run_detach
   = (Some (false, c_set_uuid,
            Some (mkGError BD_KBD_ERROR
                    (kbd_code BD_KBD_ERROR_BCACHE_NOT_ATTACHED)
                    ("No cache attached to '" ++ dev ++ "' or '" ++ dev
                     ++ "' not set up"))),
      checked))
  /\ (rc = 0%Z -> forall target,
      link = LinkTarget target -> no_slash target ->
      run_detach
      = (Some (false, c_set_uuid,
               Some (mkGError BD_KBD_ERROR
                       (kbd_code BD_KBD_ERROR_BCACHE_UUID)
                       ("Failed to determine cache set UUID for '" ++ dev
                        ++ "'"))),
         looked))
  /\ (rc = 0%Z -> forall dir uuid,
      link = LinkTarget (dir ++ "/" ++ uuid) -> no_slash uuid ->
      exists ok err t,
        run w (echo_str_to_file uuid detach None) looked = (Some (ok, err), t)
        /\ echo_outcome uuid detach None ok err t
        /\ run_detach
           = (Some (if ok then (true, store c_set_uuid uuid, None)
                    else (false, c_set_uuid, err)),
              (looked ++ t)%list)).
Proof.
  intros dev cache detach run_detach rc checked link looked.
  assert (Start : run_detach
                  = if negb (rc =? 0)%Z
                    then (Some (false, c_set_uuid,
                                g_set_error None BD_KBD_ERROR
                                  (kbd_code BD_KBD_ERROR_BCACHE_NOT_ATTACHED)
                                  ("No cache attached to '" ++ dev ++ "' or '"
                                   ++ dev ++ "' not set up")), checked)
                    else
                      let '(r, t) :=
                        run w
                          (match link with
                           | LinkFail e =>
                               Ret (false, c_set_uuid,
                                    g_prefix_error (g_propagate None e)
                                      ("Failed to determine cache set UUID for '"
                                       ++ dev ++ "'"))
                           | LinkTarget link =>
                               match CStr.strrchr link "/" with
                               | None =>
                                   Ret (false, c_set_uuid,
                                        g_set_error None BD_KBD_ERROR
                                          (kbd_code BD_KBD_ERROR_BCACHE_UUID)
                                          ("Failed to determine cache set UUID for '"
                                           ++ dev ++ "'"))
                               | Some uuid =>
                                   let uuid := CStr.ptr_add uuid 1 in
                                   bind (echo_str_to_file uuid detach None)
                                     (fun x =>
                                        match x with
                                        | (success, error) =>
                                            if negb success
                                            then Ret (false, c_set_uuid,
                                                      g_set_error error
                                                        BD_KBD_ERROR
                                                        (kbd_code
                                                           BD_KBD_ERROR_BCACHE_DETACH_FAIL)
                                                        ("Failed to detach '"
                                                         ++ uuid ++ "' from '"
                                                         ++ dev ++ "'"))
                                            else Ret (true,
                                                      store c_set_uuid uuid,
                                                      error)
                                        end)
                               end
                           end) looked in
                      (r, (looked ++ t)%list)).
  { unfold run_detach, bd_kbd_bcache_detach. fold dev cache detach.
    rewrite run_call_bind. cbv zeta. fold rc.
    destruct (negb (rc =? 0)%Z); [reflexivity|].
    rewrite run_call_bind. cbv zeta.
    change ([] ++ [Called (access cache R_OK) rc])%list with checked.
    fold link. fold looked. destruct (run w _ looked) as [r t]. reflexivity. }
  split; [|split].
  - intro H. rewrite Start. apply Z.eqb_neq in H. now rewrite H.
  - intros H target L N. rewrite Start, H, L. cbn [Z.eqb negb].
    rewrite (strrchr_no_slash _ N). cbn [run]. now rewrite app_nil_r.
  - intros H dir uuid L N. rewrite Start, H, L. cbn [Z.eqb negb].
    assert (S : CStr.strrchr (dir ++ "/" ++ uuid) "/"
                = Some (String "/" uuid)) by exact (strrchr_slash dir uuid N).
    rewrite S. cbn [CStr.ptr_add]. cbv zeta.
    destruct (run_echo w looked uuid detach None) as (ok & err & t & R & O).
    exists ok, err, t. split; [exact R|]. split; [exact O|].
    rewrite run_bind, R. destruct ok; cbn [negb run]; rewrite app_nil_r.
    + inversion O. reflexivity.
    + inversion O; reflexivity.
Qed.

(** ** Failures and the error slot *)

Ltac no_such_run :=
  let H := fresh in intro H; cbn [run negb] in H; discriminate H.

Lemma zram_activate_failure_error (w : env) n sizes nstreams past err t :
  run w (zram_activate n sizes nstreams None) past = (Some (false, err), t) ->
  err <> None.
Proof.
  assert (Sizes : forall p r2 t2,
             run w (set_disksizes (N.to_nat n) 0 sizes None) p = (r2, t2) ->
             r2 = Some (false, err) -> err <> None).
  { intros p r2 t2 R2 ->.
    exact (loop_failure_error disksize_file
             (fun i => "Failed to set size for '/dev/zram"
                       ++ CStr.fmt_u64 i ++ "': ")
             set_disksizes ltac:(reflexivity) ltac:(reflexivity)
             w _ _ _ _ _ _ _ R2). }
  unfold zram_activate. rewrite run_bind. destruct nstreams as [ns|].
  - destruct (run w (set_comp_streams (N.to_nat n) 0 ns None) past)
      as [[[ok1 e1]|] t1] eqn:R1; [|no_such_run].
    destruct ok1; cbn [negb].
    + destruct (loop_success max_comp_streams_file
                  (fun i => "Failed to set number of compression streams for '/dev/zram"
                            ++ CStr.fmt_u64 i ++ "': ")
                  set_comp_streams ltac:(reflexivity) ltac:(reflexivity)
                  w _ _ _ _ _ _ _ R1) as (-> & _ & _).
      destruct (run w (set_disksizes (N.to_nat n) 0 sizes None)
                  (past ++ t1)%list) as [r2 t2] eqn:R2.
      intro H. injection H as H _. eapply Sizes; eassumption.
    + cbn [run]. intro H. injection H as <- _.
      exact (loop_failure_error max_comp_streams_file
               (fun i => "Failed to set number of compression streams for '/dev/zram"
                         ++ CStr.fmt_u64 i ++ "': ")
               set_comp_streams ltac:(reflexivity) ltac:(reflexivity)
               w _ _ _ _ _ _ _ R1).
  - cbn [run negb].
    destruct (run w (set_disksizes (N.to_nat n) 0 sizes None)
                (past ++ [])%list) as [r2 t2] eqn:R2.
    intro H. injection H as H _. eapply Sizes; eassumption.
Qed.

Lemma detach_failure_error (w : env) dev slot past slot' err t :
  run w (bd_kbd_bcache_detach dev slot None) past
  = (Some (false, slot', err), t) ->
  err <> None.
Proof.
  unfold bd_kbd_bcache_detach. name_answer rc.
  destruct (negb (rc =? 0)%Z).
  { cbn [run]. intro H. injection H as _ <- _. first [discriminate | apply set_error_some]. }
  answer ipattern:([link|e]).
  2:{ cbn [run]. intro H. injection H as _ <- _. discriminate. }
  destruct (CStr.strrchr link "/") as [uuid|].
  2:{ cbn [run]. intro H. injection H as _ <- _. first [discriminate | apply set_error_some]. }
  rewrite run_bind.
  match goal with
  | |- context [run w (echo_str_to_file ?s ?p None) ?h] =>
      destruct (run_echo w h s p None) as (ok & err' & te & Re & Oe)
  end.
  rewrite Re. destruct ok; cbn [negb run]; [no_such_run|]; intro H.
  injection H as _ <- _. first [discriminate | apply set_error_some].
Qed.

(** Every failure of the public functions comes with an error in the slot
    the caller passed empty, with two exceptions, both in
    [bd_kbd_bcache_create]: the exit for a backing device without '/', and
    the exit for a glob match in which no third component can be found. *)
Theorem failures_carry_an_error (w : env) :
  (forall n sizes nstreams err t,
      run w (bd_kbd_zram_create_devices n sizes nstreams None) []
      = (Some (false, err), t) -> err <> None)
  /\ (forall err t,
      run w (bd_kbd_zram_destroy_devices None) [] = (Some (false, err), t) ->
      err <> None)
  /\ (forall c_set_uuid dev err t,
      run w (bd_kbd_bcache_attach c_set_uuid dev None) []
      = (Some (false, err), t) -> err <> None)
  /\ (forall dev slot slot' err t,
      run w (bd_kbd_bcache_detach dev slot None) []
      = (Some (false, slot', err), t) -> err <> None)
  /\ (forall dev err t,
      run w (bd_kbd_bcache_destroy dev None) [] = (Some (false, err), t) ->
      err <> None)
  /\ (forall backing_device cache_device slot slot' t,
      run w (bd_kbd_bcache_create backing_device cache_device slot None) []
      = (Some (false, slot', None), t) ->
      no_slash backing_device
      \/ exists c path others,
           In c t /\ glob_answer c = Some (GlobMatches path others)
           /\ glob_dev_name path = NameNull).
Proof.
  split; [|split; [|split; [|split; [|split]]]].
  - intros n sizes nstreams err t R.
    apply run_zram_create_shape in R
      as (t_mod & t_act & _ & _ & [(_ & e & E)|R]).
    + injection E as ->. discriminate.
    + eapply zram_activate_failure_error; eassumption.
  - intros err t R. unfold bd_kbd_zram_destroy_devices in R.
    destruct (run_unload w "zram" []) as (ok & e & t' & R' & _ & _ & F).
    rewrite R in R'. injection R' as <- <- _.
    destruct (F eq_refl) as (e' & -> & _). discriminate.
  - intros u dev err t R. unfold bd_kbd_bcache_attach in R.
    eapply echo_failure_error; eassumption.
  - intros dev slot slot' err t R.
    eapply detach_failure_error; eassumption.
  - intros dev err t. unfold bd_kbd_bcache_destroy. rewrite run_bind.
    destruct (run w (bd_kbd_bcache_detach (skip_dev_prefix dev) (Some None)
                       None) []) as [[[[ok1 s1] e1]|] t1] eqn:R1;
      [|no_such_run].
    destruct ok1; cbn [negb run].
    2:{ intro H. injection H as <- _.
        eapply detach_failure_error; eassumption. }
    destruct s1 as [[u|]|]; try no_such_run.
    rewrite run_bind.
    match goal with
    | |- context [run w (echo_str_to_file ?s ?p ?e) ?h] =>
        destruct (run w (echo_str_to_file s p e) h)
          as [[[ok2 e2]|] t2] eqn:R2; [|no_such_run]
    end.
    destruct ok2; cbn [negb run].
    2:{ intro H. injection H as <- _. apply prefix_some.
        eapply echo_failure_error; eassumption. }
    rewrite run_bind.
    match goal with
    | |- context [run w (echo_str_to_file ?s ?p ?e) ?h] =>
        destruct (run w (echo_str_to_file s p e) h)
          as [[[ok3 e3]|] t3] eqn:R3; [|no_such_run]
    end.
    destruct ok3; cbn [negb run]; [no_such_run|].
    intro H. injection H as <- _. apply prefix_some.
    eapply echo_failure_error; eassumption.
  - intros backing cache slot slot' t. unfold bd_kbd_bcache_create.
    answer ipattern:([output|e]).
    2:{ cbn [run]. no_such_run. }
    destruct (parse_set_uuid output) as [set_uuid|].
    2:{ cbn [run]. intro H. injection H as _ H _. discriminate H. }
    destruct (CStr.strrchr backing "/") as [dev_name|] eqn:S.
    2:{ intros _. left. now apply strrchr_none_no_slash. }
    rewrite run_bind.
    match goal with
    | |- context [run w (echo_str_to_file ?s ?p ?e) ?h] =>
        destruct (run w (echo_str_to_file s p e) h)
          as [[[ok2 e2]|] t2] eqn:R2; [|no_such_run]
    end.
    destruct ok2; cbn [negb run].
    2:{ intro H. injection H as _ H _. subst e2.
        now apply echo_failure_error in R2. }
    answer ipattern:([path others| | |]);
      try (cbn [run]; intro H; injection H as _ H _;
           now apply set_error_some in H).
    destruct (glob_dev_name path) eqn:G.
    + rewrite run_bind.
      match goal with
      | |- context [run w (bd_kbd_bcache_attach ?u ?d ?e) ?h] =>
          destruct (run w (bd_kbd_bcache_attach u d e) h)
            as [[[ok3 e3]|] t3] eqn:R3; [|no_such_run]
      end.
      destruct ok3; cbn [negb run]; [no_such_run|].
      intro H. injection H as _ H _. exfalso.
      unfold bd_kbd_bcache_attach in R3. apply echo_failure_error in R3.
      now apply (prefix_some _ "Failed to attach the cache to the backing device: ")
        in R3.
    + cbn [run]. intro H. injection H as _ _ <-. right.
      eexists _, path, others. split; [|split; [|exact G]].
      * right. apply in_or_app. right. now left.
      * reflexivity.
    + cbn [run]. no_such_run.
Qed.


(* ================================================================== *)
(** * More on the code: paths, the parser *)

Lemma strchr_length s c r :
  CStr.strchr s c = Some r -> String.length r <= String.length s.
Proof.
  induction s as [|a s IH]; simpl; [discriminate|].
  destruct (Ascii.eqb a c).
  - intro H. injection H as <-. simpl. lia.
  - intro H. apply IH in H. lia.
Qed.

(** [strchr] cuts a path the way [components] does. *)
Lemma components_by_strchr s :
  components s =
  match CStr.strchr s "/" with
  | None => [s]
  | Some r =>
      CStr.g_strndup s (Z.to_nat (CStr.ptr_diff r s))
      :: components (CStr.ptr_add r 1)
  end.
Proof.
  induction s as [|a s IH]; [reflexivity|].
  cbn [components CStr.strchr]. destruct (Ascii.eqb a "/") eqn:E.
  - unfold CStr.ptr_diff. rewrite Z.sub_diag. reflexivity.
  - rewrite IH. destruct (CStr.strchr s "/") as [r|] eqn:Hr; [|reflexivity].
    apply strchr_length in Hr. unfold CStr.ptr_diff.
    replace (Z.to_nat (Z.of_nat (String.length (String a s))
                       - Z.of_nat (String.length r)))
      with (S (Z.to_nat (Z.of_nat (String.length s)
                         - Z.of_nat (String.length r))))
      by (cbn [String.length]; lia).
    reflexivity.
Qed.

Lemma glob_dev_name_eq (a : ascii) (p : string) :
  glob_dev_name (String a p) =
  match components p with
  | _ :: _ :: c3 :: _ :: _ => NameIs c3
  | [_; _; _] => NameNoEnd
  | _ => NameNull
  end.
Proof.
  unfold glob_dev_name. cbn [skip_slashes].
  rewrite (components_by_strchr p).
  destruct (CStr.strchr p "/") as [r1|]; [|reflexivity].
  rewrite (components_by_strchr (CStr.ptr_add r1 1)).
  destruct (CStr.strchr (CStr.ptr_add r1 1) "/") as [r2|]; [|reflexivity].
  rewrite (components_by_strchr (CStr.ptr_add r2 1)).
  destruct (CStr.strchr (CStr.ptr_add r2 1) "/") as [r3|]; [|reflexivity].
  destruct (components (CStr.ptr_add r3 1)) eqn:C;
    [now apply components_nonempty in C | reflexivity].
Qed.

Lemma glob_dev_name_no_slash (path dev_name : string) :
  glob_dev_name path = NameIs dev_name -> no_slash dev_name.
Proof.
  destruct path as [|a p]; [discriminate|].
  rewrite glob_dev_name_eq. intro H.
  destruct (components p) as [|c1 [|c2 [|c3 [|c4 more]]]] eqn:C;
    try discriminate H.
  injection H as <-.
  apply components_head in C as (_ & s1 & _ & C).
  apply components_head in C as (_ & s2 & _ & C).
  now apply components_head in C as (N3 & _).
Qed.

(** The name [bd_kbd_bcache_create] cuts out of a glob match, for every path
    there is: with [p] what follows the first character, the name is the
    third component of [p] when a fourth one follows it; with exactly three
    components the end of the name is not found and the copy is undefined;
    with fewer the function returns through its [NULL] exit.  A name that
    comes out never holds a '/'. *)
Theorem glob_dev_name_by_components (a : ascii) (p : string) :
  glob_dev_name (String a p) =
  match components p with
  | _ :: _ :: c3 :: _ :: _ => NameIs c3
  | [_; _; _] => NameNoEnd
  | _ => NameNull
  end
  /\ forall dev_name, glob_dev_name (String a p) = NameIs dev_name ->
       no_slash dev_name.
Proof.
  split; [apply glob_dev_name_eq|].
  intros d. apply glob_dev_name_no_slash.
Qed.




(* ================================================================== *)
(** * More on the zRAM manager *)

Lemma rounds_written_seq file vs done :
  forall i,
    (forall k, k < done -> nth_error vs (N.to_nat i + k) <> None) ->
    rounds_written file done i vs =
    flat_map
      (fun k => written (CStr.fmt_u64 (nth k vs 0%N)) (file (N.of_nat k)))
      (seq (N.to_nat i) done).
Proof.
  induction done as [|done IH]; intros i H; [reflexivity|].
  cbn [rounds_written seq flat_map].
  destruct (nth_error vs (N.to_nat i)) as [v|] eqn:V.
  2:{ exfalso. apply (H 0); [lia|]. now rewrite Nat.add_0_r. }
  rewrite (nth_error_nth _ _ 0%N V), N2Nat.id. f_equal.
  rewrite IH.
  - now replace (N.to_nat (i + 1)) with (S (N.to_nat i)) by lia.
  - intros k Hk. replace (N.to_nat (i + 1) + k) with (N.to_nat i + S k) by lia.
    apply H. lia.
Qed.

Lemma rounds_written_all file vs done :
  (forall k, k < done -> nth_error vs k <> None) ->
  rounds_written file done 0 vs = all_written file done vs.
Proof. intro H. now apply rounds_written_seq. Qed.

Lemma all_there {A : Type} (vs : list A) n :
  (forall k, k < n -> nth_error vs k <> None) -> n <= List.length vs.
Proof.
  intro H. destruct (Nat.le_gt_cases n (List.length vs)) as [L|L]; [exact L|].
  exfalso. apply (H (List.length vs) L). now apply nth_error_None.
Qed.

(** The devices are activated with or without stream counts. *)
Lemma run_zram_activate_any (w : env) n sizes nstreams past r t :
  run w (zram_activate n sizes nstreams None) past = (r, t) ->
  exists t_streams t_sizes,
    t = (t_streams ++ t_sizes)%list
    /\ (forall c, In c t_streams -> streams_call c)
    /\ (nstreams = None -> t_streams = [])
    /\ ((clean t_streams
         /\ (forall ns, nstreams = Some ns ->
               t_streams
               = all_written max_comp_streams_file (N.to_nat n) ns
               /\ N.to_nat n <= List.length ns)
         /\ run w (set_disksizes (N.to_nat n) 0 sizes None)
              (past ++ t_streams)%list = (r, t_sizes))
        \/ (t_sizes = [] /\ r <> Some (true, None)
            /\ exists ns,
                 nstreams = Some ns
                 /\ run w (set_comp_streams (N.to_nat n) 0 ns None) past
                    = (r, t_streams))).
Proof.
  destruct nstreams as [ns|].
  - intro R. apply run_zram_activate in R
      as (t1 & t2 & r1 & -> & R1 & [(-> & R2)|(N1 & -> & ->)]).
    + exists t1, t2. split; [reflexivity|].
      split; [intros c; eapply comp_streams_calls; eassumption|].
      split; [discriminate|]. left.
      destruct (loop_success max_comp_streams_file
                  (fun i => "Failed to set number of compression streams for '/dev/zram"
                            ++ CStr.fmt_u64 i ++ "': ")
                  set_comp_streams ltac:(reflexivity) ltac:(reflexivity)
                  w _ _ _ _ _ _ _ R1) as (_ & E & NN).
      split; [|split; [|exact R2]].
      * intros c H. rewrite E in H.
        now apply rounds_written_calls in H.
      * intros ns' H. injection H as <-.
        split; [rewrite E; now apply rounds_written_all | now apply all_there].
    + exists t1, []. split; [reflexivity|].
      split; [intros c; eapply comp_streams_calls; eassumption|].
      split; [discriminate|]. right. split; [reflexivity|].
      split; [exact N1|]. now exists ns.
  - unfold zram_activate. rewrite run_bind. cbn [run negb].
    destruct (run w (set_disksizes (N.to_nat n) 0 sizes None)
                (past ++ [])%list) as [r2 t2] eqn:R2.
    intro H. injection H as <- <-. exists [], t2.
    split; [reflexivity|]. split; [intros c []|]. split; [reflexivity|].
    left. split; [intros c []|]. split; [discriminate | exact R2].
Qed.

(** When [bd_kbd_zram_create_devices] returns success, the error slot is
    empty, both arrays were long enough, and behind the module calls the run
    consists of exactly this: the stream count of every device written, in
    the order of the devices (if stream counts were given at all), and then
    the size of every device written, in the order of the devices, each
    number in decimal. *)
Theorem zram_create_success (w : env) (num_devices : N) (sizes : list N)
  (nstreams : option (list N)) (err : errslot) (t : trace) :
  run w (bd_kbd_zram_create_devices num_devices sizes nstreams None) []
  = (Some (true, err), t) ->
  err = None
  /\ N.to_nat num_devices <= List.length sizes
  /\ (forall ns, nstreams = Some ns ->
        N.to_nat num_devices <= List.length ns)
  /\ exists t_mod,
       quiet t_mod
       /\ t = (t_mod
               ++ match nstreams with
                  | Some ns =>
                      all_written max_comp_streams_file
                        (N.to_nat num_devices) ns
                  | None => []
                  end
               ++ all_written disksize_file (N.to_nat num_devices) sizes)%list.
Proof.
  intro R. apply run_zram_create_shape in R
    as (t_mod & t_act & -> & Q & [(_ & e & E)|R]); [discriminate E|].
  apply run_zram_activate_any in R
    as (t1 & t2 & -> & _ & NoS & [(_ & S1 & R2)|(_ & NS & ns & -> & R1)]).
  - destruct (loop_success disksize_file
                (fun i => "Failed to set size for '/dev/zram"
                          ++ CStr.fmt_u64 i ++ "': ")
                set_disksizes ltac:(reflexivity) ltac:(reflexivity)
                w _ _ _ _ _ _ _ R2) as (-> & -> & NN).
    split; [reflexivity|]. split; [now apply all_there|].
    split; [intros ns H; now apply S1|].
    exists t_mod. split; [exact Q|]. rewrite (rounds_written_all _ _ _ NN).
    destruct nstreams as [ns|].
    + now rewrite (proj1 (S1 ns eq_refl)).
    + now rewrite (NoS eq_refl).
  - exfalso.
    destruct (loop_success max_comp_streams_file
                (fun i => "Failed to set number of compression streams for '/dev/zram"
                          ++ CStr.fmt_u64 i ++ "': ")
                set_comp_streams ltac:(reflexivity) ltac:(reflexivity)
                w _ _ _ _ _ _ _ R1) as (-> & _ & _).
    now apply NS.
Qed.




(** When a call on the [disksize] file of device [i] fails in a run of
    [bd_kbd_zram_create_devices], [i] is one of the devices asked for, the
    result is failure with the error of that call under a message that starts
    by naming [/dev/zram<i>], and the sizes of all devices below [i] have
    been written before, in full and in order: they stay as they are. *)
Theorem zram_size_failure (w : env) (num_devices : N) (sizes : list N)
  (nstreams : option (list N)) (r : option (bool * errslot)) (t : trace)
  (i : N) (c : entry) (e : GError) :
  run w (bd_kbd_zram_create_devices num_devices sizes nstreams None) []
  = (r, t) ->
  In c t -> channel_path c = Some (disksize_file i) ->
  channel_failure c = Some e ->
  (i < num_devices)%N
  /\ exists v rest t_before t_fail,
       nth_error sizes (N.to_nat i) = Some v
       /\ r = Some (false,
                    Some (mkGError (domain e) (code e)
                            ("Failed to set size for '/dev/zram"
                             ++ CStr.fmt_u64 i ++ "': " ++ rest)))
       /\ t = (t_before
               ++ all_written disksize_file (N.to_nat i) sizes
               ++ t_fail)%list
       /\ (forall d, In d t_before -> ~ disksize_call d)
       /\ (forall d, In d t_fail -> channel_path d = Some (disksize_file i)).
Proof.
  intros R Hc Pc Fc.
  assert (Dc : disksize_call c) by now exists i.
  apply run_zram_create_shape in R
    as (t_mod & t_act & -> & Q & [(-> & _)|R]).
  { exfalso. rewrite app_nil_r in Hc. apply Q in Hc.
    rewrite (disksize_call_is_channel c Dc) in Hc. discriminate Hc. }
  apply run_zram_activate_any in R as (t1 & t2 & -> & S1 & _ & Cases).
  assert (H2 : In c t2).
  { apply in_app_or in Hc as [Hc|Hc].
    - exfalso. apply Q in Hc.
      rewrite (disksize_call_is_channel c Dc) in Hc. discriminate Hc.
    - apply in_app_or in Hc as [Hc|Hc]; [|exact Hc].
      exfalso. exact (streams_call_not_disksize c (S1 c Hc) Dc). }
  destruct Cases as [(_ & _ & R2)|(-> & _)]; [|destruct H2].
  destruct (run_loop disksize_file
              (fun i => "Failed to set size for '/dev/zram"
                        ++ CStr.fmt_u64 i ++ "': ")
              set_disksizes ltac:(reflexivity) ltac:(reflexivity)
              w (N.to_nat num_devices) 0%N sizes None (t_mod ++ t1)%list)
    as (done & _ & Hk & Hr).
  change (N.to_nat 0 + done) with done in Hr. rewrite N.add_0_l in Hr.
  assert (Hk' : forall k, k < done -> nth_error sizes k <> None) by exact Hk.
  clear Hk. rename Hk' into Hk.
  destruct Hr as [(_ & Hr)|[(_ & _ & Hr)|(Hd & v & err & tf & Hv & Ho & Hr)]];
    rewrite Hr in R2; injection R2 as <- <-.
  - apply rounds_written_calls in H2 as [_ H2]. congruence.
  - apply rounds_written_calls in H2 as [_ H2]. congruence.
  - apply in_app_or in H2 as [H2|H2];
      [apply rounds_written_calls in H2 as [_ H2]; congruence|].
    pose proof (echo_outcome_calls _ _ _ _ _ _ c Ho H2) as Pd.
    assert (i = N.of_nat done) as ->
        by (apply disksize_file_inj; congruence).
    destruct (echo_outcome_failure _ _ _ _ _ _ _ _ Ho H2 Fc) as (_ & pre & ->).
    split; [lia|]. rewrite Nat2N.id.
    exists v, (pre ++ message e), (t_mod ++ t1)%list, tf.
    split; [exact Hv|]. split.
    { refine (f_equal
                (fun m => Some (false, Some (mkGError (domain e) (code e) m)))
                (_ : ("Failed to set size for '/dev/zram"
                      ++ CStr.fmt_u64 (N.of_nat done) ++ "': ")
                     ++ pre ++ message e
                     = "Failed to set size for '/dev/zram"
                       ++ CStr.fmt_u64 (N.of_nat done) ++ "': "
                       ++ pre ++ message e)).
      now rewrite !append_assoc. }
    split.
    { rewrite (rounds_written_all _ _ _ Hk). now rewrite <- !app_assoc. }
    split.
    + intros d Hd' Dd. apply in_app_or in Hd' as [Hd'|Hd'].
      * apply Q in Hd'. rewrite (disksize_call_is_channel d Dd) in Hd'.
        discriminate Hd'.
      * exact (streams_call_not_disksize d (S1 d Hd') Dd).
    + intros d Hd'. eapply echo_outcome_calls; eassumption.
Qed.


(* ================================================================== *)
(** * Nothing is called after a call on a file has failed *)

Lemma not_channel_no_failure c :
  is_channel_call c = false -> channel_failure c = None.
Proof.
  destruct c as [X e a]. unfold is_channel_call, channel_path.
  destruct e; cbn; intro H; first [reflexivity | discriminate H].
Qed.

Lemma quiet_clean t : quiet t -> clean t.
Proof. intros Q c H. apply not_channel_no_failure, Q, H. Qed.

Lemma clean_nil : clean [].
Proof. intros c []. Qed.

Lemma clean_app t u : clean t -> clean u -> clean (t ++ u)%list.
Proof. intros Ct Cu c H. apply in_app_or in H as [H|H]; auto. Qed.

Lemma clean_one a : channel_failure a = None -> clean [a].
Proof. intros Ha c [<-|[]]. exact Ha. Qed.

Lemma clean_two a b :
  channel_failure a = None -> channel_failure b = None -> clean [a; b].
Proof. intros Ha Hb c [<-|[<-|[]]]; assumption. Qed.

Lemma clean_written str path : clean (written str path).
Proof. intros c H. now apply written_calls in H. Qed.

Lemma clean_stops t : clean t -> stops_at_failure t.
Proof.
  intros C t1 c t2 -> F. exfalso. apply F, C, in_elt.
Qed.

Lemma stops_single c : stops_at_failure [c].
Proof.
  intros [|x [|y t1]] d t2 E F; [now injection E | discriminate E..].
Qed.

Lemma stops_app t u :
  clean t -> stops_at_failure u -> stops_at_failure (t ++ u)%list.
Proof.
  intros C S t1 c t2 E F.
  apply app_eq_app in E as (l & [(E1 & E2)|(E1 & E2)]).
  - destruct l as [|x l].
    + apply (S [] c t2); [now symmetry | exact F].
    + exfalso. injection E2 as <- _. apply F, C. rewrite E1. apply in_elt.
  - exact (S l c t2 E2 F).
Qed.

Lemma echo_outcome_stops str path e ok err t :
  echo_outcome str path e ok err t ->
  stops_at_failure t /\ (ok = true -> clean t).
Proof.
  intro O. destruct O as [|e0|e0|e0].
  - split; [apply clean_stops|intros _]; apply clean_written.
  - split; [apply stops_single | discriminate].
  - split; [|discriminate].
    apply (stops_app [Called (g_io_channel_new_file path "w") GOk]);
      [|apply stops_single].
    intros c [<-|[]]. reflexivity.
  - split; [|discriminate].
    apply (stops_app [Called (g_io_channel_new_file path "w") GOk;
                      Called (g_io_channel_write_chars path str) GOk]);
      [|apply stops_single].
    intros c [<-|[<-|[]]]; reflexivity.
Qed.

Lemma echo_stops (w : env) str path e past r t :
  run w (echo_str_to_file str path e) past = (r, t) ->
  stops_at_failure t /\ (forall e', r = Some (true, e') -> clean t).
Proof.
  intro R. destruct (run_echo w past str path e) as (ok & err & t' & R' & O).
  rewrite R in R'. injection R' as -> ->.
  apply echo_outcome_stops in O as [S C]. split; [exact S|].
  intros e' H. injection H as -> _. now apply C.
Qed.

Lemma loop_stops (file context : N -> string)
  (loop : nat -> N -> list N -> errslot -> Prog (bool * errslot))
  (loop_0 : forall i vs e, loop 0 i vs e = Ret (true, e))
  (loop_S : forall todo i vs e,
      loop (S todo) i vs e =
      match nth_error vs (N.to_nat i) with
      | None => Undef
      | Some n =>
          bind (echo_str_to_file (CStr.fmt_u64 n) (file i) e)
            (fun x =>
               match x with
               | (success, error) =>
                   if negb success
                   then Ret (false, g_prefix_error error (context i))
                   else loop todo (i + 1)%N vs error
               end)
      end)
  (w : env) todo i vs e past r t :
  run w (loop todo i vs e) past = (r, t) ->
  stops_at_failure t /\ (forall e', r = Some (true, e') -> clean t).
Proof.
  intro R.
  assert (C : forall done j, clean (rounds_written file done j vs))
    by (intros done j c H; now apply rounds_written_calls in H).
  destruct (run_loop file context loop loop_0 loop_S w todo i vs e past)
    as (done & _ & _ & Hc).
  destruct Hc as [(_ & Hr)|[(_ & _ & Hr)|(_ & v & err & tf & _ & Ho & Hr)]];
    rewrite Hr in R; injection R as <- <-.
  - split; [apply clean_stops|intros _ _]; apply C.
  - split; [apply clean_stops, C | discriminate].
  - split; [|discriminate].
    apply stops_app; [apply C|]. now apply echo_outcome_stops in Ho.
Qed.

Lemma zram_activate_stops (w : env) n sizes nstreams past r t :
  run w (zram_activate n sizes nstreams None) past = (r, t) ->
  stops_at_failure t /\ (forall e, r = Some (true, e) -> clean t).
Proof.
  intro R. apply run_zram_activate_any in R
    as (t1 & t2 & -> & _ & _ & [(C1 & _ & R2)|(-> & NS & ns & _ & R1)]).
  - apply (loop_stops disksize_file
             (fun i => "Failed to set size for '/dev/zram"
                       ++ CStr.fmt_u64 i ++ "': ")
             set_disksizes ltac:(reflexivity) ltac:(reflexivity))
      in R2 as [S2 C2].
    split; [now apply stops_app|].
    intros e H. apply clean_app; [exact C1 | now apply (C2 e)].
  - rewrite app_nil_r.
    pose proof R1 as R1'.
    apply (loop_stops max_comp_streams_file
             (fun i => "Failed to set number of compression streams for '/dev/zram"
                       ++ CStr.fmt_u64 i ++ "': ")
             set_comp_streams ltac:(reflexivity) ltac:(reflexivity))
      in R1 as [S1 C1].
    split; [exact S1|]. intros e H. now apply (C1 e).
Qed.

Lemma detach_stops (w : env) dev slot past r t :
  run w (bd_kbd_bcache_detach dev slot None) past = (r, t) ->
  stops_at_failure t /\ (forall s e, r = Some (true, s, e) -> clean t).
Proof.
  unfold bd_kbd_bcache_detach. name_answer rc.
  destruct (negb (rc =? 0)%Z).
  { cbn [run]. intro H. injection H as <- <-.
    split; [|discriminate]. apply stops_single. }
  answer ipattern:([link|e]).
  2:{ cbn [run]. intro H. injection H as <- <-.
      split; [|discriminate]. apply clean_stops.
      intros c [<-|[<-|[]]]; reflexivity. }
  destruct (CStr.strrchr link "/") as [uuid|].
  2:{ cbn [run]. intro H. injection H as <- <-.
      split; [|discriminate]. apply clean_stops.
      intros c [<-|[<-|[]]]; reflexivity. }
  rewrite run_bind.
  match goal with
  | |- context [run w (echo_str_to_file ?s ?p None) ?h] =>
      destruct (run_echo w h s p None) as (ok & err & te & Re & Oe)
  end.
  rewrite Re. apply echo_outcome_stops in Oe as [Se Ce].
  destruct ok; cbn [negb run]; rewrite app_nil_r;
    intro H; injection H as <- <-.
  - split; [apply (stops_app [_; _]); [apply clean_two; reflexivity|exact Se]|].
    intros _ _ _. apply (clean_app [_; _]); [apply clean_two; reflexivity|].
    now apply Ce.
  - split; [|discriminate].
    apply (stops_app [_; _]); [apply clean_two; reflexivity|exact Se].
Qed.

Lemma destroy_stops (w : env) dev r t :
  run w (bd_kbd_bcache_destroy dev None) [] = (r, t) ->
  stops_at_failure t /\ (forall e, r = Some (true, e) -> clean t).
Proof.
  unfold bd_kbd_bcache_destroy. rewrite run_bind.
  destruct (run w (bd_kbd_bcache_detach (skip_dev_prefix dev) (Some None)
                     None) []) as [[[[ok1 s1] e1]|] t1] eqn:R1.
  2:{ intro H. injection H as <- <-. apply detach_stops in R1 as [S1 _].
      split; [exact S1 | discriminate]. }
  apply detach_stops in R1 as [S1 C1]. cbn [app].
  destruct ok1; cbn [negb run].
  2:{ intro H. injection H as <- <-. rewrite app_nil_r.
      split; [exact S1 | discriminate]. }
  specialize (C1 _ _ eq_refl).
  destruct s1 as [[u|]|];
    try (cbn [run]; intro H; injection H as <- <-; rewrite app_nil_r;
         split; [exact S1 | discriminate]).
  rewrite run_bind.
  match goal with
  | |- context [run w (echo_str_to_file ?s ?p ?e) ?h] =>
      destruct (run_echo w h s p e) as (ok2 & e2 & t2 & R2 & O2)
  end.
  rewrite R2. apply echo_outcome_stops in O2 as [S2 C2].
  destruct ok2; cbn [negb run].
  2:{ intro H. injection H as <- <-. rewrite app_nil_r.
      split; [now apply stops_app | discriminate]. }
  specialize (C2 eq_refl). rewrite run_bind.
  match goal with
  | |- context [run w (echo_str_to_file ?s ?p ?e) ?h] =>
      destruct (run_echo w h s p e) as (ok3 & e3 & t3 & R3 & O3)
  end.
  rewrite R3. apply echo_outcome_stops in O3 as [S3 C3].
  destruct ok3; cbn [negb run]; rewrite app_nil_r;
    intro H; injection H as <- <-.
  - split; [|intros _ _]; auto using stops_app, clean_app, clean_stops.
  - split; [|discriminate]. auto using stops_app, clean_app.
Qed.

Lemma create_stops (w : env) backing cache slot r t :
  run w (bd_kbd_bcache_create backing cache slot None) [] = (r, t) ->
  stops_at_failure t /\ (forall s e, r = Some (true, s, e) -> clean t).
Proof.
  unfold bd_kbd_bcache_create.
  answer ipattern:([output|e]).
  2:{ cbn [run]. intro H. injection H as <- <-.
      split; [apply stops_single | discriminate]. }
  destruct (parse_set_uuid output) as [set_uuid|].
  2:{ cbn [run]. intro H. injection H as <- <-.
      split; [apply stops_single | discriminate]. }
  destruct (CStr.strrchr backing "/") as [dev_name|].
  2:{ cbn [run]. intro H. injection H as <- <-.
      split; [apply stops_single | discriminate]. }
  assert (C0 : clean [Called (bd_utils_exec_and_capture_output
                                ["make-bcache"; "-B"; backing; "-C"; cache])
                        (ExecOk output)]) by now apply clean_one.
  rewrite run_bind.
  match goal with
  | |- context [run w (echo_str_to_file ?s ?p ?e) ?h] =>
      destruct (run_echo w h s p e) as (ok2 & e2 & t2 & R2 & O2)
  end.
  rewrite R2. apply echo_outcome_stops in O2 as [S2 C2].
  destruct ok2; cbn [negb run].
  2:{ intro H. injection H as <- <-. rewrite app_nil_r.
      split; [apply (stops_app [_]); assumption | discriminate]. }
  specialize (C2 eq_refl).
  name_answer g.
  assert (Stop : forall u,
             stops_at_failure u ->
             stops_at_failure
               (Called (bd_utils_exec_and_capture_output
                          ["make-bcache"; "-B"; backing; "-C"; cache])
                  (ExecOk output)
                :: t2
                ++ Called (glob ("/sys/block/*/slaves/"
                                 ++ CStr.ptr_add dev_name 1) GLOB_NOSORT) g
                   :: u)%list).
  { intros u Su. apply (stops_app [_]); [exact C0|].
    apply stops_app; [exact C2|].
    apply (stops_app [_]); [now apply clean_one | exact Su]. }
  assert (Clean : forall u,
             clean u ->
             clean
               (Called (bd_utils_exec_and_capture_output
                          ["make-bcache"; "-B"; backing; "-C"; cache])
                  (ExecOk output)
                :: t2
                ++ Called (glob ("/sys/block/*/slaves/"
                                 ++ CStr.ptr_add dev_name 1) GLOB_NOSORT) g
                   :: u)%list).
  { intros u Cu. apply (clean_app [_]); [exact C0|].
    apply clean_app; [exact C2|].
    apply (clean_app [_]); [now apply clean_one | exact Cu]. }
  destruct g as [path others| | |];
    try (cbn [run]; intro H; injection H as <- <-;
         split; [|discriminate]; apply Stop, clean_stops, clean_nil).
  destruct (glob_dev_name path).
  - rewrite run_bind. unfold bd_kbd_bcache_attach.
    match goal with
    | |- context [run w (echo_str_to_file ?s ?p ?e) ?h] =>
        destruct (run_echo w h s p e) as (ok3 & e3 & t3 & R3 & O3)
    end.
    rewrite R3. apply echo_outcome_stops in O3 as [S3 C3].
    destruct ok3; cbn [negb run]; rewrite app_nil_r;
      intro H; injection H as <- <-.
    + split; [now apply Stop|]. intros _ _ _. now apply Clean, C3.
    + split; [now apply Stop | discriminate].
  - cbn [run]. intro H. injection H as <- <-. split; [|discriminate].
    apply Stop, clean_stops, clean_nil.
  - cbn [run]. intro H. injection H as <- <-. split; [|discriminate].
    apply Stop, clean_stops, clean_nil.
Qed.

(** In every run of a public function, a call on a sysfs file that fails is
    the last call of the run: after a failed open, write or close nothing
    else is opened, written, loaded or unloaded.  And a run that returns
    success holds no failed call at all. *)
Theorem failed_call_ends_the_run (w : env) :
  (forall n sizes nstreams r t,
      run w (bd_kbd_zram_create_devices n sizes nstreams None) [] = (r, t) ->
      stops_at_failure t /\ (forall e, r = Some (true, e) -> clean t))
  /\ (forall r t,
      run w (bd_kbd_zram_destroy_devices None) [] = (r, t) -> clean t)
  /\ (forall c_set_uuid dev r t,
      run w (bd_kbd_bcache_attach c_set_uuid dev None) [] = (r, t) ->
      stops_at_failure t /\ (forall e, r = Some (true, e) -> clean t))
  /\ (forall dev slot r t,
      run w (bd_kbd_bcache_detach dev slot None) [] = (r, t) ->
      stops_at_failure t /\ (forall s e, r = Some (true, s, e) -> clean t))
  /\ (forall dev r t,
      run w (bd_kbd_bcache_destroy dev None) [] = (r, t) ->
      stops_at_failure t /\ (forall e, r = Some (true, e) -> clean t))
  /\ (forall backing_device cache_device slot r t,
      run w (bd_kbd_bcache_create backing_device cache_device slot None) []
      = (r, t) ->
      stops_at_failure t /\ (forall s e, r = Some (true, s, e) -> clean t)).
Proof.
  split; [|split; [|split; [|split; [|split]]]].
  - intros n sizes nstreams r t R.
    apply run_zram_create_shape in R
      as (t_mod & t_act & -> & Q & [(-> & e & ->)|R]).
    + rewrite app_nil_r. split; [|discriminate].
      now apply clean_stops, quiet_clean.
    + apply zram_activate_stops in R as [S C]. apply quiet_clean in Q.
      split; [now apply stops_app|].
      intros e H. apply clean_app; [exact Q | now apply (C e)].
  - intros r t R. unfold bd_kbd_zram_destroy_devices in R.
    destruct (run_unload w "zram" []) as (ok & e & t' & R' & Q & _).
    rewrite R in R'. injection R' as _ ->. now apply quiet_clean.
  - intros u dev r t R. unfold bd_kbd_bcache_attach in R.
    eapply echo_stops; eassumption.
  - intros dev slot r t R. eapply detach_stops; eassumption.
  - intros dev r t R. eapply destroy_stops; eassumption.
  - intros backing cache slot r t R. eapply create_stops; eassumption.
Qed.


(* ================================================================== *)
(** * More on the bcache manager *)

(** What [strrchr] finds is the last '/' and what follows it. *)
Lemma strrchr_some s p :
  CStr.strrchr s "/" = Some p ->
  exists dir name,
    s = dir ++ String "/" name /\ p = String "/" name /\ no_slash name.
Proof.
  revert p. induction s as [|a s IH]; intros p H; [discriminate H|].
  cbn [CStr.strrchr] in H.
  destruct (CStr.strrchr s "/") as [r|] eqn:R.
  - injection H as <-. destruct (IH r eq_refl) as (dir & name & -> & -> & N).
    now exists (String a dir), name.
  - destruct (Ascii.eqb a "/") eqn:E; [|discriminate H].
    injection H as <-. apply Ascii.eqb_eq in E. subst a.
    exists "", s. repeat split. now apply strrchr_none_no_slash.
Qed.

(** Every run of [bd_kbd_bcache_detach] comes back with a result, and a
    successful one has checked the link, read it and written its last
    component to the detach file. *)
Lemma run_detach (w : env) dev slot past :
  let cache := "/sys/block/" ++ skip_dev_prefix dev ++ "/bcache/cache" in
  let detach := "/sys/block/" ++ skip_dev_prefix dev ++ "/bcache/detach" in
  exists ok slot' err t,
    run w (bd_kbd_bcache_detach dev slot None) past
    = (Some (ok, slot', err), t)
    /\ (ok = false -> slot' = slot)
    /\ (ok = true ->
        err = None
        /\ exists dir uuid,
             no_slash uuid
             /\ slot' = store slot uuid
             /\ t = (Called (access cache R_OK) 0%Z
                     :: Called (g_file_read_link cache)
                          (LinkTarget (dir ++ "/" ++ uuid))
                     :: written uuid detach)%list).
Proof.
  intros cache detach. unfold bd_kbd_bcache_detach. fold cache detach.
  name_answer rc. destruct (rc =? 0)%Z eqn:Erc; cbn [negb].
  2:{ cbn [run]. do 4 eexists. split; [reflexivity|].
      split; [reflexivity | discriminate]. }
  apply Z.eqb_eq in Erc. subst rc.
  answer ipattern:([link|e]).
  2:{ cbn [run]. do 4 eexists. split; [reflexivity|].
      split; [reflexivity | discriminate]. }
  destruct (CStr.strrchr link "/") as [p|] eqn:P.
  2:{ cbn [run]. do 4 eexists. split; [reflexivity|].
      split; [reflexivity | discriminate]. }
  apply strrchr_some in P as (dir & uuid & -> & -> & N).
  cbn [CStr.ptr_add]. rewrite run_bind.
  match goal with
  | |- context [run w (echo_str_to_file ?s ?p None) ?h] =>
      destruct (run_echo w h s p None) as (ok & err & te & Re & Oe)
  end.
  rewrite Re. destruct ok; cbn [negb run]; rewrite app_nil_r.
  - do 4 eexists. split; [reflexivity|]. split; [discriminate|].
    intros _. inversion Oe; subst. split; [reflexivity|].
    exists dir, uuid. now repeat split.
  - do 4 eexists. split; [reflexivity|].
    split; [reflexivity | discriminate].
Qed.

(** [bd_kbd_bcache_destroy] returns in every environment: the UUID it formats
    into the path of the cache set's stop file is never [NULL], since a
    successful detach has stored one.  A successful run is exactly this: the
    cache link checked and read, its last component written to the device's
    detach file, "1" written to the stop file of that cache set and "1"
    written to the stop file of the device; the error slot stays empty.  And
    when the detach fails, its error is the result as it is and its calls are
    all the calls made: no stop file is touched.  The name has its [/dev/]
    taken off once by the function and once more by the detach it calls. *)
Theorem bcache_destroy_contract (w : env) (bcache_device : string) :
  let dev := skip_dev_prefix bcache_device in
  let inner := skip_dev_prefix dev in
  let cache := "/sys/block/" ++ inner ++ "/bcache/cache" in
  let detach := "/sys/block/" ++ inner ++ "/bcache/detach" in
  let dev_stop := "/sys/block/" ++ dev ++ "/bcache/stop" in
  exists ok err t,
    run w (bd_kbd_bcache_destroy bcache_device None) [] = (Some (ok, err), t)
    /\ (ok = true ->
        err = None
        /\ exists dir uuid,
             no_slash uuid
             /\ t = (Called (access cache R_OK) 0%Z
                     :: Called (g_file_read_link cache)
                          (LinkTarget (dir ++ "/" ++ uuid))
                     :: written uuid detach
                     ++ written "1" ("/sys/fs/bcache/" ++ uuid ++ "/stop")
                     ++ written "1" dev_stop)%list)
    /\ (forall slot e t_detach,
          run w (bd_kbd_bcache_detach dev (Some None) None) []
          = (Some (false, slot, e), t_detach) ->
          ok = false /\ err = e /\ t = t_detach).
Proof.
  intros dev inner cache detach dev_stop.
  unfold bd_kbd_bcache_destroy. fold dev. rewrite run_bind.
  destruct (run_detach w dev (Some None) [])
    as (ok1 & s1 & e1 & t1 & R1 & F1 & S1).
  fold inner in S1. fold cache detach in S1. rewrite R1. cbn [app].
  destruct ok1; cbn [negb run].
  2:{ rewrite app_nil_r. exists false, e1, t1. split; [reflexivity|].
      split; [discriminate|]. intros slot e td H. now injection H as _ <- <-. }
  destruct (S1 eq_refl) as (-> & dir & uuid & N & -> & ->). cbn [store].
  rewrite run_bind.
  match goal with
  | |- context [run w (echo_str_to_file ?s ?p ?e) ?h] =>
      destruct (run_echo w h s p e) as (ok2 & e2 & t2 & R2 & O2)
  end.
  rewrite R2. destruct ok2; cbn [negb run].
  2:{ do 3 eexists. split; [reflexivity|]. split; [discriminate|].
      intros slot e td H. discriminate H. }
  inversion O2; subst. fold dev_stop. rewrite run_bind.
  match goal with
  | |- context [run w (echo_str_to_file ?s ?p ?e) ?h] =>
      destruct (run_echo w h s p e) as (ok3 & e3 & t3 & R3 & O3)
  end.
  rewrite R3. destruct ok3; cbn [negb run]; rewrite app_nil_r.
  - inversion O3; subst. do 3 eexists. split; [reflexivity|].
    split; [|intros slot e td H; discriminate H].
    intros _. split; [reflexivity|]. exists dir, uuid.
    split; [exact N|]. reflexivity.
  - do 3 eexists. split; [reflexivity|]. split; [discriminate|].
    intros slot e td H. discriminate H.
Qed.


(** The runs of [bd_kbd_bcache_create] that come back with success, and the
    runs that do not come back with a result. *)
Lemma run_create (w : env) backing cache slot r t :
  let argv := ["make-bcache"; "-B"; backing; "-C"; cache] in
  run w (bd_kbd_bcache_create backing cache slot None) [] = (r, t) ->
  (forall slot' err, r = Some (false, slot', err) -> slot' = slot)
  /\ (forall slot' err, r = Some (true, slot', err) ->
      err = None
      /\ exists output set_uuid dir name path others dev_name,
           backing = dir ++ "/" ++ name /\ no_slash name
           /\ parse_set_uuid output = Some set_uuid
           /\ glob_dev_name path = NameIs dev_name
           /\ slot' = store slot dev_name
           /\ t = (Called (bd_utils_exec_and_capture_output argv)
                     (ExecOk output)
                   :: written backing "/sys/fs/bcache/register"
                   ++ Called (glob ("/sys/block/*/slaves/" ++ name)
                                GLOB_NOSORT)
                        (GlobMatches path others)
                      :: written set_uuid
                           ("/sys/block/" ++ dev_name ++ "/bcache/attach"))%list)
  /\ (r = None ->
      exists c path others,
        In c t /\ glob_answer c = Some (GlobMatches path others)
        /\ glob_dev_name path = NameNoEnd).
Proof.
  intro argv. unfold bd_kbd_bcache_create. fold argv.
  answer ipattern:([output|e]).
  2:{ cbn [run]. intro H. injection H as <- <-.
      split; [|split]; [intros s e' H; now injection H as <- | discriminate..]. }
  destruct (parse_set_uuid output) as [set_uuid|] eqn:P.
  2:{ cbn [run]. intro H. injection H as <- <-.
      split; [|split]; [intros s e' H; now injection H as <- | discriminate..]. }
  destruct (CStr.strrchr backing "/") as [dev_name|] eqn:S.
  2:{ cbn [run]. intro H. injection H as <- <-.
      split; [|split]; [intros s e' H; now injection H as <- | discriminate..]. }
  apply strrchr_some in S as (dir & name & -> & -> & N).
  cbn [CStr.ptr_add]. rewrite run_bind.
  match goal with
  | |- context [run w (echo_str_to_file ?s ?p ?e) ?h] =>
      destruct (run_echo w h s p e) as (ok2 & e2 & t2 & R2 & O2)
  end.
  rewrite R2. destruct ok2; cbn [negb run].
  2:{ intro H. injection H as <- <-.
      split; [|split]; [intros s e' H; now injection H as <- | discriminate..]. }
  inversion O2; subst.
  answer ipattern:([path others| | |]);
    try (cbn [run]; intro H; injection H as <- <-;
         split; [|split];
         [intros s e' H; now injection H as <- | discriminate..]).
  destruct (glob_dev_name path) as [dev_name| |] eqn:G.
  - rewrite run_bind. unfold bd_kbd_bcache_attach.
    rewrite (skip_dev_prefix_no_slash _ (glob_dev_name_no_slash _ _ G)).
    match goal with
    | |- context [run w (echo_str_to_file ?s ?p ?e) ?h] =>
        destruct (run_echo w h s p e) as (ok3 & e3 & t3 & R3 & O3)
    end.
    rewrite R3. destruct ok3; cbn [negb run]; rewrite app_nil_r;
      intro H; injection H as <- <-.
    + inversion O3; subst. split; [discriminate|]. split; [|discriminate].
      intros s e' H. injection H as <- <-. split; [reflexivity|].
      exists output, set_uuid, dir, name, path, others, dev_name.
      now repeat split.
    + split; [|split]; [intros s e' H; now injection H as <- | discriminate..].
  - cbn [run]. intro H. injection H as <- <-.
    split; [|split]; [intros s e' H; now injection H as <- | discriminate..].
  - cbn [run]. intro H. injection H as <- <-.
    split; [discriminate|]. split; [discriminate|]. intros _.
    exists (Called (glob ("/sys/block/*/slaves/" ++ name) GLOB_NOSORT)
              (GlobMatches path others)), path, others.
    split; [repeat first [left; reflexivity | right]|].
    split; [reflexivity | exact G].
Qed.

(** When [bd_kbd_bcache_create] returns success, the error slot is empty and
    the run is exactly this: the tool called with the two devices, the
    backing device (which does hold a '/') written to the register file, the
    glob for what follows its last '/', and the Set UUID of the tool's output
    written to the attach file of the device named by the first match.  That
    name is what the caller's variable holds afterwards. *)
Theorem bcache_create_success (w : env)
  (backing_device cache_device : string) (bcache_device slot' : outparam)
  (err : errslot) (t : trace) :
  let argv := ["make-bcache"; "-B"; backing_device; "-C"; cache_device] in
  run w (bd_kbd_bcache_create backing_device cache_device bcache_device None)
    []
  = (Some (true, slot', err), t) ->
  err = None
  /\ exists output set_uuid dir name path others dev_name,
       backing_device = dir ++ "/" ++ name /\ no_slash name
       /\ parse_set_uuid output = Some set_uuid
       /\ glob_dev_name path = NameIs dev_name
       /\ slot' = store bcache_device dev_name
       /\ t = (Called (bd_utils_exec_and_capture_output argv) (ExecOk output)
               :: written backing_device "/sys/fs/bcache/register"
               ++ Called (glob ("/sys/block/*/slaves/" ++ name) GLOB_NOSORT)
                    (GlobMatches path others)
                  :: written set_uuid
                       ("/sys/block/" ++ dev_name ++ "/bcache/attach"))%list.
Proof.
  intros argv R. apply run_create in R as (_ & S & _). now apply S.
Qed.


(** A call that fails leaves the caller's variable behind the out-parameter
    as it was: [bd_kbd_bcache_create] stores a device name, and
    [bd_kbd_bcache_detach] a cache set UUID, only on the way to returning
    success. *)
Theorem failure_leaves_out_parameter (w : env) :
  (forall backing_device cache_device bcache_device slot' err t,
      run w (bd_kbd_bcache_create backing_device cache_device bcache_device
               None) []
      = (Some (false, slot', err), t) ->
      slot' = bcache_device)
  /\ (forall bcache_device c_set_uuid slot' err t,
      run w (bd_kbd_bcache_detach bcache_device c_set_uuid None) []
      = (Some (false, slot', err), t) ->
      slot' = c_set_uuid).
Proof.
  split.
  - intros backing cache slot slot' err t R.
    apply run_create in R as (F & _ & _). now apply (F slot' err).
  - intros dev slot slot' err t R.
    destruct (run_detach w dev slot []) as (ok & s & e & t' & R' & F & _).
    rewrite R in R'. injection R' as <- <- _ _. now apply F.
Qed.


(** ** Names with and without [/dev/] *)

Lemma skip_dev_prefix_dev name : skip_dev_prefix ("/dev/" ++ name) = name.
Proof.
  unfold skip_dev_prefix, CStr.g_str_has_prefix.
  rewrite prefix_append. exact (ptr_add_append "/dev/" name).
Qed.

Lemma skip_dev_prefix_plain name :
  CStr.g_str_has_prefix name "/dev/" = false -> skip_dev_prefix name = name.
Proof. intro H. unfold skip_dev_prefix. now rewrite H. Qed.

(** A bcache device may be given by its name or by its path under [/dev/]:
    for a name that does not itself start with [/dev/], attach, detach and
    destroy are the same program on [/dev/<name>] as on [<name>]: the same
    calls on the same files, the same results and the same messages. *)
Theorem dev_prefix_is_optional (name : string) :
  CStr.g_str_has_prefix name "/dev/" = false ->
  (forall c_set_uuid error,
      bd_kbd_bcache_attach c_set_uuid ("/dev/" ++ name) error
      = bd_kbd_bcache_attach c_set_uuid name error)
  /\ (forall c_set_uuid error,
      bd_kbd_bcache_detach ("/dev/" ++ name) c_set_uuid error
      = bd_kbd_bcache_detach name c_set_uuid error)
  /\ (forall error,
      bd_kbd_bcache_destroy ("/dev/" ++ name) error
      = bd_kbd_bcache_destroy name error).
Proof.
  intro H. apply skip_dev_prefix_plain in H.
  split; [|split].
  - intros u e. unfold bd_kbd_bcache_attach.
    now rewrite skip_dev_prefix_dev, H.
  - intros slot e. unfold bd_kbd_bcache_detach.
    now rewrite skip_dev_prefix_dev, H.
  - intros e. unfold bd_kbd_bcache_destroy.
    now rewrite skip_dev_prefix_dev, H.
Qed.


(* ================================================================== *)
(** * Module traffic *)

Lemma find_loaded_some cur module_name kmod :
  find_loaded cur module_name = Some kmod ->
  kmod = module_name /\ In module_name cur.
Proof.
  induction cur as [|name next IH]; [discriminate|].
  cbn [find_loaded]. destruct (String.eqb name module_name) eqn:E.
  - intro H. injection H as <-. apply String.eqb_eq in E.
    split; [exact E | now left].
  - intro H. apply IH in H as [H1 H2]. split; [exact H1 | now right].
Qed.

Lemma find_loaded_none cur module_name :
  find_loaded cur module_name = None -> ~ In module_name cur.
Proof.
  induction cur as [|name next IH]; [intros _ []|].
  cbn [find_loaded]. destruct (String.eqb name module_name) eqn:E;
    [discriminate|].
  intros H [H1|H1]; [|now apply IH].
  apply String.eqb_neq in E. now apply E.
Qed.

Lemma inserts_in_app t u :
  inserts_in (t ++ u)%list = inserts_in t + inserts_in u.
Proof. unfold inserts_in. now rewrite filter_app, length_app. Qed.

Lemma removes_in_app t u :
  removes_in (t ++ u)%list = removes_in t + removes_in u.
Proof. unfold removes_in. now rewrite filter_app, length_app. Qed.

Lemma channel_call_no_module c :
  is_channel_call c = true -> insert_call c = None /\ remove_call c = None.
Proof.
  destruct c as [X e a]. unfold is_channel_call, channel_path.
  destruct e; cbn; intro H; first [now split | discriminate H].
Qed.

Lemma channel_calls_no_module t :
  (forall c, In c t -> is_channel_call c = true) ->
  inserts_in t = 0 /\ removes_in t = 0.
Proof.
  induction t as [|c t IH]; intro H; [now split|].
  destruct (channel_call_no_module c (H c (or_introl eq_refl))) as [I R].
  destruct IH as [IHi IHr]; [intros d Hd; apply H; now right|].
  unfold inserts_in, removes_in in *. cbn [filter].
  rewrite I, R. now split.
Qed.

(** One load: at most one insertion, of the module asked for, without flags
    and with the options given; success is an insertion that came back with
    no error. *)
Lemma run_load_traffic (w : env) name opts past :
  exists ok err t,
    run w (load_kernel_module name opts None) past = (Some (ok, err), t)
    /\ removes_in t = 0
    /\ inserts_in t <= 1
    /\ (forall c n f o ret,
          In c t -> insert_call c = Some (n, f, o, ret) ->
          n = name /\ f = 0%Z /\ o = opts /\ (ok = true <-> (0 <= ret)%Z))
    /\ (ok = true ->
        exists before ret,
          t = (before
               ++ [Called (kmod_module_insert_module name 0 opts) ret])%list
          /\ (0 <= ret)%Z).
Proof.
  unfold load_kernel_module.
  answer ipattern:([|]).
  2:{ finish. split; [reflexivity|]. split; [cbn; lia|].
      split; [|discriminate]. intros c n f o ret [<-|[]] H. discriminate H. }
  answer ipattern:([]). name_answer ret.
  destruct (ret <? 0)%Z.
  { finish. split; [reflexivity|]. split; [cbn; lia|].
    split; [|discriminate].
    intros c n f o r [<-|[<-|[<-|[]]]] H; discriminate H. }
  answer ipattern:([path|]).
  2:{ finish. split; [reflexivity|]. split; [cbn; lia|].
      split; [|discriminate].
      intros c n f o r [<-|[<-|[<-|[<-|[]]]]] H; discriminate H. }
  name_answer ret'.
  destruct (ret' <? 0)%Z eqn:E.
  { finish. split; [reflexivity|]. split; [cbn; lia|].
    split; [|discriminate].
    intros c n f o r [<-|[<-|[<-|[<-|[<-|[]]]]]] H; try discriminate H.
    injection H as <- <- <- <-. repeat split; try discriminate.
    intro L. apply Z.ltb_lt in E. lia. }
  apply Z.ltb_ge in E.
  finish. split; [reflexivity|]. split; [cbn; lia|]. split.
  - intros c n f o r [<-|[<-|[<-|[<-|[<-|[]]]]]] H; try discriminate H.
    injection H as <- <- <- <-. now repeat split.
  - intros _. exists [Called kmod_new true;
                      Called (kmod_set_log_priority LOG_CRIT) tt;
                      Called (kmod_module_new_from_name name) ret;
                      Called (kmod_module_get_path name) (Some path)], ret'.
    now split.
Qed.

(** One unload: no insertion, at most one removal, of the module asked for
    and only when the list of loaded modules holds it. *)
Lemma run_unload_traffic (w : env) name past :
  exists ok err t,
    run w (unload_kernel_module name None) past = (Some (ok, err), t)
    /\ inserts_in t = 0
    /\ removes_in t <= 1
    /\ (forall c n f,
          In c t -> remove_call c = Some (n, f) ->
          n = name /\ f = 0%Z
          /\ exists d ret cur,
               In d t /\ loaded_answer d = Some (ret, cur) /\ In name cur)
    /\ (ok = true -> removes_in t = 1)
    /\ (forall d ret cur,
          In d t -> loaded_answer d = Some (ret, cur) ->
          (0 <= ret)%Z -> ~ In name cur ->
          removes_in t = 0
          /\ ok = false
          /\ err = Some (mkGError BD_KBD_ERROR
                           (kbd_code BD_KBD_ERROR_MODULE_NOEXIST)
                           ("Module '" ++ name ++ "' is not loaded"))).
Proof.
  unfold unload_kernel_module.
  answer ipattern:([|]).
  2:{ finish. split; [reflexivity|]. split; [cbn; lia|].
      split; [intros c n f [<-|[]] H; discriminate H|].
      split; [discriminate|].
      intros d ret cur [<-|[]] H. discriminate H. }
  answer ipattern:([]). answer ipattern:([ret list]).
  destruct (ret <? 0)%Z eqn:E.
  { finish. split; [reflexivity|]. split; [cbn; lia|].
    split; [intros c n f [<-|[<-|[<-|[]]]] H; discriminate H|].
    split; [discriminate|].
    intros d r cur [<-|[<-|[<-|[]]]] H; try discriminate H.
    injection H as <- <-. apply Z.ltb_lt in E. lia. }
  destruct (find_loaded list name) as [kmod|] eqn:F.
  2:{ finish. split; [reflexivity|]. split; [cbn; lia|].
      split; [intros c n f [<-|[<-|[<-|[]]]] H; discriminate H|].
      split; [discriminate|].
      intros d r cur [<-|[<-|[<-|[]]]] H; try discriminate H.
      now repeat split. }
  apply find_loaded_some in F as [-> F].
  name_answer ret'.
  assert (Rm : forall c n f (t := [Called kmod_new true;
                                   Called (kmod_set_log_priority LOG_CRIT) tt;
                                   Called kmod_module_new_from_loaded
                                     (ret, list);
                                   Called (kmod_module_remove_module name 0)
                                     ret']),
             In c t -> remove_call c = Some (n, f) ->
             n = name /\ f = 0%Z
             /\ exists d ret cur,
                  In d t /\ loaded_answer d = Some (ret, cur) /\ In name cur).
  { intros c n f t [<-|[<-|[<-|[<-|[]]]]] H; try discriminate H.
    injection H as <- <-. split; [reflexivity|]. split; [reflexivity|].
    exists (Called kmod_module_new_from_loaded (ret, list)), ret, list.
    split; [repeat first [left; reflexivity | right]|]. now split. }
  assert (Ld : forall d r cur (t := [Called kmod_new true;
                                     Called (kmod_set_log_priority LOG_CRIT) tt;
                                     Called kmod_module_new_from_loaded
                                       (ret, list);
                                     Called (kmod_module_remove_module name 0)
                                       ret']),
             In d t -> loaded_answer d = Some (r, cur) -> ~ In name cur ->
             False).
  { intros d r cur t [<-|[<-|[<-|[<-|[]]]]] H; try discriminate H.
    injection H as <- <-. intro N. now apply N. }
  destruct (ret' <? 0)%Z.
  - finish. split; [reflexivity|]. split; [cbn; lia|].
    split; [exact Rm|]. split; [discriminate|].
    intros d r cur H1 H2 _ H3. exfalso. exact (Ld d r cur H1 H2 H3).
  - finish. split; [reflexivity|]. split; [cbn; lia|].
    split; [exact Rm|]. split; [reflexivity|].
    intros d r cur H1 H2 _ H3. exfalso. exact (Ld d r cur H1 H2 H3).
Qed.

Lemma no_inserts t c :
  inserts_in t = 0 -> In c t -> insert_call c = None.
Proof.
  unfold inserts_in. induction t as [|d t IH]; intros H []; cbn [filter] in H.
  - subst d. destruct (insert_call c); [discriminate H | reflexivity].
  - destruct (insert_call d); [discriminate H | now apply IH].
Qed.

Lemma no_removes t c :
  removes_in t = 0 -> In c t -> remove_call c = None.
Proof.
  unfold removes_in. induction t as [|d t IH]; intros H []; cbn [filter] in H.
  - subst d. destruct (remove_call c); [discriminate H | reflexivity].
  - destruct (remove_call d); [discriminate H | now apply IH].
Qed.

(** The module calls of [bd_kbd_zram_create_devices], and what follows
    them. *)
Lemma run_zram_create_modules (w : env) n sizes nstreams r t :
  run w (bd_kbd_zram_create_devices n sizes nstreams None) [] = (r, t) ->
  exists t_mod t_act,
    t = (t_mod ++ t_act)%list
    /\ quiet t_mod
    /\ (forall c, In c t_act -> is_channel_call c = true)
    /\ inserts_in t_mod <= 2 /\ removes_in t_mod <= 1
    /\ (forall c name f o ret,
          In c t_mod -> insert_call c = Some (name, f, o, ret) ->
          name = "zram" /\ f = 0%Z
          /\ o = "num_devices=" ++ CStr.fmt_u64 n)
    /\ (forall c name f,
          In c t_mod -> remove_call c = Some (name, f) ->
          name = "zram" /\ f = 0%Z
          /\ exists d ret cur,
               In d t_mod /\ loaded_answer d = Some (ret, cur)
               /\ In "zram" cur)
    /\ ((t_act <> [] \/ exists e, r = Some (true, e)) ->
        exists before ret,
          t_mod
          = (before
             ++ [Called (kmod_module_insert_module "zram" 0
                           ("num_devices=" ++ CStr.fmt_u64 n)) ret])%list
          /\ (0 <= ret)%Z).
Proof.
  unfold bd_kbd_zram_create_devices.
  set (opts := "num_devices=" ++ CStr.fmt_u64 n).
  assert (Load : forall past,
             exists ok err t1,
               run w (load_kernel_module "zram" opts None) past
               = (Some (ok, err), t1)
               /\ quiet t1
               /\ (ok = true -> err = None)
               /\ (ok = false ->
                   exists e, err = Some e /\ domain e = BD_KBD_ERROR)
               /\ removes_in t1 = 0
               /\ inserts_in t1 <= 1
               /\ (forall c name f o ret,
                     In c t1 -> insert_call c = Some (name, f, o, ret) ->
                     name = "zram" /\ f = 0%Z /\ o = opts)
               /\ (ok = true ->
                   exists before ret,
                     t1 = (before
                           ++ [Called (kmod_module_insert_module "zram" 0
                                         opts) ret])%list
                     /\ (0 <= ret)%Z)).
  { intro past.
    destruct (run_load w "zram" opts past) as (ok & err & t1 & R & Q & S & F).
    destruct (run_load_traffic w "zram" opts past)
      as (ok' & err' & t1' & R' & Rm & In1 & Ic & Ok).
    rewrite R in R'. injection R' as <- <- <-.
    exists ok, err, t1. repeat (split; [assumption|]).
    split; [|exact Ok].
    intros c name f o ret H1 H2.
    destruct (Ic c name f o ret H1 H2) as (E1 & E2 & E3 & _). now repeat split. }
  assert (Act : forall past r' t',
             run w (zram_activate n sizes nstreams None) past = (r', t') ->
             forall c, In c t' -> is_channel_call c = true).
  { intros past r' t' R' c. eapply run_zram_activate_calls; eassumption. }
  rewrite run_bind.
  destruct (Load []) as (ok1 & err1 & t1 & R1 & Q1 & S1 & F1 & Rm1 & In1 & Ic1 & Ok1).
  rewrite R1. cbn [app]. destruct ok1.
  - rewrite (S1 eq_refl). cbn [negb andb].
    destruct (run w (zram_activate n sizes nstreams None) t1)
      as [r' t'] eqn:R'.
    intro H. injection H as <- <-. exists t1, t'.
    split; [reflexivity|]. split; [exact Q1|]. split; [eapply Act; eassumption|].
    split; [lia|]. split; [lia|]. split; [exact Ic1|]. split.
    + intros c name f H1 H2. rewrite (no_removes _ _ Rm1 H1) in H2.
      discriminate H2.
    + intros _. now apply Ok1.
  - destruct (F1 eq_refl) as (e1 & -> & D1). cbn [negb andb].
    rewrite (matches_module_fail _ D1).
    destruct (code e1 =? kbd_code BD_KBD_ERROR_MODULE_FAIL)%Z.
    + unfold g_clear_error. rewrite run_bind.
      destruct (run_unload w "zram" t1)
        as (ok2 & err2 & t2 & R2 & Q2 & S2 & F2).
      destruct (run_unload_traffic w "zram" t1)
        as (ok2' & err2' & t2' & R2' & In2 & Rm2 & Rc2 & _).
      rewrite R2 in R2'. injection R2' as <- <- <-.
      rewrite R2.
      assert (Rc : forall t3 c name f,
                 removes_in t3 = 0 ->
                 In c (t1 ++ t2 ++ t3)%list ->
                 remove_call c = Some (name, f) ->
                 name = "zram" /\ f = 0%Z
                 /\ exists d ret cur,
                      In d (t1 ++ t2 ++ t3)%list
                      /\ loaded_answer d = Some (ret, cur)
                      /\ In "zram" cur).
      { intros t3 c name f Rm3 H1 H2.
        apply in_app_or in H1 as [H1|H1];
          [rewrite (no_removes _ _ Rm1 H1) in H2; discriminate H2|].
        apply in_app_or in H1 as [H1|H1];
          [|rewrite (no_removes _ _ Rm3 H1) in H2; discriminate H2].
        destruct (Rc2 c name f H1 H2) as (E1 & E2 & d & ret & cur & Hd & La & Hz).
        split; [exact E1|]. split; [exact E2|]. exists d, ret, cur.
        split; [|now split]. apply in_or_app. right. apply in_or_app. now left. }
      assert (Ic : forall t3 c name f o ret,
                 (forall c name f o ret,
                     In c t3 -> insert_call c = Some (name, f, o, ret) ->
                     name = "zram" /\ f = 0%Z /\ o = opts) ->
                 In c (t1 ++ t2 ++ t3)%list ->
                 insert_call c = Some (name, f, o, ret) ->
                 name = "zram" /\ f = 0%Z /\ o = opts).
      { intros t3 c name f o ret Ic3 H1 H2.
        apply in_app_or in H1 as [H1|H1]; [now apply (Ic1 c name f o ret)|].
        apply in_app_or in H1 as [H1|H1]; [|now apply (Ic3 c name f o ret)].
        rewrite (no_inserts _ _ In2 H1) in H2. discriminate H2. }
      destruct ok2.
      * rewrite (S2 eq_refl). cbn [negb]. rewrite run_bind.
        destruct (Load (t1 ++ t2)%list)
          as (ok3 & err3 & t3 & R3 & Q3 & S3 & F3 & Rm3 & In3 & Ic3 & Ok3).
        rewrite R3. destruct ok3.
        -- rewrite (S3 eq_refl). cbn [negb]. rewrite <- app_assoc.
           destruct (run w (zram_activate n sizes nstreams None)
                       (t1 ++ t2 ++ t3)%list) as [r' t'] eqn:R'.
           intro H. injection H as <- <-.
           exists (t1 ++ t2 ++ t3)%list, t'.
           split; [now rewrite <- !app_assoc|].
           split; [auto with kbd|]. split; [eapply Act; eassumption|].
           rewrite !inserts_in_app, !removes_in_app.
           split; [lia|]. split; [lia|].
           split; [intros c name f o ret; now apply Ic|].
           split; [intros c name f; now apply Rc|].
           intros _. destruct (Ok3 eq_refl) as (before & ret & -> & Hret).
           exists (t1 ++ t2 ++ before)%list, ret.
           split; [now rewrite <- !app_assoc | exact Hret].
        -- destruct (F3 eq_refl) as (e3 & -> & _). cbn [negb run].
           intro H. injection H as <- <-.
           exists (t1 ++ t2 ++ t3)%list, [].
           split; [now rewrite !app_nil_r|].
           split; [auto with kbd|]. split; [intros c []|].
           rewrite !inserts_in_app, !removes_in_app.
           split; [lia|]. split; [lia|].
           split; [intros c name f o ret; now apply Ic|].
           split; [intros c name f; now apply Rc|].
           intros [H|(e & H)]; [now destruct H | discriminate H].
      * destruct (F2 eq_refl) as (e2 & -> & _). cbn [negb run].
        intro H. injection H as <- <-.
        exists (t1 ++ t2)%list, [].
        split; [now rewrite !app_nil_r|].
        split; [auto with kbd|]. split; [intros c []|].
        rewrite !inserts_in_app, !removes_in_app.
        split; [lia|]. split; [lia|].
        split.
        { intros c name f o ret H1 H2.
          apply (Ic [] c name f o ret); [intros ? ? ? ? ? []| |exact H2].
          now rewrite app_nil_r. }
        split.
        { intros c name f H1 H2.
          destruct (Rc [] c name f eq_refl) as (E1 & E2 & d & ret & cur & Hd & La);
            [now rewrite app_nil_r | exact H2 |].
          rewrite app_nil_r in Hd. split; [exact E1|]. split; [exact E2|].
          now exists d, ret, cur. }
        intros [H|(e & H)]; [now destruct H | discriminate H].
    + cbn [run]. intro H. injection H as <- <-.
      exists t1, []. split; [now rewrite app_nil_r|]. split; [exact Q1|].
      split; [intros c []|]. split; [lia|]. split; [lia|].
      split; [exact Ic1|]. split.
      * intros c name f H1 H2. rewrite (no_removes _ _ Rm1 H1) in H2.
        discriminate H2.
      * intros [H|(e & H)]; [now destruct H | discriminate H].
Qed.

(** The kernel module traffic of [bd_kbd_zram_create_devices].  Whatever the
    environment answers, a run inserts a module at most twice and removes one
    at most once; every insertion is of [zram], without flags, with the
    options [num_devices=<n>]; every removal is of [zram], without flags, and
    is made only when the list of loaded modules holds [zram].  If a sysfs
    file is touched, or the call returns success, an insertion has come back
    without error, no module call follows it, and every call behind it is on
    a sysfs file. *)
Theorem zram_create_module_traffic (w : env) (num_devices : N)
  (sizes : list N) (nstreams : option (list N))
  (r : option (bool * errslot)) (t : trace) :
  let opts := "num_devices=" ++ CStr.fmt_u64 num_devices in
  run w (bd_kbd_zram_create_devices num_devices sizes nstreams None) []
  = (r, t) ->
  inserts_in t <= 2 /\ removes_in t <= 1
  /\ (forall c name flags options ret,
        In c t -> insert_call c = Some (name, flags, options, ret) ->
        name = "zram" /\ flags = 0%Z /\ options = opts)
  /\ (forall c name flags,
        In c t -> remove_call c = Some (name, flags) ->
        name = "zram" /\ flags = 0%Z
        /\ exists d ret cur,
             In d t /\ loaded_answer d = Some (ret, cur) /\ In "zram" cur)
  /\ (((exists c, In c t /\ is_channel_call c = true)
       \/ exists e, r = Some (true, e)) ->
      exists before ret after,
        t = (before
             ++ Called (kmod_module_insert_module "zram" 0 opts) ret
                :: after)%list
        /\ (0 <= ret)%Z
        /\ quiet before
        /\ forall c, In c after -> is_channel_call c = true).
Proof.
  intros opts R. apply run_zram_create_modules in R
    as (t_mod & t_act & -> & Q & A & In1 & Rm1 & Ic & Rc & Ok).
  destruct (channel_calls_no_module t_act A) as [Ia Ra].
  rewrite inserts_in_app, removes_in_app.
  split; [lia|]. split; [lia|]. split; [|split].
  - intros c name f o ret H1 H2.
    apply in_app_or in H1 as [H1|H1]; [now apply (Ic c name f o ret)|].
    rewrite (no_inserts _ _ Ia H1) in H2. discriminate H2.
  - intros c name f H1 H2.
    apply in_app_or in H1 as [H1|H1];
      [|rewrite (no_removes _ _ Ra H1) in H2; discriminate H2].
    destruct (Rc c name f H1 H2) as (E1 & E2 & d & ret & cur & Hd & La).
    split; [exact E1|]. split; [exact E2|]. exists d, ret, cur.
    split; [apply in_or_app; now left | exact La].
  - intro H.
    destruct Ok as (before & ret & -> & Hret).
    { destruct H as [(c & Hc & Cc)|H]; [left|now right].
      apply in_app_or in Hc as [Hc|Hc].
      - rewrite (Q c Hc) in Cc. discriminate Cc.
      - intro E. rewrite E in Hc. destruct Hc. }
    exists before, ret, t_act. split; [now rewrite <- app_assoc|].
    split; [exact Hret|]. split; [|exact A].
    intros c Hc. apply Q, in_or_app. now left.
Qed.



(* ================================================================== *)
(** * The files that are opened *)

Lemma rounds_written_paths file done :
  forall i vs c,
    In c (rounds_written file done i vs) ->
    exists k, k < done /\ channel_path c = Some (file (i + N.of_nat k)%N).
Proof.
  induction done as [|done IH]; intros i vs c H; [destruct H|].
  cbn [rounds_written] in H.
  destruct (nth_error vs (N.to_nat i)); [|destruct H].
  apply in_app_or in H as [H|H].
  - apply written_calls in H as [H _]. exists 0. split; [lia|].
    now rewrite N.add_0_r.
  - apply IH in H as (k & Hk & P). exists (S k). split; [lia|].
    rewrite P. do 2 f_equal. lia.
Qed.

Lemma loop_paths (file context : N -> string)
  (loop : nat -> N -> list N -> errslot -> Prog (bool * errslot))
  (loop_0 : forall i vs e, loop 0 i vs e = Ret (true, e))
  (loop_S : forall todo i vs e,
      loop (S todo) i vs e =
      match nth_error vs (N.to_nat i) with
      | None => Undef
      | Some n =>
          bind (echo_str_to_file (CStr.fmt_u64 n) (file i) e)
            (fun x =>
               match x with
               | (success, error) =>
                   if negb success
                   then Ret (false, g_prefix_error error (context i))
                   else loop todo (i + 1)%N vs error
               end)
      end)
  (w : env) todo i vs e past r t c :
  run w (loop todo i vs e) past = (r, t) -> In c t ->
  exists k, k < todo /\ channel_path c = Some (file (i + N.of_nat k)%N).
Proof.
  intros R H.
  destruct (run_loop file context loop loop_0 loop_S w todo i vs e past)
    as (done & Hd & _ & Hc).
  destruct Hc as [(_ & Hr)|[(_ & _ & Hr)|(Hlt & v & err & tf & _ & Ho & Hr)]];
    rewrite Hr in R; injection R as <- <-.
  - apply rounds_written_paths in H as (k & Hk & P). exists k.
    split; [lia | exact P].
  - apply rounds_written_paths in H as (k & Hk & P). exists k.
    split; [lia | exact P].
  - apply in_app_or in H as [H|H].
    + apply rounds_written_paths in H as (k & Hk & P). exists k.
      split; [lia | exact P].
    + exists done. split; [exact Hlt|].
      eapply echo_outcome_calls; eassumption.
Qed.

Lemma quiet_no_path t c : quiet t -> In c t -> channel_path c = None.
Proof.
  intros Q H. apply Q in H. unfold is_channel_call in H.
  now destruct (channel_path c).
Qed.

Lemma echo_paths (w : env) str path e past r t c :
  run w (echo_str_to_file str path e) past = (r, t) -> In c t ->
  channel_path c = Some path.
Proof.
  intros R H. destruct (run_echo w past str path e) as (ok & err & t' & R' & O).
  rewrite R in R'. injection R' as -> ->.
  eapply echo_outcome_calls; eassumption.
Qed.

Lemma all_written_paths file n vs c :
  In c (all_written file n vs) ->
  exists k, k < n /\ channel_path c = Some (file (N.of_nat k)).
Proof.
  unfold all_written. intro H. apply in_flat_map in H as (k & Hk & H).
  apply in_seq in Hk. apply written_calls in H as [H _].
  exists k. split; [lia | exact H].
Qed.

Lemma path_is_channel c p : channel_path c = Some p -> is_channel_call c = true.
Proof. intro H. unfold is_channel_call. now rewrite H. Qed.

Lemma destroy_paths (w : env) dev r t c p :
  run w (bd_kbd_bcache_destroy dev None) [] = (r, t) ->
  In c t -> channel_path c = Some p ->
  p = "/sys/block/" ++ skip_dev_prefix (skip_dev_prefix dev)
      ++ "/bcache/detach"
  \/ (exists uuid, no_slash uuid /\ p = "/sys/fs/bcache/" ++ uuid ++ "/stop")
  \/ p = "/sys/block/" ++ skip_dev_prefix dev ++ "/bcache/stop".
Proof.
  unfold bd_kbd_bcache_destroy. rewrite run_bind.
  destruct (run_detach w (skip_dev_prefix dev) (Some None) [])
    as (ok1 & s1 & e1 & t1 & R1 & F1 & S1).
  rewrite R1. cbn [app].
  assert (D : In c t1 ->
              channel_path c = Some p ->
              p = "/sys/block/" ++ skip_dev_prefix (skip_dev_prefix dev)
                  ++ "/bcache/detach").
  { intros H P.
    pose proof (detach_calls w _ _ _ _ _ c R1 H (path_is_channel _ _ P)) as K.
    congruence. }
  destruct ok1; cbn [negb run].
  2:{ intro H. injection H as <- <-. rewrite app_nil_r. intros H P.
      left. now apply D. }
  destruct (S1 eq_refl) as (-> & dir & uuid & N & -> & Et). cbn [store].
  clear Et. rewrite run_bind.
  match goal with
  | |- context [run w (echo_str_to_file ?s ?p ?e) ?h] =>
      destruct (run_echo w h s p e) as (ok2 & e2 & t2 & R2 & O2)
  end.
  rewrite R2. destruct ok2; cbn [negb run].
  2:{ intro H. injection H as <- <-. rewrite app_nil_r. intros H P.
      apply in_app_or in H as [H|H]; [left; now apply D|].
      right. left. exists uuid. split; [exact N|].
      pose proof (echo_outcome_calls _ _ _ _ _ _ c O2 H). congruence. }
  rewrite run_bind.
  match goal with
  | |- context [run w (echo_str_to_file ?s ?p ?e) ?h] =>
      destruct (run_echo w h s p e) as (ok3 & e3 & t3 & R3 & O3)
  end.
  rewrite R3.
  assert (Last : In c (t1 ++ t2 ++ t3)%list -> channel_path c = Some p ->
                 p = "/sys/block/" ++ skip_dev_prefix (skip_dev_prefix dev)
                     ++ "/bcache/detach"
                 \/ (exists uuid,
                       no_slash uuid
                       /\ p = "/sys/fs/bcache/" ++ uuid ++ "/stop")
                 \/ p = "/sys/block/" ++ skip_dev_prefix dev
                        ++ "/bcache/stop").
  { intros H P.
    apply in_app_or in H as [H|H]; [left; now apply D|].
    apply in_app_or in H as [H|H].
    - right. left. exists uuid. split; [exact N|].
      pose proof (echo_outcome_calls _ _ _ _ _ _ c O2 H). congruence.
    - right. right.
      pose proof (echo_outcome_calls _ _ _ _ _ _ c O3 H). congruence. }
  destruct ok3; cbn [negb run]; rewrite app_nil_r;
    intro H; injection H as <- <-; exact Last.
Qed.

Lemma create_paths (w : env) backing cache slot r t c p :
  run w (bd_kbd_bcache_create backing cache slot None) [] = (r, t) ->
  In c t -> channel_path c = Some p ->
  p = "/sys/fs/bcache/register"
  \/ exists name,
       no_slash name /\ p = "/sys/block/" ++ name ++ "/bcache/attach".
Proof.
  unfold bd_kbd_bcache_create.
  answer ipattern:([output|e]).
  2:{ cbn [run]. intro H. injection H as <- <-.
      intros [<-|[]] P. discriminate P. }
  destruct (parse_set_uuid output) as [set_uuid|].
  2:{ cbn [run]. intro H. injection H as <- <-.
      intros [<-|[]] P. discriminate P. }
  destruct (CStr.strrchr backing "/") as [dev_name|].
  2:{ cbn [run]. intro H. injection H as <- <-.
      intros [<-|[]] P. discriminate P. }
  rewrite run_bind.
  match goal with
  | |- context [run w (echo_str_to_file ?s ?p ?e) ?h] =>
      destruct (run_echo w h s p e) as (ok2 & e2 & t2 & R2 & O2)
  end.
  rewrite R2.
  assert (Reg : In c t2 -> channel_path c = Some p ->
                p = "/sys/fs/bcache/register").
  { intros H P. pose proof (echo_outcome_calls _ _ _ _ _ _ c O2 H).
    congruence. }
  destruct ok2; cbn [negb run].
  2:{ intro H. injection H as <- <-. rewrite app_nil_r.
      intros [<-|H] P; [discriminate P|]. left. now apply Reg. }
  name_answer g.
  assert (Upto : forall u,
             (In c u -> channel_path c = Some p ->
              exists name,
                no_slash name
                /\ p = "/sys/block/" ++ name ++ "/bcache/attach") ->
             In c (Called (bd_utils_exec_and_capture_output
                             ["make-bcache"; "-B"; backing; "-C"; cache])
                     (ExecOk output)
                   :: t2
                   ++ Called (glob ("/sys/block/*/slaves/"
                                    ++ CStr.ptr_add dev_name 1) GLOB_NOSORT) g
                      :: u)%list ->
             channel_path c = Some p ->
             p = "/sys/fs/bcache/register"
             \/ exists name,
                  no_slash name
                  /\ p = "/sys/block/" ++ name ++ "/bcache/attach").
  { intros u Hu [<-|H] P; [discriminate P|].
    apply in_app_or in H as [H|[<-|H]];
      [left; now apply Reg | discriminate P | right; now apply Hu]. }
  destruct g as [path others| | |];
    try (cbn [run]; intro H; injection H as <- <-;
         apply Upto; intros []).
  destruct (glob_dev_name path) as [name| |] eqn:G.
  - rewrite run_bind. unfold bd_kbd_bcache_attach.
    pose proof (glob_dev_name_no_slash _ _ G) as N.
    rewrite (skip_dev_prefix_no_slash _ N).
    match goal with
    | |- context [run w (echo_str_to_file ?s ?p ?e) ?h] =>
        destruct (run_echo w h s p e) as (ok3 & e3 & t3 & R3 & O3)
    end.
    rewrite R3.
    destruct ok3; cbn [negb run]; rewrite app_nil_r;
      intro H; injection H as <- <-; apply Upto; intros H P;
      exists name; (split; [exact N|]);
      pose proof (echo_outcome_calls _ _ _ _ _ _ c O3 H); congruence.
  - cbn [run]. intro H. injection H as <- <-. apply Upto. intros [].
  - cbn [run]. intro H. injection H as <- <-. apply Upto. intros [].
Qed.

(** The files a run can open, function by function.
    [bd_kbd_zram_create_devices] opens nothing but the [max_comp_streams] and
    [disksize] files of the devices [0 .. num_devices - 1]; attach and
    detach open the one file of the device they are named after;
    [bd_kbd_bcache_destroy] opens that detach file, the stop file of a cache
    set, and the stop file of the device; [bd_kbd_bcache_create] opens the
    register file and the attach file of a device whose name holds no '/'.
    No other file is opened, written or closed. *)
Theorem files_touched (w : env) :
  (forall n sizes nstreams r t c p,
      run w (bd_kbd_zram_create_devices n sizes nstreams None) [] = (r, t) ->
      In c t -> channel_path c = Some p ->
      exists i, (i < n)%N
                /\ (p = max_comp_streams_file i \/ p = disksize_file i))
  /\ (forall c_set_uuid dev r t c p,
      run w (bd_kbd_bcache_attach c_set_uuid dev None) [] = (r, t) ->
      In c t -> channel_path c = Some p ->
      p = "/sys/block/" ++ skip_dev_prefix dev ++ "/bcache/attach")
  /\ (forall dev slot r t c p,
      run w (bd_kbd_bcache_detach dev slot None) [] = (r, t) ->
      In c t -> channel_path c = Some p ->
      p = "/sys/block/" ++ skip_dev_prefix dev ++ "/bcache/detach")
  /\ (forall dev r t c p,
      run w (bd_kbd_bcache_destroy dev None) [] = (r, t) ->
      In c t -> channel_path c = Some p ->
      p = "/sys/block/" ++ skip_dev_prefix (skip_dev_prefix dev)
          ++ "/bcache/detach"
      \/ (exists uuid,
            no_slash uuid /\ p = "/sys/fs/bcache/" ++ uuid ++ "/stop")
      \/ p = "/sys/block/" ++ skip_dev_prefix dev ++ "/bcache/stop")
  /\ (forall backing_device cache_device slot r t c p,
      run w (bd_kbd_bcache_create backing_device cache_device slot None) []
      = (r, t) ->
      In c t -> channel_path c = Some p ->
      p = "/sys/fs/bcache/register"
      \/ exists name,
           no_slash name /\ p = "/sys/block/" ++ name ++ "/bcache/attach").
Proof.
  split; [|split; [|split; [|split]]].
  - intros n sizes nstreams r t c p R H P.
    apply run_zram_create_shape in R
      as (t_mod & t_act & -> & Q & [(-> & _)|R]).
    { rewrite app_nil_r in H. rewrite (quiet_no_path _ _ Q H) in P.
      discriminate P. }
    apply in_app_or in H as [H|H];
      [rewrite (quiet_no_path _ _ Q H) in P; discriminate P|].
    assert (Bound : forall k, k < N.to_nat n -> (0 + N.of_nat k < n)%N)
      by (intros; lia).
    apply run_zram_activate_any in R
      as (t1 & t2 & -> & _ & NoS & [(_ & S1 & R2)|(-> & _ & ns & -> & R1)]).
    + apply in_app_or in H as [H|H].
      * destruct nstreams as [ns|]; [|rewrite (NoS eq_refl) in H; destruct H].
        destruct (S1 ns eq_refl) as [E _]. rewrite E in H.
        apply all_written_paths in H as (k & Hk & P').
        exists (N.of_nat k). split; [lia|]. left. congruence.
      * apply (loop_paths disksize_file
                 (fun i => "Failed to set size for '/dev/zram"
                           ++ CStr.fmt_u64 i ++ "': ")
                 set_disksizes ltac:(reflexivity) ltac:(reflexivity)
                 w _ _ _ _ _ _ _ c R2) in H as (k & Hk & P').
        exists (0 + N.of_nat k)%N. split; [now apply Bound|].
        right. congruence.
    + rewrite app_nil_r in H.
      apply (loop_paths max_comp_streams_file
               (fun i => "Failed to set number of compression streams for '/dev/zram"
                         ++ CStr.fmt_u64 i ++ "': ")
               set_comp_streams ltac:(reflexivity) ltac:(reflexivity)
               w _ _ _ _ _ _ _ c R1) in H as (k & Hk & P').
      exists (0 + N.of_nat k)%N. split; [now apply Bound|].
      left. congruence.
  - intros u dev r t c p R H P. unfold bd_kbd_bcache_attach in R.
    pose proof (echo_paths _ _ _ _ _ _ _ c R H). congruence.
  - intros dev slot r t c p R H P.
    pose proof (detach_calls w _ _ _ _ _ c R H (path_is_channel _ _ P)).
    congruence.
  - intros dev r t c p. apply destroy_paths.
  - intros backing cache slot r t c p. apply create_paths.
Qed.


(* ================================================================== *)
(** * Where the errors come from *)

Lemma passed_on_app_l e t u : passed_on e t -> passed_on e (t ++ u)%list.
Proof.
  intros (c & e0 & pre & H & F & E). exists c, e0, pre.
  split; [apply in_or_app; now left | now split].
Qed.

Lemma passed_on_app_r e t u : passed_on e u -> passed_on e (t ++ u)%list.
Proof.
  intros (c & e0 & pre & H & F & E). exists c, e0, pre.
  split; [apply in_or_app; now right | now split].
Qed.

Lemma passed_on_incl e t u :
  passed_on e t -> (forall x, In x t -> In x u) -> passed_on e u.
Proof.
  intros (c & e0 & pre & H & F & E) I. exists c, e0, pre.
  split; [now apply I | now split].
Qed.

Ltac in_tail H :=
  first [exact H | apply in_or_app; right; in_tail H | right; in_tail H].

Ltac later P :=
  apply (passed_on_incl _ _ _ P);
  let x := fresh "x" in let Hx := fresh "Hx" in intros x Hx; in_tail Hx.

Lemma passed_on_prefix e e' t pre :
  passed_on e t -> g_prefix_error (Some e) pre = Some e' -> passed_on e' t.
Proof.
  intros (c & e0 & pre0 & H & F & ->) E. cbn in E. injection E as <-.
  exists c, e0, (pre ++ pre0). split; [exact H|]. split; [exact F|].
  now rewrite append_assoc.
Qed.

Lemma passed_on_itself e0 c t :
  In c t -> outside_failure c = Some e0 -> passed_on e0 t.
Proof.
  intros H F. exists c, e0, "". split; [exact H|]. split; [exact F|].
  destruct e0. reflexivity.
Qed.

Lemma echo_passed_on str path ok err t e :
  echo_outcome str path None ok err t -> err = Some e -> passed_on e t.
Proof.
  intros O E. destruct O as [|e0|e0|e0]; [discriminate E|..].
  - exists (Called (g_io_channel_new_file path "w") (GFail e0)), e0,
      ("Failed to write '" ++ str ++ "' to file '" ++ path ++ "': ").
    split; [left; reflexivity|]. split; [reflexivity|].
    injection E as <-. reflexivity.
  - exists (Called (g_io_channel_write_chars path str) (GFail e0)), e0,
      ("Failed to write '" ++ str ++ "' to file '" ++ path ++ "': ").
    split; [right; left; reflexivity|]. split; [reflexivity|].
    injection E as <-. reflexivity.
  - exists (Called (g_io_channel_shutdown path true) (GFail e0)), e0,
      ("Failed to flush and close the file '" ++ path ++ "': ").
    split; [right; right; left; reflexivity|]. split; [reflexivity|].
    injection E as <-. reflexivity.
Qed.

Ltac own k :=
  split; [reflexivity|]; exists k; split; [simpl; tauto | reflexivity].

Lemma run_load_codes (w : env) name opts past ok err t e :
  run w (load_kernel_module name opts None) past = (Some (ok, err), t) ->
  err = Some e ->
  own_error [BD_KBD_ERROR_KMOD_INIT_FAIL; BD_KBD_ERROR_MODULE_FAIL;
             BD_KBD_ERROR_MODULE_NOEXIST] e.
Proof.
  unfold load_kernel_module.
  answer ipattern:([|]).
  2:{ cbn [run]. intro H. injection H as _ <- _. intro E. injection E as <-.
      own BD_KBD_ERROR_KMOD_INIT_FAIL. }
  answer ipattern:([]). name_answer ret.
  destruct (ret <? 0)%Z.
  { cbn [run]. intro H. injection H as _ <- _. intro E. injection E as <-.
    own BD_KBD_ERROR_MODULE_FAIL. }
  answer ipattern:([path|]).
  2:{ cbn [run]. intro H. injection H as _ <- _. intro E. injection E as <-.
      own BD_KBD_ERROR_MODULE_NOEXIST. }
  name_answer ret'.
  destruct (ret' <? 0)%Z.
  { cbn [run]. intro H. injection H as _ <- _. intro E. injection E as <-.
    own BD_KBD_ERROR_MODULE_FAIL. }
  cbn [run]. intro H. injection H as _ <- _. discriminate.
Qed.

Lemma run_unload_codes (w : env) name past ok err t e :
  run w (unload_kernel_module name None) past = (Some (ok, err), t) ->
  err = Some e ->
  own_error [BD_KBD_ERROR_KMOD_INIT_FAIL; BD_KBD_ERROR_MODULE_FAIL;
             BD_KBD_ERROR_MODULE_NOEXIST] e.
Proof.
  unfold unload_kernel_module.
  answer ipattern:([|]).
  2:{ cbn [run]. intro H. injection H as _ <- _. intro E. injection E as <-.
      own BD_KBD_ERROR_KMOD_INIT_FAIL. }
  answer ipattern:([]). answer ipattern:([ret list]).
  destruct (ret <? 0)%Z.
  { cbn [run]. intro H. injection H as _ <- _. intro E. injection E as <-.
    own BD_KBD_ERROR_MODULE_FAIL. }
  destruct (find_loaded list name) as [kmod|].
  2:{ cbn [run]. intro H. injection H as _ <- _. intro E. injection E as <-.
      own BD_KBD_ERROR_MODULE_NOEXIST. }
  name_answer ret'.
  destruct (ret' <? 0)%Z.
  { cbn [run]. intro H. injection H as _ <- _. intro E. injection E as <-.
    own BD_KBD_ERROR_MODULE_FAIL. }
  cbn [run]. intro H. injection H as _ <- _. discriminate.
Qed.

Lemma loop_passed_on (file context : N -> string)
  (loop : nat -> N -> list N -> errslot -> Prog (bool * errslot))
  (loop_0 : forall i vs e, loop 0 i vs e = Ret (true, e))
  (loop_S : forall todo i vs e,
      loop (S todo) i vs e =
      match nth_error vs (N.to_nat i) with
      | None => Undef
      | Some n =>
          bind (echo_str_to_file (CStr.fmt_u64 n) (file i) e)
            (fun x =>
               match x with
               | (success, error) =>
                   if negb success
                   then Ret (false, g_prefix_error error (context i))
                   else loop todo (i + 1)%N vs error
               end)
      end)
  (w : env) todo i vs past ok e t :
  run w (loop todo i vs None) past = (Some (ok, Some e), t) ->
  passed_on e t.
Proof.
  intro R.
  destruct (run_loop file context loop loop_0 loop_S w todo i vs None past)
    as (done & _ & _ & Hc).
  destruct Hc as [(_ & Hr)|[(_ & _ & Hr)|(_ & v & err & tf & _ & Ho & Hr)]];
    rewrite Hr in R; try discriminate R.
  injection R as _ E <-. apply passed_on_app_r.
  destruct err as [e1|]; [|discriminate E].
  eapply passed_on_prefix; [|exact E].
  eapply echo_passed_on; [exact Ho | reflexivity].
Qed.

Lemma zram_activate_passed_on (w : env) n sizes nstreams past ok e t :
  run w (zram_activate n sizes nstreams None) past = (Some (ok, Some e), t) ->
  passed_on e t.
Proof.
  intro R. apply run_zram_activate_any in R
    as (t1 & t2 & -> & _ & _ & [(_ & _ & R2)|(-> & _ & ns & _ & R1)]).
  - apply passed_on_app_r.
    exact (loop_passed_on disksize_file
             (fun i => "Failed to set size for '/dev/zram"
                       ++ CStr.fmt_u64 i ++ "': ")
             set_disksizes ltac:(reflexivity) ltac:(reflexivity)
             w _ _ _ _ _ _ _ R2).
  - apply passed_on_app_l.
    exact (loop_passed_on max_comp_streams_file
             (fun i => "Failed to set number of compression streams for '/dev/zram"
                       ++ CStr.fmt_u64 i ++ "': ")
             set_comp_streams ltac:(reflexivity) ltac:(reflexivity)
             w _ _ _ _ _ _ _ R1).
Qed.

Lemma zram_create_origin (w : env) n sizes nstreams ok e t :
  run w (bd_kbd_zram_create_devices n sizes nstreams None) []
  = (Some (ok, Some e), t) ->
  own_error [BD_KBD_ERROR_KMOD_INIT_FAIL; BD_KBD_ERROR_MODULE_FAIL;
             BD_KBD_ERROR_MODULE_NOEXIST] e
  \/ passed_on e t.
Proof.
  unfold bd_kbd_zram_create_devices.
  set (opts := "num_devices=" ++ CStr.fmt_u64 n).
  rewrite run_bind.
  destruct (run_load w "zram" opts []) as (ok1 & err1 & t1 & R1 & _ & S1 & F1).
  rewrite R1. cbn [app]. destruct ok1.
  - rewrite (S1 eq_refl). cbn [negb andb].
    destruct (run w (zram_activate n sizes nstreams None) t1)
      as [r' t'] eqn:R'.
    intro H. injection H as -> <-. right. apply passed_on_app_r.
    eapply zram_activate_passed_on; eassumption.
  - destruct (F1 eq_refl) as (e1 & -> & D1). cbn [negb andb].
    rewrite (matches_module_fail _ D1).
    destruct (code e1 =? kbd_code BD_KBD_ERROR_MODULE_FAIL)%Z.
    + unfold g_clear_error. rewrite run_bind.
      destruct (run_unload w "zram" t1)
        as (ok2 & err2 & t2 & R2 & _ & S2 & F2).
      rewrite R2. destruct ok2.
      * rewrite (S2 eq_refl). cbn [negb]. rewrite run_bind.
        destruct (run_load w "zram" opts (t1 ++ t2)%list)
          as (ok3 & err3 & t3 & R3 & _ & S3 & F3).
        rewrite R3. destruct ok3.
        -- rewrite (S3 eq_refl). cbn [negb].
           destruct (run w (zram_activate n sizes nstreams None)
                       ((t1 ++ t2) ++ t3)%list) as [r' t'] eqn:R'.
           intro H. injection H as -> <-. right.
           do 3 apply passed_on_app_r.
           eapply zram_activate_passed_on; eassumption.
        -- cbn [negb run]. intro H. injection H as _ -> _. left.
           eapply run_load_codes; [exact R3 | reflexivity].
      * destruct (F2 eq_refl) as (e2 & -> & _). cbn [negb run].
        intro H. injection H as _ <- _. left.
        exact (run_unload_codes w _ _ _ _ _ e2 R2 eq_refl).
    + cbn [run]. intro H. injection H as _ <- _. left.
      eapply run_load_codes; [exact R1 | reflexivity].
Qed.

Lemma detach_origin (w : env) dev slot past ok slot' e t :
  run w (bd_kbd_bcache_detach dev slot None) past
  = (Some (ok, slot', Some e), t) ->
  own_error [BD_KBD_ERROR_BCACHE_NOT_ATTACHED; BD_KBD_ERROR_BCACHE_UUID] e
  \/ passed_on e t.
Proof.
  unfold bd_kbd_bcache_detach. name_answer rc.
  destruct (negb (rc =? 0)%Z).
  { cbn [run]. intro H. injection H as _ _ <- _. left.
    own BD_KBD_ERROR_BCACHE_NOT_ATTACHED. }
  answer ipattern:([link|e0]).
  2:{ cbn [run]. intro H. injection H as _ _ <- <-. right.
      exists (Called (g_file_read_link
                        ("/sys/block/" ++ skip_dev_prefix dev
                         ++ "/bcache/cache")) (LinkFail e0)), e0,
        ("Failed to determine cache set UUID for '" ++ skip_dev_prefix dev
         ++ "'").
      split; [right; left; reflexivity|]. split; reflexivity. }
  destruct (CStr.strrchr link "/") as [uuid|].
  2:{ cbn [run]. intro H. injection H as _ _ <- _. left.
      own BD_KBD_ERROR_BCACHE_UUID. }
  rewrite run_bind.
  match goal with
  | |- context [run w (echo_str_to_file ?s ?p None) ?h] =>
      destruct (run_echo w h s p None) as (ok2 & err & te & Re & Oe)
  end.
  rewrite Re.
  destruct ok2; cbn [negb run]; rewrite app_nil_r;
    intro H; injection H as _ _ E <-; right.
  - assert (P : passed_on e te) by (eapply echo_passed_on; eassumption).
    later P.
  - destruct err as [e1|]; [|now inversion Oe].
    cbn in E. injection E as <-.
    assert (P : passed_on e1 te)
      by (eapply echo_passed_on; [exact Oe | reflexivity]).
    later P.
Qed.

Lemma destroy_origin (w : env) dev ok e t :
  run w (bd_kbd_bcache_destroy dev None) [] = (Some (ok, Some e), t) ->
  own_error [BD_KBD_ERROR_BCACHE_NOT_ATTACHED; BD_KBD_ERROR_BCACHE_UUID] e
  \/ passed_on e t.
Proof.
  unfold bd_kbd_bcache_destroy. rewrite run_bind.
  destruct (run_detach w (skip_dev_prefix dev) (Some None) [])
    as (ok1 & s1 & e1 & t1 & R1 & F1 & S1).
  rewrite R1. cbn [app]. destruct ok1; cbn [negb run].
  2:{ intro H. injection H as _ -> <-. rewrite app_nil_r.
      eapply detach_origin; eassumption. }
  destruct (S1 eq_refl) as (-> & dir & uuid & N & -> & _). cbn [store].
  rewrite run_bind.
  match goal with
  | |- context [run w (echo_str_to_file ?s ?p ?e) ?h] =>
      destruct (run_echo w h s p e) as (ok2 & e2 & t2 & R2 & O2)
  end.
  rewrite R2. destruct ok2; cbn [negb run].
  2:{ intro H. injection H as _ E <-. rewrite app_nil_r. right.
      destruct e2 as [e2|]; [|discriminate E].
      assert (P : passed_on e t2).
      { eapply passed_on_prefix; [|exact E].
        eapply echo_passed_on; [exact O2 | reflexivity]. }
      later P. }
  inversion O2; subst. rewrite run_bind.
  match goal with
  | |- context [run w (echo_str_to_file ?s ?p ?e) ?h] =>
      destruct (run_echo w h s p e) as (ok3 & e3 & t3 & R3 & O3)
  end.
  rewrite R3. destruct ok3; cbn [negb run]; rewrite app_nil_r;
    intro H; injection H as _ E <-.
  - inversion O3; congruence.
  - right. destruct e3 as [e3|]; [|discriminate E].
    assert (P : passed_on e t3).
    { eapply passed_on_prefix; [|exact E].
      eapply echo_passed_on; [exact O3 | reflexivity]. }
    later P.
Qed.

Lemma create_origin (w : env) backing cache slot ok slot' e t :
  run w (bd_kbd_bcache_create backing cache slot None) []
  = (Some (ok, slot', Some e), t) ->
  own_error [BD_KBD_ERROR_BCACHE_PARSE; BD_KBD_ERROR_BCACHE_SETUP_FAIL] e
  \/ passed_on e t.
Proof.
  unfold bd_kbd_bcache_create.
  answer ipattern:([output|e0]).
  2:{ cbn [run]. intro H. injection H as _ _ <- <-. right.
      eapply passed_on_itself; [left; reflexivity | reflexivity]. }
  destruct (parse_set_uuid output) as [set_uuid|].
  2:{ cbn [run]. intro H. injection H as _ _ <- _. left.
      own BD_KBD_ERROR_BCACHE_PARSE. }
  destruct (CStr.strrchr backing "/") as [dev_name|].
  2:{ cbn [run]. intro H. discriminate H. }
  rewrite run_bind.
  match goal with
  | |- context [run w (echo_str_to_file ?s ?p ?e) ?h] =>
      destruct (run_echo w h s p e) as (ok2 & e2 & t2 & R2 & O2)
  end.
  rewrite R2. destruct ok2; cbn [negb run].
  2:{ intro H. injection H as _ _ -> <-. rewrite app_nil_r. right.
      assert (P : passed_on e t2)
        by (eapply echo_passed_on; [exact O2 | reflexivity]).
      later P. }
  inversion O2; subst.
  answer ipattern:([path others| | |]);
    try (cbn [run]; intro H; injection H as _ _ <- _; left;
         own BD_KBD_ERROR_BCACHE_SETUP_FAIL).
  destruct (glob_dev_name path) as [name| |].
  - rewrite run_bind. unfold bd_kbd_bcache_attach.
    match goal with
    | |- context [run w (echo_str_to_file ?s ?p ?e) ?h] =>
        destruct (run_echo w h s p e) as (ok3 & e3 & t3 & R3 & O3)
    end.
    rewrite R3. destruct ok3; cbn [negb run]; rewrite app_nil_r;
      intro H; injection H as _ _ E <-.
    + inversion O3; congruence.
    + right. destruct e3 as [e3|]; [|discriminate E].
      assert (P : passed_on e t3).
      { eapply passed_on_prefix; [|exact E].
        eapply echo_passed_on; [exact O3 | reflexivity]. }
      later P.
  - cbn [run]. intro H. discriminate H.
  - cbn [run]. intro H. discriminate H.
Qed.

(** The errors a caller can get, by where they come from.  An error handed
    back is either one of this plugin's, with a code from a short list that
    depends on the function, or it is the error of a call that failed in the
    run (a channel call, the tool, the reading of the link) with its domain
    and code as they came and words put in front of its message at most.
    [BD_KBD_ERROR_BCACHE_DETACH_FAIL] is on none of the lists: no function
    hands it back on its own account. *)
Theorem errors_by_origin (w : env) :
  let module_codes :=
    [BD_KBD_ERROR_KMOD_INIT_FAIL; BD_KBD_ERROR_MODULE_FAIL;
     BD_KBD_ERROR_MODULE_NOEXIST] in
  let detach_codes :=
    [BD_KBD_ERROR_BCACHE_NOT_ATTACHED; BD_KBD_ERROR_BCACHE_UUID] in
  let create_codes :=
    [BD_KBD_ERROR_BCACHE_PARSE; BD_KBD_ERROR_BCACHE_SETUP_FAIL] in
  (forall n sizes nstreams ok e t,
      run w (bd_kbd_zram_create_devices n sizes nstreams None) []
      = (Some (ok, Some e), t) ->
      own_error module_codes e \/ passed_on e t)
  /\ (forall ok e t,
      run w (bd_kbd_zram_destroy_devices None) [] = (Some (ok, Some e), t) ->
      own_error module_codes e)
  /\ (forall c_set_uuid dev ok e t,
      run w (bd_kbd_bcache_attach c_set_uuid dev None) []
      = (Some (ok, Some e), t) ->
      passed_on e t)
  /\ (forall dev slot ok slot' e t,
      run w (bd_kbd_bcache_detach dev slot None) []
      = (Some (ok, slot', Some e), t) ->
      own_error detach_codes e \/ passed_on e t)
  /\ (forall dev ok e t,
      run w (bd_kbd_bcache_destroy dev None) [] = (Some (ok, Some e), t) ->
      own_error detach_codes e \/ passed_on e t)
  /\ (forall backing_device cache_device slot ok slot' e t,
      run w (bd_kbd_bcache_create backing_device cache_device slot None) []
      = (Some (ok, slot', Some e), t) ->
      own_error create_codes e \/ passed_on e t).
Proof.
  intros module_codes detach_codes create_codes.
  split; [|split; [|split; [|split; [|split]]]].
  - intros n sizes nstreams ok e t. apply zram_create_origin.
  - intros ok e t R. unfold bd_kbd_zram_destroy_devices in R.
    eapply run_unload_codes; [exact R | reflexivity].
  - intros u dev ok e t R. unfold bd_kbd_bcache_attach in R.
    match type of R with
    | run w (echo_str_to_file ?s ?p None) ?h = _ =>
        destruct (run_echo w h s p None) as (ok' & err & t' & R' & O)
    end.
    rewrite R in R'. injection R' as <- <- <-.
    eapply echo_passed_on; [exact O | reflexivity].
  - intros dev slot ok slot' e t. apply detach_origin.
  - intros dev ok e t. apply destroy_origin.
  - intros backing cache slot ok slot' e t. apply create_origin.
Qed.


(* ================================================================== *)
(** * Out-parameters that are not asked for *)

Lemma without_slot_call {A X : Type} (e : sysE X) (x : X)
  (p q : option (bool * A * errslot) * trace) :
  without_slot p = without_slot q ->
  without_slot (let '(r, t) := p in (r, Called e x :: t))
  = without_slot (let '(r, t) := q in (r, Called e x :: t)).
Proof.
  destruct p as [rp tp], q as [rq tq]. unfold without_slot. cbn [fst snd].
  intro H. injection H as H1 H2. now rewrite H1, H2.
Qed.

Lemma without_slot_app {A : Type} (t0 : trace)
  (p q : option (bool * A * errslot) * trace) :
  without_slot p = without_slot q ->
  without_slot (let '(r, t) := p in (r, (t0 ++ t)%list))
  = without_slot (let '(r, t) := q in (r, (t0 ++ t)%list)).
Proof.
  destruct p as [rp tp], q as [rq tq]. unfold without_slot. cbn [fst snd].
  intro H. injection H as H1 H2. now rewrite H1, H2.
Qed.

(** Passing [NULL] for an out-parameter changes nothing but the store at
    the end: [bd_kbd_bcache_create] and [bd_kbd_bcache_detach] make the same
    calls and hand back the same result and the same error whether the
    caller asks for the name (the UUID) or not. *)
Theorem out_parameter_is_optional (w : env) :
  (forall backing_device cache_device bcache_device,
      without_slot
        (run w (bd_kbd_bcache_create backing_device cache_device
                  bcache_device None) [])
      = without_slot
          (run w (bd_kbd_bcache_create backing_device cache_device None
                    None) []))
  /\ (forall bcache_device c_set_uuid,
      without_slot
        (run w (bd_kbd_bcache_detach bcache_device c_set_uuid None) [])
      = without_slot
          (run w (bd_kbd_bcache_detach bcache_device None None) [])).
Proof.
  split.
  - intros backing cache slot. unfold bd_kbd_bcache_create.
    rewrite !run_call_bind. cbv zeta.
    apply without_slot_call.
    destruct (w exec_result [] _) as [output|e]; [|reflexivity].
    destruct (parse_set_uuid output) as [set_uuid|]; [|reflexivity].
    destruct (CStr.strrchr backing "/") as [dev_name|]; [|reflexivity].
    rewrite !run_bind.
    match goal with
    | |- context [run w (echo_str_to_file ?s ?p ?e) ?h] =>
        destruct (run w (echo_str_to_file s p e) h) as [[[ok2 e2]|] t2]
    end; [|reflexivity].
    apply without_slot_app.
    destruct ok2; cbn [negb]; [|reflexivity].
    rewrite !run_call_bind. cbv zeta. apply without_slot_call.
    match goal with
    | |- context [w glob_result ?h ?c] =>
        destruct (w glob_result h c) as [path others| | |]
    end; try reflexivity.
    destruct (glob_dev_name path) as [name| |]; try reflexivity.
    rewrite !run_bind.
    match goal with
    | |- context [run w (bd_kbd_bcache_attach ?u ?d ?e) ?h] =>
        destruct (run w (bd_kbd_bcache_attach u d e) h) as [[[ok3 e3]|] t3]
    end; [|reflexivity].
    apply without_slot_app.
    destruct ok3; reflexivity.
  - intros dev slot. unfold bd_kbd_bcache_detach.
    rewrite !run_call_bind. cbv zeta. apply without_slot_call.
    match goal with
    | |- context [w Z ?h ?c] => destruct (negb (w Z h c =? 0)%Z)
    end; [reflexivity|].
    rewrite !run_call_bind. cbv zeta. apply without_slot_call.
    match goal with
    | |- context [w readlink_result ?h ?c] =>
        destruct (w readlink_result h c) as [link|e]
    end; [|reflexivity].
    destruct (CStr.strrchr link "/") as [uuid|]; [|reflexivity].
    rewrite !run_bind.
    match goal with
    | |- context [run w (echo_str_to_file ?s ?p ?e) ?h] =>
        destruct (run w (echo_str_to_file s p e) h) as [[[ok2 e2]|] t2]
    end; [|reflexivity].
    apply without_slot_app.
    destruct ok2; reflexivity.
Qed.

End Facts.

(* ================================================================== *)
(** * The theorems at work *)

Import Fixtures.

Ltac in_list := repeat first [left; reflexivity | right].

(** The walk over [/sys/block/bcache0/slaves/sdb1]. *)
Lemma glob_dev_name_total_witness :
  no_slash "sys" /\ no_slash "block" /\ no_slash "bcache0"
  /\ exists dev_name dev_name_end,
       skip_slashes 2
         (Some (CStr.ptr_add "/sys/block/bcache0/slaves/sdb1" 1))
       = Some dev_name
       /\ dev_name = "bcache0/slaves/sdb1"
       /\ CStr.strchr dev_name "/" = Some dev_name_end
       /\ (0 <= CStr.ptr_diff dev_name_end dev_name)%Z
       /\ CStr.ptr_diff dev_name_end dev_name = 7%Z
       /\ glob_dev_name "/sys/block/bcache0/slaves/sdb1" = NameIs "bcache0".
Proof.
  assert (N : forall s, CStr.strchr s "/" = None -> no_slash s).
  { induction s as [|a s IH]; simpl; [intros _ []|].
    destruct (Ascii.eqb a "/") eqn:E; [discriminate|]. intros H [->|I].
    - discriminate E.
    - now apply IH. }
  assert (N1 : no_slash "sys") by now apply N.
  assert (N2 : no_slash "block") by now apply N.
  assert (N3 : no_slash "bcache0") by now apply N.
  split; [exact N1|]. split; [exact N2|]. split; [exact N3|].
  exact (glob_dev_name_total "sys" "block" "bcache0" "slaves/sdb1" N1 N2 N3).
Defined.

(** zram is loaded and cannot be removed: the call ends with the composed
    error, after the calls of the first load and of the unload. *)
Lemma zram_create_load_fallback_witness :
  let w := world stuck_zram in
  let create :=
    bd_kbd_zram_create_devices (ext := kbd_h) 2 [100; 200]%N
      (Some [4; 8]%N) None in
  exists e1 t1 e2 t2,
    run w (load_kernel_module (ext := kbd_h) "zram" "num_devices=2" None) []
    = (Some (false, Some e1), t1)
    /\ code e1 = kbd_code (Externals := kbd_h) BD_KBD_ERROR_MODULE_FAIL
    /\ run w (unload_kernel_module (ext := kbd_h) "zram" None) t1
       = (Some (false, Some e2), t2)
    /\ run w create []
       = (Some (false,
                Some (mkGError (domain e2) (code e2)
                        ("zram module already loaded: " ++ message e2))),
          (t1 ++ t2)%list).
Proof.
  intros w create.
  lazymatch eval vm_compute in
    (run w (load_kernel_module (ext := kbd_h) "zram" "num_devices=2" None) [])
  with
  | (Some (false, Some ?e), ?t) => pose (e1 := e); pose (t1 := t)
  end.
  assert (R1 : run w (load_kernel_module (ext := kbd_h) "zram"
                        ("num_devices=" ++ CStr.fmt_u64 2) None) []
               = (Some (false, Some e1), t1)) by (vm_compute; reflexivity).
  destruct (zram_create_load_fallback (ext := kbd_h) w 2 [100; 200]%N
              (Some [4; 8]%N) e1 t1 R1) as [A _].
  destruct (A eq_refl) as (ok2 & err2 & t2 & R2 & F2 & _).
  vm_compute in R2. injection R2 as E1 E2 E3. subst ok2 err2 t2.
  destruct (F2 eq_refl) as (e2 & E & G). injection E as <-.
  eexists e1, t1, _, _. split; [exact R1|]. split; [reflexivity|].
  split; [vm_compute; reflexivity | exact G].
Defined.

(** The stream count of [zram1] cannot be written: the call fails naming
    [/dev/zram1], and no size has been written, not even that of [zram0]. *)
Lemma zram_streams_before_sizes_witness :
  let w := world no_streams_file in
  let create :=
    bd_kbd_zram_create_devices (ext := kbd_h) 2 [100; 200]%N
      (Some [4; 8]%N) None in
  exists r t c,
    run w create [] = (r, t)
    /\ In c t
    /\ channel_path c = Some (max_comp_streams_file 1)
    /\ channel_failure c = Some io_error
    /\ (forall d, In d t -> ~ disksize_call d)
    /\ exists rest,
         r = Some (false,
                   Some (mkGError (domain io_error) (code io_error)
                           ("Failed to set number of compression streams for '/dev/zram"
                            ++ CStr.fmt_u64 1 ++ "': " ++ rest))).
Proof.
  intros w create.
  lazymatch eval vm_compute in (run w create []) with
  | (?r0, ?t0) => pose (r := r0); pose (t := t0)
  end.
  assert (R : run w create [] = (r, t)) by (vm_compute; reflexivity).
  pose (c := Called (g_io_channel_write_chars
                       "/sys/block/zram1/max_comp_streams" "8")
               (GFail io_error)).
  assert (Hc : In c t) by (unfold t, c; in_list).
  exists r, t, c. split; [exact R|]. split; [exact Hc|].
  split; [reflexivity|]. split; [reflexivity|].
  exact (proj2 (proj2 (zram_streams_before_sizes (ext := kbd_h) w 2
                         [100; 200]%N [4; 8]%N r t R))
           1%N c io_error Hc eq_refl eq_refl).
Defined.



(** Two devices list [sdb1] as a slave; the first one, [bcache0], is taken. *)
Lemma bcache_create_glob_resolution_witness :
  let w := world healthy in
  exists output t_reg t_att,
    no_slash "sdb1"
    /\ w exec_result []
         (bd_utils_exec_and_capture_output
            ["make-bcache"; "-B"; "/dev/sdb1"; "-C"; "/dev/sdc1"])
       = ExecOk output
    /\ parse_set_uuid output = Some "1234-deadbeef"
    /\ run w (echo_str_to_file "/dev/sdb1" "/sys/fs/bcache/register" None)
         [Called (bd_utils_exec_and_capture_output
                    ["make-bcache"; "-B"; "/dev/sdb1"; "-C"; "/dev/sdc1"])
            (ExecOk output)]
       = (Some (true, None), t_reg)
    /\ t_att = written "1234-deadbeef" "/sys/block/bcache0/bcache/attach"
    /\ run w (bd_kbd_bcache_create (ext := kbd_h) "/dev/sdb1" "/dev/sdc1"
                (Some None) None) []
       = (Some (true, Some (Some "bcache0"), None),
          ([Called (bd_utils_exec_and_capture_output
                      ["make-bcache"; "-B"; "/dev/sdb1"; "-C"; "/dev/sdc1"])
              (ExecOk output)]
           ++ t_reg
           ++ [Called (glob "/sys/block/*/slaves/sdb1" GLOB_NOSORT)
                 (GlobMatches "/sys/block/bcache0/slaves/sdb1"
                    ["/sys/block/bcache1/slaves/sdb1"])]
           ++ t_att)%list).
Proof.
  intros w.
  pose (argv := ["make-bcache"; "-B"; "/dev/sdb1"; "-C"; "/dev/sdc1"]).
  lazymatch eval vm_compute in
    (w exec_result [] (bd_utils_exec_and_capture_output argv))
  with
  | ExecOk ?o => pose (output := o)
  end.
  pose (t_reg := written "/dev/sdb1" "/sys/fs/bcache/register").
  assert (N : no_slash "sdb1")
    by (intros [H|[H|[H|[H|[]]]]]; discriminate H).
  assert (X : w exec_result [] (bd_utils_exec_and_capture_output argv)
              = ExecOk output) by reflexivity.
  assert (P : parse_set_uuid output = Some "1234-deadbeef")
    by (vm_compute; reflexivity).
  assert (Reg : run w (echo_str_to_file ("/dev" ++ "/" ++ "sdb1")
                         "/sys/fs/bcache/register" None)
                  [Called (bd_utils_exec_and_capture_output argv)
                     (ExecOk output)]
                = (Some (true, None), t_reg)) by (vm_compute; reflexivity).
  pose proof (bcache_create_glob_resolution (ext := kbd_h) w "/dev" "sdb1"
                "/dev/sdc1" (Some None) output "1234-deadbeef" t_reg
                N X P Reg) as T.
  hnf in T.
  destruct (T "sys" "block" "bcache0" "slaves" ["sdb1"] eq_refl)
    as (ok & err & t_att & Ra & Oa & G).
  vm_compute in Ra. injection Ra as E1 E2 E3. subst ok err t_att.
  eexists output, t_reg, _. split; [exact N|]. split; [exact X|].
  split; [exact P|]. split; [exact Reg|]. split; [reflexivity|].
  exact G.
Defined.


(* ================================================================== *)
(** * Where the code parts from what is said about it *)

(** C1 (the code differs).  A backing device given without any '/', here
    [sdb1] relative to the working directory, makes
    [bd_kbd_bcache_create] return [FALSE] after the tool has run and its
    output has been parsed, and the error slot is still empty: the exit
    behind [strrchr] stores no error, although its comment says the error is
    already populated. *)
Lemma bcache_create_no_slash_no_error :
  run (world healthy)
    (bd_kbd_bcache_create (ext := kbd_h) "sdb1" "/dev/sdc1" (Some None) None)
    []
  = (Some (false, Some None, None),
     [Called (bd_utils_exec_and_capture_output
                ["make-bcache"; "-B"; "sdb1"; "-C"; "/dev/sdc1"])
        (tool healthy)]).
Proof. vm_compute. reflexivity. Qed.

(** C6 (the code differs).  When the write to the detach file fails,
    [bd_kbd_bcache_detach] calls [g_set_error] with
    [BD_KBD_ERROR_BCACHE_DETACH_FAIL] on a slot that [echo_str_to_file] has
    filled already, so the error handed back is still the I/O error of the
    write: neither its domain nor its code is that of a detach failure, and
    its message is the writer's. *)
Lemma bcache_detach_write_failure_keeps_io_error :
  exists t e,
    run (world stubborn_detach)
      (bd_kbd_bcache_detach (ext := kbd_h) "/dev/bcache0" (Some None) None) []
    = (Some (false, Some None, Some e), t)
    /\ In (Called (g_io_channel_write_chars
                     "/sys/block/bcache0/bcache/detach" "abcd")
             (GFail io_error)) t
    /\ domain e = domain io_error
    /\ domain e <> BD_KBD_ERROR
    /\ code e = code io_error
    /\ message e
       = "Failed to write 'abcd' to file '/sys/block/bcache0/bcache/detach': Input/output error"
    /\ message e <> "Failed to detach 'abcd' from 'bcache0'".
Proof.
  do 2 eexists. split; [vm_compute; reflexivity|].
  split; [in_list|]. repeat split; discriminate.
Qed.

(* ================================================================== *)
(** * More runs *)


(** Two devices with stream counts on the healthy machine. *)
Lemma zram_create_success_witness :
  let w := world healthy in
  let create :=
    bd_kbd_zram_create_devices (ext := kbd_h) 2 [100; 200]%N
      (Some [4; 8]%N) None in
  exists t t_mod,
    run w create [] = (Some (true, None), t)
    /\ quiet t_mod
    /\ t = (t_mod
            ++ all_written max_comp_streams_file 2 [4; 8]%N
            ++ all_written disksize_file 2 [100; 200]%N)%list.
Proof.
  intros w create.
  lazymatch eval vm_compute in (run w create []) with
  | (_, ?t0) => pose (t := t0)
  end.
  assert (R : run w create [] = (Some (true, None), t))
    by (vm_compute; reflexivity).
  destruct (zram_create_success (ext := kbd_h) w 2 [100; 200]%N
              (Some [4; 8]%N) None t R) as (_ & _ & _ & t_mod & Q & E).
  exists t, t_mod. split; [exact R|]. split; [exact Q | exact E].
Defined.


(** The size of [zram1] cannot be written: the call fails naming
    [/dev/zram1], with the size of [zram0] written before. *)
Lemma zram_size_failure_witness :
  let w := world no_size_file in
  let create :=
    bd_kbd_zram_create_devices (ext := kbd_h) 2 [100; 200]%N
      (Some [4; 8]%N) None in
  exists r t c,
    run w create [] = (r, t)
    /\ In c t
    /\ channel_path c = Some (disksize_file 1)
    /\ channel_failure c = Some io_error
    /\ (1 < 2)%N
    /\ exists v rest t_before t_fail,
         nth_error [100; 200]%N (N.to_nat 1) = Some v
         /\ r = Some (false,
                      Some (mkGError (domain io_error) (code io_error)
                              ("Failed to set size for '/dev/zram"
                               ++ CStr.fmt_u64 1 ++ "': " ++ rest)))
         /\ t = (t_before
                 ++ all_written disksize_file (N.to_nat 1) [100; 200]%N
                 ++ t_fail)%list
         /\ (forall d, In d t_before -> ~ disksize_call d)
         /\ (forall d, In d t_fail ->
               channel_path d = Some (disksize_file 1)).
Proof.
  intros w create.
  lazymatch eval vm_compute in (run w create []) with
  | (?r0, ?t0) => pose (r := r0); pose (t := t0)
  end.
  assert (R : run w create [] = (r, t)) by (vm_compute; reflexivity).
  pose (c := Called (g_io_channel_write_chars
                       "/sys/block/zram1/disksize" "200")
               (GFail io_error)).
  assert (Hc : In c t) by (unfold t, c; in_list).
  exists r, t, c. split; [exact R|]. split; [exact Hc|].
  split; [reflexivity|]. split; [reflexivity|].
  exact (zram_size_failure (ext := kbd_h) w 2 [100; 200]%N (Some [4; 8]%N)
           r t 1%N c io_error R Hc eq_refl eq_refl).
Defined.

(** [/dev/sdb1] is made the backing device of [bcache0]. *)
Lemma bcache_create_success_witness :
  let w := world healthy in
  let argv := ["make-bcache"; "-B"; "/dev/sdb1"; "-C"; "/dev/sdc1"] in
  let create :=
    bd_kbd_bcache_create (ext := kbd_h) "/dev/sdb1" "/dev/sdc1" (Some None)
      None in
  exists t,
    run w create [] = (Some (true, Some (Some "bcache0"), None), t)
    /\ exists output set_uuid dir name path others dev_name,
         "/dev/sdb1" = dir ++ "/" ++ name /\ no_slash name
         /\ parse_set_uuid output = Some set_uuid
         /\ glob_dev_name path = NameIs dev_name
         /\ Some (Some "bcache0") = store (Some None) dev_name
         /\ t = (Called (bd_utils_exec_and_capture_output argv)
                   (ExecOk output)
                 :: written "/dev/sdb1" "/sys/fs/bcache/register"
                 ++ Called (glob ("/sys/block/*/slaves/" ++ name)
                              GLOB_NOSORT)
                      (GlobMatches path others)
                    :: written set_uuid
                         ("/sys/block/" ++ dev_name ++ "/bcache/attach"))%list.
Proof.
  intros w argv create.
  lazymatch eval vm_compute in (run w create []) with
  | (_, ?t0) => pose (t := t0)
  end.
  assert (R : run w create []
              = (Some (true, Some (Some "bcache0"), None), t))
    by (vm_compute; reflexivity).
  exists t. split; [exact R|].
  exact (proj2 (bcache_create_success (ext := kbd_h) w "/dev/sdb1"
                  "/dev/sdc1" (Some None) (Some (Some "bcache0")) None t R)).
Defined.


(** [bcache0] and [/dev/bcache0]. *)
Lemma dev_prefix_is_optional_witness :
  CStr.g_str_has_prefix "bcache0" "/dev/" = false
  /\ (forall c_set_uuid error,
        bd_kbd_bcache_attach c_set_uuid "/dev/bcache0" error
        = bd_kbd_bcache_attach c_set_uuid "bcache0" error)
  /\ (forall c_set_uuid error,
        bd_kbd_bcache_detach (ext := kbd_h) "/dev/bcache0" c_set_uuid error
        = bd_kbd_bcache_detach (ext := kbd_h) "bcache0" c_set_uuid error)
  /\ (forall error,
        bd_kbd_bcache_destroy (ext := kbd_h) "/dev/bcache0" error
        = bd_kbd_bcache_destroy (ext := kbd_h) "bcache0" error).
Proof.
  split; [reflexivity|].
  exact (dev_prefix_is_optional (ext := kbd_h) "bcache0" eq_refl).
Defined.

(** zram is loaded with other options: it is inserted twice and removed
    once, and the second insertion is followed by the writes. *)
Lemma zram_create_module_traffic_witness :
  let w := world stale_zram in
  let opts := "num_devices=" ++ CStr.fmt_u64 2 in
  let create :=
    bd_kbd_zram_create_devices (ext := kbd_h) 2 [100; 200]%N
      (Some [4; 8]%N) None in
  exists t,
    run w create [] = (Some (true, None), t)
    /\ inserts_in t = 2 /\ removes_in t = 1
    /\ exists before ret after,
         t = (before
              ++ Called (kmod_module_insert_module "zram" 0 opts) ret
                 :: after)%list
         /\ (0 <= ret)%Z
         /\ quiet before
         /\ forall c, In c after -> is_channel_call c = true.
Proof.
  intros w opts create.
  lazymatch eval vm_compute in (run w create []) with
  | (_, ?t0) => pose (t := t0)
  end.
  assert (R : run w create [] = (Some (true, None), t))
    by (vm_compute; reflexivity).
  exists t. split; [exact R|].
  split; [vm_compute; reflexivity|]. split; [vm_compute; reflexivity|].
  destruct (zram_create_module_traffic (ext := kbd_h) w 2 [100; 200]%N
              (Some [4; 8]%N) _ t R) as (_ & _ & _ & _ & Last).
  apply Last. right. now exists None.
Defined.
